(** * Chinook Explorer: the Modeler and the Analyzer

    A shallow embedding of [chinook_explorer/modeling.py] and
    [chinook_explorer/analytics.py].

    - A pandas DataFrame is an object on a heap: [ChinookModel.tables] maps a
      table name to a reference, and every method runs in a state-and-error
      monad over that heap, so that [copy], [merge] (which allocate) and
      [df[c] = ...], [rename(inplace=True)] (which write in place) are told
      apart.
    - A Series is a value (the program never writes into one).
    - A number is a rational ([Q]); a missing value (NaN, None, NaT) is
      [VNull]; a timestamp is a number of nanoseconds since the epoch.  Sums
      and quotients are taken exactly (the rounding of a float64 sum is not
      modelled); the product of two columns is a parameter of the program,
      the product in the dtype of the columns ([value_mul]).
    - The pandas operations the program calls are modelled next to their use,
      each with the pandas behaviour it stands for. *)

From Stdlib Require Import QArith Ascii String SpecFloat.
From stdpp Require Import gmap strings list fin_maps sorting.

Local Open Scope Z_scope.

(** ** Values *)

Inductive value : Type :=
  | VNull
  | VNum (q : Q)
  | VStr (s : string)
  | VTime (t : Z).

Global Instance value_inhabited : Inhabited value := populate VNull.

Definition isna (v : value) : bool :=
  match v with VNull => true | _ => false end.

(** Equality of two cells as pandas compares keys: numbers by value, and a
    missing key equal to a missing key (as [merge] matches them). *)
Definition value_eqb (a b : value) : bool :=
  match a, b with
  | VNull, VNull => true
  | VNum x, VNum y => Qeq_bool x y
  | VStr x, VStr y => String.eqb x y
  | VTime x, VTime y => Z.eqb x y
  | _, _ => false
  end.

(** The order used by sorting: numbers, then strings, then timestamps;
    missing values are placed by the callers. *)
Definition value_rank (v : value) : Z :=
  match v with VNull => 0 | VNum _ => 1 | VStr _ => 2 | VTime _ => 3 end.

Definition value_leb (a b : value) : bool :=
  match a, b with
  | VNum x, VNum y => Qle_bool x y
  | VStr x, VStr y => String.leb x y
  | VTime x, VTime y => Z.leb x y
  | _, _ => Z.leb (value_rank a) (value_rank b)
  end.

(** ** Exceptions *)

Inductive error : Type :=
  | KeyError (msg : string)
  | ValueError (msg : string)
  | TypeError (msg : string)
  | AttributeError (msg : string).

Inductive result (A : Type) : Type :=
  | Ok (a : A)
  | Raise (e : error).
Arguments Ok {A} a.
Arguments Raise {A} e.

Global Instance result_ret : MRet result := λ A a, Ok a.
Global Instance result_bind : MBind result := λ A B f m,
  match m with Ok a => f a | Raise e => Raise e end.
Global Instance result_fmap : FMap result := λ A B f m,
  match m with Ok a => Ok (f a) | Raise e => Raise e end.

(** [try: m except ValueError: h] *)
Definition try_except_ValueError {A} (m : result A) (h : result A) : result A :=
  match m with
  | Raise (ValueError _) => h
  | _ => m
  end.

Fixpoint mapR {A B} (f : A → result B) (l : list A) : result (list B) :=
  match l with
  | [] => Ok []
  | x :: l => y ← f x; ys ← mapR f l; Ok (y :: ys)
  end.

(** A stable sort by a boolean order (insertion sort); the order of equal
    elements is a choice of this model where pandas leaves it open. *)
Fixpoint insert_by {A} (leb : A → A → bool) (x : A) (l : list A) : list A :=
  match l with
  | [] => [x]
  | y :: l' => if leb x y then x :: l else y :: insert_by leb x l'
  end.

Definition sort_by {A} (leb : A → A → bool) (l : list A) : list A :=
  foldr (insert_by leb) [] l.

(** ** DataFrames *)

Abbreviation Series := (list value) (only parsing).

Record DataFrame : Type := mkDataFrame {
  columns : list string;
  rows : list (gmap string value);
}.

Definition cell (r : gmap string value) (c : string) : value :=
  default VNull (r !! c).

Definition nrows (df : DataFrame) : nat := length (rows df).

Definition has_column (c : string) (df : DataFrame) : bool :=
  bool_decide (c ∈ columns df).

(** [df[c]] *)
Definition df_getitem (c : string) (df : DataFrame) : result Series :=
  if has_column c df then Ok (map (λ r, cell r c) (rows df))
  else Raise (KeyError c).

(** [df[c] = s] for a Series [s] on the same index as [df]. *)
Definition df_setitem (c : string) (s : Series) (df : DataFrame) : result DataFrame :=
  if bool_decide (length s = nrows df) then
    Ok {| columns := if has_column c df then columns df else columns df ++ [c];
          rows := zip_with (λ r v, <[c := v]> r) (rows df) s |}
  else Raise (ValueError "Length of values does not match length of index").

(** [df[cols]] for a list of present columns. *)
Definition df_project (cols : list string) (df : DataFrame) : result DataFrame :=
  match List.filter (λ c, negb (has_column c df)) cols with
  | [] => Ok {| columns := cols;
                rows := map (λ r, list_to_map (map (λ c, (c, cell r c)) cols)) (rows df) |}
  | c :: _ => Raise (KeyError c)
  end.

(** [df.rename(columns={old: new})] *)
Definition df_rename (old new : string) (df : DataFrame) : DataFrame :=
  let ren c := if String.eqb c old then new else c in
  {| columns := map ren (columns df);
     rows := map (λ r, list_to_map (map (λ c, (ren c, cell r c)) (columns df))) (rows df) |}.

(** *** Left merge

    [left.merge(right, left_on=lk, right_on=rk, how="left", suffixes=(ls, rs))];
    [on=k] is [lk = rk = k], and then the right key column is dropped.  A
    column name on both sides gets the side's suffix.  Every left row is kept,
    in order: once per right row with an equal key, or once with the right
    columns missing when there is none. *)
Definition merge_right_columns (right : DataFrame) (lk rk : string) : list string :=
  if String.eqb lk rk then List.filter (λ c, negb (String.eqb c rk)) (columns right)
  else columns right.

Definition suffixed (overlap : list string) (suffix c : string) : string :=
  if bool_decide (c ∈ overlap) then c +:+ suffix else c.

Definition merge_row (lcols rcols overlap : list string) (ls rs : string)
    (lr : gmap string value) (rr : option (gmap string value)) : gmap string value :=
  let l := map (λ c, (suffixed overlap ls c, cell lr c)) lcols in
  let r := map (λ c, (suffixed overlap rs c,
                      match rr with Some rr => cell rr c | None => VNull end)) rcols in
  list_to_map (l ++ r).

Definition merge_matches (right : DataFrame) (rk : string) (k : value)
    : list (gmap string value) :=
  List.filter (λ rr, value_eqb k (cell rr rk)) (rows right).

Definition df_merge (left right : DataFrame) (lk rk : string) (ls rs : string)
    : result DataFrame :=
  if negb (has_column rk right) then Raise (KeyError rk)
  else if negb (has_column lk left) then Raise (KeyError lk)
  else
    let rcols := merge_right_columns right lk rk in
    let overlap := List.filter (λ c, bool_decide (c ∈ columns left)) rcols in
    if bool_decide (overlap ≠ []) && String.eqb ls "" && String.eqb rs "" then
      Raise (ValueError "columns overlap but no suffix specified")
    else
      let mk := merge_row (columns left) rcols overlap ls rs in
      Ok {| columns := map (suffixed overlap ls) (columns left)
                       ++ map (suffixed overlap rs) rcols;
            rows := flat_map (λ lr,
                      match merge_matches right rk (cell lr lk) with
                      | [] => [mk lr None]
                      | ms => map (λ rr, mk lr (Some rr)) ms
                      end) (rows left) |}.

(** ** Calendar arithmetic on timestamps (proleptic Gregorian, UTC) *)

Definition ns_per_day : Z := 86400000000000.

Definition days_of (t : Z) : Z := t / ns_per_day.

(** Days since 1970-01-01 of the civil date [y]-[m]-[d]. *)
Definition days_from_civil (y m d : Z) : Z :=
  let y := if m <=? 2 then y - 1 else y in
  let era := y / 400 in
  let yoe := y - era * 400 in
  let doy := (153 * (if 2 <? m then m - 3 else m + 9) + 2) / 5 + d - 1 in
  let doe := yoe * 365 + yoe / 4 - yoe / 100 + doy in
  era * 146097 + doe - 719468.

(** The civil date (year, month, day) of a day number. *)
Definition civil_from_days (z : Z) : Z * Z * Z :=
  let z := z + 719468 in
  let era := z / 146097 in
  let doe := z - era * 146097 in
  let yoe := (doe - doe / 1460 + doe / 36524 - doe / 146096) / 365 in
  let doy := doe - (365 * yoe + yoe / 4 - yoe / 100) in
  let mp := (5 * doy + 2) / 153 in
  let d := doy - (153 * mp + 2) / 5 + 1 in
  let m := if mp <? 10 then mp + 3 else mp - 9 in
  ((if m <=? 2 then yoe + era * 400 + 1 else yoe + era * 400), m, d).

Definition year_of (t : Z) : Z := (civil_from_days (days_of t)).1.1.
Definition month_of (t : Z) : Z := (civil_from_days (days_of t)).1.2.
Definition quarter_of (t : Z) : Z := (month_of t - 1) / 3 + 1.

(** Monday is 0. *)
Definition weekday_of (t : Z) : Z := (days_of t + 3) mod 7.

Definition weeks_in_year (y : Z) : Z :=
  let p y := (y + y / 4 - y / 100 + y / 400) mod 7 in
  if (p y =? 4) || (p (y - 1) =? 3) then 53 else 52.

Definition isoweek_of (t : Z) : Z :=
  let y := year_of t in
  let doy := days_of t - days_from_civil y 1 1 + 1 in
  let w := (doy - (weekday_of t + 1) + 10) / 7 in
  if w <? 1 then weeks_in_year (y - 1)
  else if (w =? 53) && (weeks_in_year y =? 52) then 1
  else w.

Definition day_name_of (t : Z) : string :=
  match weekday_of t with
  | 0 => "Monday" | 1 => "Tuesday" | 2 => "Wednesday" | 3 => "Thursday"
  | 4 => "Friday" | 5 => "Saturday" | _ => "Sunday"
  end.

(** [.dt.to_period("M").dt.to_timestamp()]: midnight of the first day of the
    month. *)
Definition month_start (t : Z) : Z :=
  days_from_civil (year_of t) (month_of t) 1 * ns_per_day.

(** ** Series operations *)

Definition num (z : Z) : value := VNum (inject_Z z).

(** [pd.api.types.is_datetime64_any_dtype]: a column of timestamps and
    missing values. *)
Definition is_datetime64_any_dtype (s : Series) : bool :=
  forallb (λ v, match v with VTime _ | VNull => true | _ => false end) s.

(** The [.dt] accessor applied with a per-timestamp function; NaT gives a
    missing value. *)
Definition dt (f : Z → value) (s : Series) : result Series :=
  if is_datetime64_any_dtype s then
    Ok (map (λ v, match v with VTime t => f t | _ => VNull end) s)
  else Raise (AttributeError "Can only use .dt accessor with datetimelike values").

(** [a * b] on two cells.  The product of two numbers is [num_mul], the
    product in the dtype of the columns: float64 rounds the exact product to
    the nearest float and int64 wraps around, so it is not the exact product
    in general.  A missing factor gives a missing product.  On other cells
    (those of an object column) Python multiplies, [obj_mul]: an [int] repeats
    a [str], and there is no product ([None]) where Python raises
    [TypeError]. *)
Definition value_mul (num_mul : Q → Q → Q)
    (obj_mul : value → value → option value) (a b : value) : result value :=
  match a, b with
  | VNum x, VNum y => Ok (VNum (num_mul x y))
  | VNull, VNum _ | VNum _, VNull | VNull, VNull => Ok VNull
  | _, _ => match obj_mul a b with
            | Some v => Ok v
            | None => Raise (TypeError "unsupported operand type(s) for *")
            end
  end.

Arguments value_mul : simpl never.

Definition value_add (a b : value) : result value :=
  match a, b with
  | VNum x, VNum y => Ok (VNum (x + y))
  | VNull, VNum _ | VNum _, VNull | VNull, VNull => Ok VNull
  | _, _ => Raise (TypeError "unsupported operand type(s) for +")
  end.

Definition value_sub (a b : value) : result value :=
  match a, b with
  | VNum x, VNum y => Ok (VNum (x - y))
  | VNull, VNum _ | VNum _, VNull | VNull, VNull => Ok VNull
  | _, _ => Raise (TypeError "unsupported operand type(s) for -")
  end.

(** [a / k] for a number [k]. *)
Definition value_div (k : Q) (a : value) : result value :=
  match a with
  | VNum x => Ok (VNum (x / k))
  | VNull => Ok VNull
  | _ => Raise (TypeError "unsupported operand type(s) for /")
  end.

(** Element-wise operation on two Series of one index. *)
Fixpoint series_zip (f : value → value → result value) (a b : Series) : result Series :=
  match a, b with
  | x :: a, y :: b => z ← f x y; zs ← series_zip f a b; Ok (z :: zs)
  | _, _ => Ok []
  end.

(** [s.sum()]: missing values are skipped. *)
Fixpoint series_sum (s : Series) : result Q :=
  match s with
  | [] => Ok 0%Q
  | VNull :: s => series_sum s
  | VNum x :: s => t ← series_sum s; Ok (x + t)%Q
  | _ :: _ => Raise (TypeError "unsupported operand type(s) for +")
  end.

(** [s.max()] of a datetime column: the latest timestamp, NaT when there is
    none. *)
Definition time_max (s : Series) : value :=
  foldr (λ v acc, match v, acc with
                  | VTime t, VTime u => VTime (Z.max t u)
                  | VTime t, _ => VTime t
                  | _, _ => acc
                  end) VNull s.

(** [s.nunique()]: the number of distinct values that are not missing. *)
Fixpoint dedup_by {A} (eqb : A → A → bool) (l : list A) : list A :=
  match l with
  | [] => []
  | x :: l => x :: List.filter (λ y, negb (eqb x y)) (dedup_by eqb l)
  end.

Definition nunique (s : Series) : nat :=
  length (dedup_by value_eqb (List.filter (λ v, negb (isna v)) s)).

(** [s.head(n)]: the first [n] rows, or all but the last [-n]. *)
Definition head {A} (n : Z) (l : list A) : list A :=
  if 0 <=? n then take (Z.to_nat n) l
  else take (length l - Z.to_nat (- n)) l.

(** *** groupby

    [df.groupby(keys)]: rows with a missing key are dropped ([dropna=True]),
    the groups come in sorted key order ([sort=True]) and keep the rows in
    their order. *)
Definition key_of (keys : list string) (r : gmap string value) : list value :=
  map (cell r) keys.

Fixpoint keys_eqb (a b : list value) : bool :=
  match a, b with
  | [], [] => true
  | x :: a, y :: b => value_eqb x y && keys_eqb a b
  | _, _ => false
  end.

Fixpoint keys_leb (a b : list value) : bool :=
  match a, b with
  | [], _ => true
  | _ :: _, [] => false
  | x :: a, y :: b => if value_eqb x y then keys_leb a b else value_leb x y
  end.

Definition key_present (keys : list string) (r : gmap string value) : bool :=
  forallb (λ v, negb (isna v)) (key_of keys r).

Definition group_keys (keys : list string) (df : DataFrame) : list (list value) :=
  sort_by keys_leb
    (dedup_by keys_eqb (map (key_of keys) (List.filter (key_present keys) (rows df)))).

Definition group_rows (keys : list string) (df : DataFrame) (k : list value)
    : list (gmap string value) :=
  List.filter (λ r, key_present keys r && keys_eqb (key_of keys r) k) (rows df).

Definition groupby (keys : list string) (df : DataFrame)
    : result (list (list value * list (gmap string value))) :=
  match List.filter (λ c, negb (has_column c df)) keys with
  | c :: _ => Raise (KeyError c)
  | [] => Ok (map (λ k, (k, group_rows keys df k)) (group_keys keys df))
  end.

(** A Series indexed by group keys, as [groupby(keys)[col].sum()] returns. *)
Definition KeyedSeries := list (list value * value).

Definition groupby_sum (keys : list string) (col : string) (df : DataFrame)
    : result KeyedSeries :=
  g ← groupby keys df;
  if negb (has_column col df) then Raise (KeyError ("Column not found: " +:+ col))
  else mapR (λ kr, t ← series_sum (map (λ r, cell r col) kr.2); Ok (kr.1, VNum t)) g.

(** [s.sort_values(ascending=False)] on a keyed Series; missing values last. *)
Definition keyed_sort_desc (s : KeyedSeries) : KeyedSeries :=
  sort_by (λ a b, value_leb b.2 a.2) (List.filter (λ a, negb (isna a.2)) s)
  ++ List.filter (λ a, isna a.2) s.

(** [s.reset_index()]: the keys become columns. *)
Definition reset_index (keys : list string) (col : string) (s : KeyedSeries) : DataFrame :=
  {| columns := keys ++ [col];
     rows := map (λ kv, list_to_map (zip keys kv.1 ++ [(col, kv.2)])) s |}.

(** [df.sort_values(c, ascending=...)]; rows with a missing [c] last. *)
Definition df_sort_values (c : string) (ascending : bool) (df : DataFrame)
    : result DataFrame :=
  if negb (has_column c df) then Raise (KeyError c)
  else
    let present := List.filter (λ r, negb (isna (cell r c))) (rows df) in
    let missing := List.filter (λ r, isna (cell r c)) (rows df) in
    let sorted :=
      if ascending
      then sort_by (λ a b, value_leb (cell a c) (cell b c)) present
      else sort_by (λ a b, value_leb (cell b c) (cell a c)) present in
    Ok {| columns := columns df; rows := sorted ++ missing |}.

(** [df.columns = names] *)
Definition df_set_columns (names : list string) (df : DataFrame) : result DataFrame :=
  if bool_decide (length names = length (columns df)) then
    Ok {| columns := names;
          rows := map (λ r, list_to_map (zip names (map (cell r) (columns df)))) (rows df) |}
  else Raise (ValueError "Length mismatch").

(** *** qcut

    [pd.qcut(s, q, labels=False, duplicates=...)]: the [q+1] bin edges are the
    quantiles [k/q] of the values that are not missing, by linear
    interpolation between closest ranks; repeated edges are dropped
    ([duplicates="drop"]) or raise [ValueError] ([duplicates="raise"]); a value
    gets the 0-based number of its bin [(e_i, e_(i+1)]], the lowest edge
    included, and a missing label when it falls in none. *)
Inductive duplicates := DupRaise | DupDrop.

Definition Qltb (a b : Q) : bool := negb (Qle_bool b a).

Definition quantile (q : nat) (sorted : list Q) (k : nat) : Q :=
  let n := length sorted in
  let pos := ((n - 1) * k)%nat in
  let i := (pos / q)%nat in
  let r := (pos mod q)%nat in
  let a := nth i sorted 0%Q in
  let b := nth (Nat.min (i + 1) (n - 1)) sorted 0%Q in
  (a + (b - a) * (Z.of_nat r # Pos.of_nat q))%Q.

Definition numbers (s : Series) : result (list (option Q)) :=
  mapR (λ v, match v with
             | VNum x => Ok (Some x)
             | VNull => Ok None
             | _ => Raise (TypeError "cannot compute quantiles of non-numeric data")
             end) s.

(** [bins.searchsorted(x, side="left")] on sorted [bins]: the number of
    edges below [x]. *)
Fixpoint searchsorted_left (bins : list Q) (x : Q) : nat :=
  match bins with
  | [] => 0
  | b :: bins => if Qltb b x then S (searchsorted_left bins x) else 0
  end.

Definition bin_label (bins : list Q) (x : option Q) : value :=
  match x, bins with
  | Some x, b0 :: _ =>
      let ids := if Qeq_bool x b0 then 1%nat else searchsorted_left bins x in
      if (ids =? 0)%nat || (ids =? length bins)%nat then VNull
      else num (Z.of_nat ids - 1)
  | _, _ => VNull
  end.

Definition qcut (s : Series) (q : nat) (dup : duplicates) : result Series :=
  xs ← numbers s;
  let sorted := sort_by Qle_bool (omap id xs) in
  match sorted with
  | [] => Ok (map (λ _, VNull) xs)
  | _ =>
    let edges := map (quantile q sorted) (seq 0 (q + 1)) in
    let unique_bins := dedup_by Qeq_bool edges in
    if bool_decide (length unique_bins < length edges)%nat
       && negb (length edges =? 2)%nat then
      match dup with
      | DupRaise => Raise (ValueError "Bin edges must be unique")
      | DupDrop => Ok (map (bin_label unique_bins) xs)
      end
    else Ok (map (bin_label edges) xs)
  end.

(** [s.rank(method="first")]: 1-based ranks, equal values ranked in the order
    they appear; a missing value keeps a missing rank. *)
Definition rank_first (s : Series) : result Series :=
  xs ← numbers s;
  Ok (imap (λ i x,
        match x with
        | None => VNull
        | Some x =>
            let below := length (List.filter (λ y, Qltb y x) (omap id xs)) in
            let ties := length (List.filter (λ y, Qeq_bool y x) (omap id (take i xs))) in
            num (Z.of_nat (below + ties) + 1)
        end) xs).

(** [s.max()] of a numeric Series, missing values skipped. *)
Definition num_max (s : Series) : value :=
  foldr (λ v acc, match v, acc with
                  | VNum x, VNum y => if Qle_bool x y then VNum y else VNum x
                  | VNum x, _ => VNum x
                  | _, _ => acc
                  end) VNull s.

(** [s.astype(int)]: a number is truncated, a missing value raises. *)
Definition int_of_value (v : value) : result value :=
  match v with
  | VNum x => Ok (num (Z.quot (Qnum x) (Zpos (Qden x))))
  | VNull =>
      Raise (ValueError "Cannot convert non-finite values (NA or inf) to integer")
  | _ => Raise (ValueError "invalid literal for int()")
  end.

Definition astype_int (s : Series) : result Series := mapR int_of_value s.

(** *** Text *)

Definition lower_ascii (c : ascii) : ascii :=
  let n := nat_of_ascii c in
  if (65 <=? n)%nat && (n <=? 90)%nat then ascii_of_nat (n + 32) else c.

(** [\s] and the separators of [str.split()] *)
Definition is_space (c : ascii) : bool :=
  let n := nat_of_ascii c in
  ((9 <=? n)%nat && (n <=? 13)%nat) || ((28 <=? n)%nat && (n <=? 32)%nat).

Definition is_lower_letter (c : ascii) : bool :=
  let n := nat_of_ascii c in (97 <=? n)%nat && (n <=? 122)%nat.

Fixpoint str_map (f : ascii → ascii) (s : string) : string :=
  match s with
  | EmptyString => EmptyString
  | String c s => String (f c) (str_map f s)
  end.

Fixpoint str_filter (f : ascii → bool) (s : string) : string :=
  match s with
  | EmptyString => EmptyString
  | String c s => if f c then String c (str_filter f s) else str_filter f s
  end.

(** [s.split()]: the maximal runs of characters that are not white space;
    [cur] is the run being read, reversed. *)
Fixpoint split_ws (cur : list ascii) (s : string) : list string :=
  let flush l := match cur with
                 | [] => l
                 | _ => string_of_list_ascii (rev cur) :: l
                 end in
  match s with
  | EmptyString => flush []
  | String c s => if is_space c then flush (split_ws [] s) else split_ws (c :: cur) s
  end.

(** [pd.Series(words).value_counts()]: the distinct words with their counts,
    most frequent first. *)
Definition value_counts (words : list string) : list (string * nat) :=
  sort_by (λ a b, (b.2 <=? a.2)%nat)
    (map (λ w, (w, length (List.filter (String.eqb w) words)))
         (dedup_by String.eqb words)).

(** ** The heap of DataFrame objects *)

Abbreviation loc := nat (only parsing).
Abbreviation heap := (list DataFrame) (only parsing).

Definition M (A : Type) : Type := heap → result A * heap.

Global Instance M_ret : MRet M := λ A a h, (Ok a, h).
Global Instance M_bind : MBind M := λ A B f m h,
  match m h with
  | (Ok a, h') => f a h'
  | (Raise e, h') => (Raise e, h')
  end.

Definition lift {A} (r : result A) : M A := λ h, (r, h).
Definition raise {A} (e : error) : M A := λ h, (Raise e, h).

(** A new object. *)
Definition new (df : DataFrame) : M loc := λ h, (Ok (length h), h ++ [df]).
(** Reading through a reference. *)
Definition deref (l : loc) : M DataFrame := λ h,
  match h !! l with
  | Some df => (Ok df, h)
  | None => (Raise (ValueError "dangling reference"), h)
  end.
(** Writing in place. *)
Definition assign (l : loc) (df : DataFrame) : M unit := λ h, (Ok tt, <[l := df]> h).

(** [df.copy()] *)
Definition copy (l : loc) : M loc := df ← deref l; new df.

(** [left.merge(right, ...)] returns a new object. *)
Definition merge (left right : loc) (lk rk ls rs : string) : M loc :=
  a ← deref left; b ← deref right;
  df ← lift (df_merge a b lk rk ls rs);
  new df.

(** [df[c]] and [df[c] = s] through a reference. *)
Definition getitem (l : loc) (c : string) : M Series :=
  df ← deref l; lift (df_getitem c df).

Definition setitem (l : loc) (c : string) (s : Series) : M unit :=
  df ← deref l; df' ← lift (df_setitem c s df); assign l df'.

(** [c in df.columns] *)
Definition in_columns (c : string) (l : loc) : M bool :=
  df ← deref l; mret (has_column c df).

(** The result of a method that returns a DataFrame, as a value. *)
Definition returned (x : result loc * heap) : result DataFrame :=
  match x with
  | (Ok l, h) => match h !! l with
                 | Some df => Ok df
                 | None => Raise (ValueError "dangling reference")
                 end
  | (Raise e, _) => Raise e
  end.

(** * modeling.py *)

Record ChinookModel : Type := { tables : gmap string loc }.

(** [ChinookModel.__init__] *)
Definition ChinookModel_init (tables : gmap string loc) : result ChinookModel :=
  if bool_decide (tables = ∅) then
    Raise (ValueError "`tables` must be a dictionary of pandas DataFrames.")
  else Ok {| tables := tables |}.

(** [self.tables[name]] *)
Definition table (self : ChinookModel) (name : string) : M loc :=
  match tables self !! name with
  | Some l => mret l
  | None => raise (KeyError name)
  end.

Definition missing_tables (self : ChinookModel) (required : list string) : list string :=
  List.filter (λ t, bool_decide (tables self !! t = None)) required.

Definition _check_required_tables (self : ChinookModel) (required : list string) : M unit :=
  let missing := missing_tables self required in
  match missing with
  | [] => mret tt
  | _ => raise (KeyError ("Missing required tables: " +:+ String.concat ", " missing))
  end.

Definition customers_dim (self : ChinookModel) : M loc :=
  let required := ["customer"; "employee"] in
  _check_required_tables self required;;
  t ← table self "customer";
  customers ← copy t;
  has_rep ← in_columns "SupportRepId" customers;
  if bool_decide (is_Some (tables self !! "employee")) && has_rep then
    e ← table self "employee";
    merge customers e "SupportRepId" "EmployeeId" "" "_rep"
  else mret customers.

Section Program.

(** pandas' parser of a non-datetime cell ([pd.to_datetime]); [None] when the
    cell cannot be parsed. *)
Variable parse_datetime : value → option Z.

(** [*] on two numbers and on two other cells, as the dtype of the columns
    has it (see [value_mul]). *)
Variable num_mul : Q → Q → Q.
Variable obj_mul : value → value → option value.

(** [pd.to_datetime(s, errors="coerce")]: a cell that does not parse becomes
    NaT. *)
Definition to_datetime_value (v : value) : value :=
  match v with
  | VTime t => VTime t
  | VNull => VNull
  | _ => match parse_datetime v with Some t => VTime t | None => VNull end
  end.

Definition to_datetime (s : Series) : Series := map to_datetime_value s.

(** [df[cols]] returns a new object. *)
Definition getitems (l : loc) (cols : list string) : M loc :=
  df ← deref l; df' ← lift (df_project cols df); new df'.

Definition important_cols : list string :=
  [ "InvoiceLineId"; "InvoiceId"; "InvoiceDate"; "CustomerId"; "FirstName";
    "LastName"; "Country"; "City"; "TrackId"; "Name"; "Title"; "ArtistId";
    "Name_artist"; "GenreId"; "Name_genre"; "MediaTypeId"; "Name_media";
    "UnitPrice"; "Quantity"; "LineTotal"; "Year"; "Month"; "Quarter"; "Week";
    "DayOfWeek" ].

Definition sales_required : list string :=
  [ "invoiceline"; "invoice"; "customer"; "track"; "album"; "artist"; "genre";
    "mediatype" ].

Definition sales_line_items (self : ChinookModel) : M loc :=
  _check_required_tables self sales_required;;
  t ← table self "invoiceline";
  df ← copy t;
  t ← table self "invoice";
  df ← merge df t "InvoiceId" "InvoiceId" "" "_invoice";
  t ← table self "customer";
  df ← merge df t "CustomerId" "CustomerId" "" "_customer";
  t ← table self "track";
  df ← merge df t "TrackId" "TrackId" "" "_track";
  t ← table self "album";
  df ← merge df t "AlbumId" "AlbumId" "" "_album";
  t ← table self "artist";
  df ← merge df t "ArtistId" "ArtistId" "" "_artist";
  t ← table self "genre";
  df ← merge df t "GenreId" "GenreId" "" "_genre";
  t ← table self "mediatype";
  df ← merge df t "MediaTypeId" "MediaTypeId" "" "_media";
  (* df["LineTotal"] = df["UnitPrice"] * df["Quantity"] *)
  up ← getitem df "UnitPrice";
  qty ← getitem df "Quantity";
  total ← lift (series_zip (value_mul num_mul obj_mul) up qty);
  setitem df "LineTotal" total;;
  (* ensure InvoiceDate is datetime *)
  has ← in_columns "InvoiceDate" df;
  (if (has : bool) then
     d ← getitem df "InvoiceDate";
     if negb (is_datetime64_any_dtype d) then setitem df "InvoiceDate" (to_datetime d)
     else mret tt
   else mret tt);;
  (* datetime components *)
  has ← in_columns "InvoiceDate" df;
  (if (has : bool) then
     d ← getitem df "InvoiceDate";
     y ← lift (dt (λ t, num (year_of t)) d);
     setitem df "Year" y;;
     d ← getitem df "InvoiceDate";
     m ← lift (dt (λ t, num (month_of t)) d);
     setitem df "Month" m;;
     d ← getitem df "InvoiceDate";
     q ← lift (dt (λ t, num (quarter_of t)) d);
     setitem df "Quarter" q;;
     d ← getitem df "InvoiceDate";
     w ← lift (dt (λ t, num (isoweek_of t)) d);
     setitem df "Week" w;;
     d ← getitem df "InvoiceDate";
     n ← lift (dt (λ t, VStr (day_name_of t)) d);
     setitem df "DayOfWeek" n
   else mret tt);;
  (* keep only the columns that exist *)
  d ← deref df;
  getitems df (List.filter (λ c, has_column c d) important_cols).

Definition catalog_required : list string :=
  [ "track"; "album"; "artist"; "genre"; "mediatype" ].

Definition catalog (self : ChinookModel) : M loc :=
  _check_required_tables self catalog_required;;
  t ← table self "track";
  cat ← copy t;
  t ← table self "album";
  cat ← merge cat t "AlbumId" "AlbumId" "_x" "_y";
  t ← table self "artist";
  cat ← merge cat t "ArtistId" "ArtistId" "" "_artist";
  t ← table self "genre";
  cat ← merge cat t "GenreId" "GenreId" "" "_genre";
  t ← table self "mediatype";
  cat ← merge cat t "MediaTypeId" "MediaTypeId" "" "_media";
  has ← in_columns "Milliseconds" cat;
  (if (has : bool) then
     ms ← getitem cat "Milliseconds";
     mins ← lift (mapR (value_div 60000) ms);
     setitem cat "DurationMin" mins
   else mret tt);;
  mret cat.

(** * analytics.py *)

(** [str(v)] of a cell that is not a string ([astype(str)]). *)
Variable str_of_value : value → string.

(** [Series.describe()]: count, mean, std, min, quartiles, max. *)
Variable describe : Series → list (string * value).

Record ChinookAnalyzer : Type := {
  sales_df : loc;
  catalog_df : option loc;
}.

(** [ChinookAnalyzer.__init__]; the order of the names in the message of the
    [KeyError] is that of a Python set and is not fixed. *)
Definition ChinookAnalyzer_init (sales : loc) (cat : option loc) : M ChinookAnalyzer :=
  s ← copy sales;
  c ← match cat with
      | Some c => c' ← copy c; mret (Some c')
      | None => mret None
      end;
  d ← deref s;
  match List.filter (λ c, negb (has_column c d)) ["InvoiceDate"; "LineTotal"] with
  | [] =>
      dates ← getitem s "InvoiceDate";
      (if negb (is_datetime64_any_dtype dates)
       then setitem s "InvoiceDate" (to_datetime dates)
       else mret tt);;
      mret {| sales_df := s; catalog_df := c |}
  | missing =>
      raise (KeyError ("Missing required columns in sales_df: "
                       +:+ String.concat ", " missing))
  end.

Definition _check_column (col : string) (l : loc) : M unit :=
  df ← deref l;
  if has_column col df then mret tt
  else raise (KeyError ("Required column '" +:+ col +:+ "' is missing.")).

(** [df.rename(columns={old: new}, inplace=True)] *)
Definition rename_inplace (l : loc) (old new : string) : M unit :=
  df ← deref l; assign l (df_rename old new df).

(** [df.sort_values(c, ascending=...)] returns a new object. *)
Definition sort_values (l : loc) (c : string) (ascending : bool) : M loc :=
  df ← deref l; df' ← lift (df_sort_values c ascending df); new df'.

Definition revenue_by_month (self : ChinookAnalyzer) : M loc :=
  df ← copy (sales_df self);
  d ← getitem df "InvoiceDate";
  m ← lift (dt (λ t, VTime (month_start t)) d);
  setitem df "Month" m;;
  d ← deref df;
  g ← lift (groupby_sum ["Month"] "LineTotal" d);
  result ← new (reset_index ["Month"] "LineTotal" g);
  rename_inplace result "LineTotal" "Revenue";;
  sort_values result "Month" true.

(** The common body of the three [top_*_by_revenue] methods. *)
Definition top_by_revenue (self : ChinookAnalyzer) (col : string) (n : Z) : M loc :=
  _check_column col (sales_df self);;
  d ← deref (sales_df self);
  g ← lift (groupby_sum [col] "LineTotal" d);
  result ← new (reset_index [col] "LineTotal" (head n (keyed_sort_desc g)));
  rename_inplace result "LineTotal" "Revenue";;
  mret result.

Definition top_countries_by_revenue (self : ChinookAnalyzer) (n : Z) : M loc :=
  top_by_revenue self "Country" n.

Definition top_genres_by_revenue (self : ChinookAnalyzer) (n : Z) : M loc :=
  top_by_revenue self "Name_genre" n.

Definition top_artists_by_revenue (self : ChinookAnalyzer) (n : Z) : M loc :=
  top_by_revenue self "Name_artist" n.

Definition customer_lifetime_value (self : ChinookAnalyzer) (n : Z) : M loc :=
  _check_column "CustomerId" (sales_df self);;
  d ← deref (sales_df self);
  g ← lift (groupby_sum ["CustomerId"; "FirstName"; "LastName"] "LineTotal" d);
  result ← new (reset_index ["CustomerId"; "FirstName"; "LastName"] "LineTotal"
                  (head n (keyed_sort_desc g)));
  rename_inplace result "LineTotal" "TotalRevenue";;
  mret result.

(** The helper [safe_qcut] of [rfm_analysis]. *)
Definition safe_qcut (series : Series) (q : nat) (reverse : bool) : result Series :=
  bins ← try_except_ValueError
            (qcut series q DupDrop)
            (r ← rank_first series; qcut r q DupDrop);
  bins ← mapR (λ b, value_add b (num 1)) bins;
  bins ← (if reverse
          then m ← value_add (num_max bins) (num 1); mapR (value_sub m) bins
          else Ok bins);
  astype_int bins.

(** [s.max() + pd.Timedelta(days=1)] *)
Definition next_day (dates : Series) : result value :=
  if is_datetime64_any_dtype dates then
    Ok (match time_max dates with
        | VTime t => VTime (t + ns_per_day)
        | v => v
        end)
  else Raise (TypeError "unsupported operand type(s) for +").

(** [(today - x.max()).days] *)
Definition recency (today : value) (x : Series) : value :=
  match today, time_max x with
  | VTime t, VTime m => num ((t - m) / ns_per_day)
  | _, _ => VNull
  end.

(** The three named aggregations of [rfm_analysis] on one group. *)
Definition rfm_agg (today : value) (kr : list value * list (gmap string value))
    : result (gmap string value) :=
  let r := recency today (map (λ r, cell r "InvoiceDate") kr.2) in
  let f := num (Z.of_nat (nunique (map (λ r, cell r "InvoiceId") kr.2))) in
  m ← series_sum (map (λ r, cell r "LineTotal") kr.2);
  Ok (list_to_map (zip ["CustomerId"] kr.1
                   ++ [("Recency", r); ("Frequency", f); ("Monetary", VNum m)])).

(** [df.groupby("CustomerId").agg(Recency=..., Frequency=..., Monetary=...)
       .reset_index()] *)
Definition groupby_agg_rfm (today : value) (df : DataFrame) : result DataFrame :=
  g ← groupby ["CustomerId"] df;
  match List.filter (λ c, negb (has_column c df))
                    ["InvoiceDate"; "InvoiceId"; "LineTotal"] with
  | c :: _ => Raise (KeyError ("Column(s) ['" +:+ c +:+ "'] do not exist"))
  | [] =>
      rs ← mapR (rfm_agg today) g;
      Ok {| columns := ["CustomerId"; "Recency"; "Frequency"; "Monetary"];
            rows := rs |}
  end.

Definition rfm_analysis (self : ChinookAnalyzer) : M loc :=
  _check_column "CustomerId" (sales_df self);;
  dates ← getitem (sales_df self) "InvoiceDate";
  today ← lift (next_day dates);
  d ← deref (sales_df self);
  t ← lift (groupby_agg_rfm today d);
  rfm ← new t;
  r ← getitem rfm "Recency";
  rs ← lift (safe_qcut r 5 true);
  setitem rfm "R_Score" rs;;
  f ← getitem rfm "Frequency";
  fs ← lift (safe_qcut f 5 false);
  setitem rfm "F_Score" fs;;
  m ← getitem rfm "Monetary";
  ms ← lift (safe_qcut m 5 false);
  setitem rfm "M_Score" ms;;
  rs ← getitem rfm "R_Score";
  fs ← getitem rfm "F_Score";
  ms ← getitem rfm "M_Score";
  rf ← lift (series_zip value_add rs fs);
  total ← lift (series_zip value_add rf ms);
  setitem rfm "RFM_Score" total;;
  sort_values rfm "RFM_Score" false.

Definition default_stopwords : gset string :=
  {[ "the"; "a"; "and"; "of"; "to"; "in"; "on"; "for"; "with" ]}.

(** [astype(str)] *)
Definition astype_str (v : value) : string :=
  match v with VStr s => s | _ => str_of_value v end.

(** One title, lower-cased, stripped of the characters outside [a-z\s] and
    split on white space. *)
Definition title_words (v : value) : list string :=
  split_ws []
    (str_filter (λ c, is_lower_letter c || is_space c)
       (str_map lower_ascii (astype_str v))).

Definition top_words_in_track_titles (self : ChinookAnalyzer) (n : Z)
    (stopwords : option (gset string)) : M loc :=
  match catalog_df self with
  | None => raise (ValueError "catalog_df is required for text analysis.")
  | Some cat =>
      _check_column "Name" cat;;
      let stopwords := default default_stopwords stopwords in
      names ← getitem cat "Name";
      let words := map title_words (List.filter (λ v, negb (isna v)) names) in
      let flat_words :=
        List.filter (λ w, bool_decide (w ∉ stopwords)) (concat words) in
      word_counts ← new (reset_index ["index"] "count"
                           (map (λ wc, ([VStr wc.1], num (Z.of_nat wc.2)))
                                (head n (value_counts flat_words))));
      d ← deref word_counts;
      d' ← lift (df_set_columns ["Word"; "Frequency"] d);
      assign word_counts d';;
      mret word_counts
  end.

Definition duration_stats (self : ChinookAnalyzer) : M (list (string * value)) :=
  match catalog_df self with
  | None => raise (ValueError "catalog_df is required for duration analysis.")
  | Some cat =>
      _check_column "DurationMin" cat;;
      s ← getitem cat "DurationMin";
      mret (describe s)
  end.

End Program.

(** * Properties stated of the program, and example data *)

Definition frame {A} (h0 : heap) (m : M A) (Q : A → Prop) : Prop :=
  ∀ h, h0 `prefix_of` h →
    h0 `prefix_of` (m h).2 ∧ ∀ a, (m h).1 = Ok a → Q a.

(** Every object of [h] is still in [h'], with the same contents. *)
Definition unchanged (h h' : heap) : Prop :=
  ∀ l df, h !! l = Some df → h' !! l = Some df.

(** A call of [m] changes no object that exists when it starts, whether it
    returns or raises. *)
Definition mutates_nothing {A} (m : M A) : Prop :=
  ∀ h, unchanged h (m h).2.

(** The DataFrame that [m] returns is an object that did not exist before. *)
Definition returns_new (m : M loc) : Prop :=
  ∀ h l, (m h).1 = Ok l → h !! l = None.

Definition owns (h0 h : heap) (l : loc) (V : DataFrame) : Prop :=
  h0 `prefix_of` h ∧ (length h0 ≤ l)%nat ∧ h !! l = Some V.

(** The cells of a key column are pairwise different. *)
Fixpoint distinct (l : list value) : bool :=
  match l with
  | [] => true
  | x :: l => forallb (λ y, negb (value_eqb x y)) l && distinct l
  end.

(** The column [key] of [df] holds no value twice. *)
Definition unique_key (key : string) (df : DataFrame) : bool :=
  distinct (map (λ r, cell r key) (rows df)).

(** The DataFrame held under a table name. *)
Definition table_value (self : ChinookModel) (h : heap) (name : string)
    : option DataFrame :=
  l ← tables self !! name; h !! l.

(** The joined tables of [sales_line_items], each with its join key. *)
Definition sales_joins : list (string * string) :=
  [ ("invoice", "InvoiceId"); ("customer", "CustomerId"); ("track", "TrackId");
    ("album", "AlbumId"); ("artist", "ArtistId"); ("genre", "GenreId");
    ("mediatype", "MediaTypeId") ].



(** The [KeyError] of [_check_required_tables]. *)
Definition is_missing_tables_error (e : error) : bool :=
  match e with
  | KeyError msg => String.prefix "Missing required tables: " msg
  | _ => false
  end.

(** [t] occurs in the message [msg]. *)
Definition mentions (msg t : string) : Prop :=
  ∃ pre post, msg = pre +:+ t +:+ post.

Definition raises_only {A} (m : M A) (P : error → Prop) : Prop :=
  ∀ h e, (m h).1 = Raise e → P e.

Definition day (y m d : Z) : value := VTime (days_from_civil y m d * ns_per_day).

Definition ex_invoiceline : DataFrame :=
  {| columns := ["InvoiceLineId"; "InvoiceId"; "TrackId"; "UnitPrice"; "Quantity"];
     rows := [ {[ "InvoiceLineId" := num 1; "InvoiceId" := num 1; "TrackId" := num 1;
                  "UnitPrice" := VNum (99 # 100); "Quantity" := num 2 ]};
               {[ "InvoiceLineId" := num 2; "InvoiceId" := num 1; "TrackId" := num 2;
                  "UnitPrice" := VNum (99 # 100); "Quantity" := num 1 ]};
               {[ "InvoiceLineId" := num 3; "InvoiceId" := num 2; "TrackId" := num 7;
                  "UnitPrice" := VNum (199 # 100); "Quantity" := num 1 ]} ] |}.

Definition ex_invoice : DataFrame :=
  {| columns := ["InvoiceId"; "CustomerId"; "InvoiceDate"];
     rows := [ {[ "InvoiceId" := num 1; "CustomerId" := num 1;
                  "InvoiceDate" := day 2009 1 1 ]};
               {[ "InvoiceId" := num 2; "CustomerId" := num 2;
                  "InvoiceDate" := day 2010 1 3 ]} ] |}.

Definition ex_customer : DataFrame :=
  {| columns := ["CustomerId"; "FirstName"; "LastName"; "Country"; "City";
                 "SupportRepId"];
     rows := [ {[ "CustomerId" := num 1; "FirstName" := VStr "Ana";
                  "LastName" := VStr "Lima"; "Country" := VStr "Brazil";
                  "City" := VStr "Recife"; "SupportRepId" := num 3 ]};
               {[ "CustomerId" := num 2; "FirstName" := VStr "Bo";
                  "LastName" := VStr "Berg"; "Country" := VStr "Norway";
                  "City" := VStr "Oslo"; "SupportRepId" := VNull ]} ] |}.

Definition ex_track : DataFrame :=
  {| columns := ["TrackId"; "Name"; "AlbumId"; "MediaTypeId"; "GenreId";
                 "Milliseconds"; "UnitPrice"];
     rows := [ {[ "TrackId" := num 1; "Name" := VStr "The Sun Rises";
                  "AlbumId" := num 1; "MediaTypeId" := num 1; "GenreId" := num 1;
                  "Milliseconds" := num 180000; "UnitPrice" := VNum (99 # 100) ]};
               {[ "TrackId" := num 2; "Name" := VStr "Sun and Moon";
                  "AlbumId" := num 1; "MediaTypeId" := num 1; "GenreId" := num 2;
                  "Milliseconds" := num 240000; "UnitPrice" := VNum (99 # 100) ]} ] |}.

Definition ex_album : DataFrame :=
  {| columns := ["AlbumId"; "Title"; "ArtistId"];
     rows := [ {[ "AlbumId" := num 1; "Title" := VStr "Daylight";
                  "ArtistId" := num 1 ]} ] |}.

Definition ex_artist : DataFrame :=
  {| columns := ["ArtistId"; "Name"];
     rows := [ {[ "ArtistId" := num 1; "Name" := VStr "Helios" ]} ] |}.

Definition ex_genre : DataFrame :=
  {| columns := ["GenreId"; "Name"];
     rows := [ {[ "GenreId" := num 1; "Name" := VStr "Rock" ]};
               {[ "GenreId" := num 2; "Name" := VStr "Jazz" ]} ] |}.

Definition ex_mediatype : DataFrame :=
  {| columns := ["MediaTypeId"; "Name"];
     rows := [ {[ "MediaTypeId" := num 1; "Name" := VStr "MPEG" ]} ] |}.

Definition ex_heap : heap :=
  [ ex_invoiceline; ex_invoice; ex_customer; ex_track; ex_album; ex_artist;
    ex_genre; ex_mediatype ].

Definition ex_model : ChinookModel :=
  {| tables := {[ "invoiceline" := 0%nat; "invoice" := 1%nat; "customer" := 2%nat;
                  "track" := 3%nat; "album" := 4%nat; "artist" := 5%nat;
                  "genre" := 6%nat; "mediatype" := 7%nat ]} |}.

(** The same store without its [genre] and [mediatype] tables. *)
Definition ex_model_incomplete : ChinookModel :=
  {| tables := {[ "invoiceline" := 0%nat; "invoice" := 1%nat; "customer" := 2%nat;
                  "track" := 3%nat; "album" := 4%nat; "artist" := 5%nat ]} |}.

(** pandas' parser, for the examples: nothing parses. *)
Definition ex_parse (v : value) : option Z := None.

(** The float64 nearest to an integer, and to a quotient of two integers
    that are floats themselves. *)
Definition float64_of_Z (z : Z) : spec_float := binary_normalize 53 1024 z 0 false.

Definition float64_of_Q (q : Q) : spec_float :=
  SFdiv 53 1024 (float64_of_Z (Qnum q)) (float64_of_Z (Zpos (Qden q))).

(** The number a finite float64 stands for. *)
Definition float64_value (f : spec_float) : Q :=
  match f with
  | S754_finite s m e =>
      Qred ((if s then -1 else 1) * inject_Z (Zpos m) * Qpower 2 e)%Q
  | _ => 0%Q
  end.

(** The product of two float64 columns: the exact product rounded to the
    nearest float (IEEE 754 binary64, as numpy multiplies).  A factor that is
    no float is rounded to one first, as it is when pandas reads it. *)
Definition float64_mul (x y : Q) : Q :=
  float64_value (SFmul 53 1024 (float64_of_Q x) (float64_of_Q y)).

(** Python's [*] on cells that are not numbers, for the examples: they have
    none. *)
Definition ex_obj_mul (a b : value) : option value := None.

(** The float64 that the literal [0.1] is. *)
Definition ex_tenth : Q := 3602879701896397 # 36028797018963968.




(** The store with a [customer] table only. *)
Definition ex_model_customers : ChinookModel :=
  {| tables := {[ "customer" := 2%nat ]} |}.

(** Every joined table of [sales_line_items] is loaded and has a unique key. *)
Definition joined_keys_unique (self : ChinookModel) (h : heap) : bool :=
  forallb (λ nk, match table_value self h nk.1 with
                 | Some T => unique_key nk.2 T
                 | None => false
                 end) sales_joins.

(** [s.sum()] as a number: missing values are skipped. *)
Definition qtotal (s : list value) : Q :=
  foldr (λ v acc, match v with VNum x => (x + acc)%Q | _ => acc end) 0%Q s.

(** The sum of column [c] over the rows [rs]. *)
Definition column_total (c : string) (rs : list (gmap string value)) : Q :=
  qtotal (map (λ r, cell r c) rs).

(** How many of the keys [ks] equal [q]. *)
Definition key_count (ks : list (list value)) (q : list value) : nat :=
  length (List.filter (keys_eqb q) ks).

Definition numv (v : value) : Q := match v with VNum x => x | _ => 0%Q end.

(** The month of a timestamp cell: NaT has none. *)
Definition month_cell (v : value) : value :=
  match v with VTime t => VTime (month_start t) | _ => VNull end.

(** A row of the sales table falls in the month that starts at [m]. *)
Definition in_month (m : Z) (r : gmap string value) : bool :=
  match cell r "InvoiceDate" with
  | VTime t => month_start t =? m
  | _ => false
  end.

(** The row of the result for a key and its total, before sorting. *)
Definition revenue_row (kv : list value * value) : gmap string value :=
  list_to_map (map (λ c, (if String.eqb c "LineTotal" then "Revenue" else c,
                          cell (list_to_map (zip ["Month"] kv.1 ++ [("LineTotal", kv.2)])) c))
                   ["Month"; "LineTotal"]).

(** The rows of [S] are those of [S0] with [InvoiceDate] coerced to a
    timestamp. *)
Definition coerced (parse_datetime : value → option Z) (S0 S : DataFrame) : Prop :=
  Forall2 (λ r0 r,
             cell r "InvoiceDate"
             = to_datetime_value parse_datetime (cell r0 "InvoiceDate")
             ∧ cell r "LineTotal" = cell r0 "LineTotal")
          (rows S0) (rows S).

(** A sales table of two lines in January 2009 and two whose invoice date is
    missing or does not parse. *)
Definition ex_sales_gap : DataFrame :=
  {| columns := ["InvoiceId"; "InvoiceDate"; "CustomerId"; "LineTotal"];
     rows := [ {[ "InvoiceId" := num 1; "InvoiceDate" := day 2009 1 15;
                  "CustomerId" := num 1; "LineTotal" := VNum 2 ]};
               {[ "InvoiceId" := num 1; "InvoiceDate" := day 2009 1 15;
                  "CustomerId" := num 1; "LineTotal" := VNum 1 ]};
               {[ "InvoiceId" := num 2; "InvoiceDate" := VNull;
                  "CustomerId" := num 2; "LineTotal" := VNum 3 ]};
               {[ "InvoiceId" := num 3; "InvoiceDate" := VStr "n/a";
                  "CustomerId" := num 2; "LineTotal" := VNum 4 ]} ] |}.

(** A row of the table given to the Analyzer falls in the month that starts
    at [m], once its invoice date is coerced. *)
Definition parsed_in_month (parse_datetime : value → option Z) (m : Z)
    (r : gmap string value) : bool :=
  match to_datetime_value parse_datetime (cell r "InvoiceDate") with
  | VTime t => month_start t =? m
  | _ => false
  end.

(** The row has a timestamp once its invoice date is coerced. *)
Definition has_timestamp (parse_datetime : value → option Z)
    (r : gmap string value) : bool :=
  negb (isna (to_datetime_value parse_datetime (cell r "InvoiceDate"))).



(** The catalog without the rows whose title is missing. *)
Definition drop_null_titles (C : DataFrame) : DataFrame :=
  {| columns := columns C;
     rows := List.filter (λ r, negb (isna (cell r "Name"))) (rows C) |}.

(** The table of word counts that [top_words_in_track_titles] builds from
    the column of titles. *)
Definition word_counts (str_of_value : value → string) (n : Z)
    (stopwords : option (gset string)) (names : list value) : DataFrame :=
  let words :=
    map (title_words str_of_value) (List.filter (λ v, negb (isna v)) names) in
  let flat_words :=
    List.filter (λ w, bool_decide (w ∉ default default_stopwords stopwords))
                (concat words) in
  reset_index ["index"] "count"
    (map (λ wc, ([VStr wc.1], num (Z.of_nat wc.2)))
         (head n (value_counts flat_words))).

(** A catalog of two titles and a missing one. *)
Definition ex_titles : DataFrame :=
  {| columns := ["TrackId"; "Name"];
     rows := [ {[ "TrackId" := num 1; "Name" := VStr "The Sun Rises" ]};
               {[ "TrackId" := num 2; "Name" := VStr "Sun and Moon" ]};
               {[ "TrackId" := num 3; "Name" := VNull ]} ] |}.

Definition ex_titles_analyzer : ChinookAnalyzer :=
  {| sales_df := 0%nat; catalog_df := Some 1%nat |}.

(** [str] of a cell that is not a string, for the examples. *)
Definition ex_str (v : value) : string :=
  match v with VNull => "nan" | _ => "" end.

(** The number in a cell, if any. *)
Definition num_opt (v : value) : option Q :=
  match v with VNum x => Some x | _ => None end.

(** The rows of a customer in the sales table. *)
Definition customer_rows (S : DataFrame) (c : value) : list (gmap string value) :=
  List.filter (λ s, value_eqb (cell s "CustomerId") c) (rows S).

(** The row [groupby(...).agg(...)] makes for a customer key. *)
Definition rfm_row (today : value) (S : DataFrame) (k : list value)
    : gmap string value :=
  let rs := group_rows ["CustomerId"] S k in
  list_to_map
    (zip ["CustomerId"] k
     ++ [("Recency", recency today (map (λ r, cell r "InvoiceDate") rs));
         ("Frequency", num (Z.of_nat (nunique (map (λ r, cell r "InvoiceId") rs))));
         ("Monetary", VNum (column_total "LineTotal" rs))]).

(** A row of the grouped table with its four scores. *)
Definition scored_row (fR fF fM : value → Z) (r : gmap string value)
    : gmap string value :=
  let r1 := <["R_Score" := num (fR (cell r "Recency"))]> r in
  let r2 := <["F_Score" := num (fF (cell r1 "Frequency"))]> r1 in
  let r3 := <["M_Score" := num (fM (cell r2 "Monetary"))]> r2 in
  <["RFM_Score" := VNum (numv (cell r3 "R_Score") + numv (cell r3 "F_Score")
                         + numv (cell r3 "M_Score"))]> r3.

(** The rows [l] come in non-increasing order of column [c]. *)
Definition sorted_descending (c : string) (l : list (gmap string value)) : Prop :=
  ∀ i j a b, (i ≤ j)%nat → l !! i = Some a → l !! j = Some b →
             value_leb (cell b c) (cell a c) = true.

(** The latest invoice date among the rows [rs]. *)
Definition latest_invoice_date (rs : list (gmap string value)) : value :=
  time_max (map (λ r, cell r "InvoiceDate") rs).

Definition one_day_after (v : value) : value :=
  match v with VTime t => VTime (t + ns_per_day) | v => v end.

(** The whole days from timestamp [a] to timestamp [b]. *)
Definition days_from_to (a b : value) : value :=
  match a, b with
  | VTime a, VTime b => num ((b - a) / ns_per_day)
  | _, _ => VNull
  end.

(** The number of distinct invoice ids among the rows [rs]. *)
Definition distinct_invoices (rs : list (gmap string value)) : Z :=
  Z.of_nat (nunique (map (λ r, cell r "InvoiceId") rs)).

(** Three customers: C bought once on 2009-01-01 for 50, A once on 2009-04-01
    for 100, B five times from 2009-04-03 to 2009-04-10 for 500. *)
Definition ex_sales_rfm : DataFrame :=
  {| columns := ["InvoiceId"; "InvoiceDate"; "CustomerId"; "LineTotal"];
     rows := [ {[ "InvoiceId" := num 1; "InvoiceDate" := day 2009 1 1;
                  "CustomerId" := VStr "C"; "LineTotal" := VNum 50 ]};
               {[ "InvoiceId" := num 2; "InvoiceDate" := day 2009 4 1;
                  "CustomerId" := VStr "A"; "LineTotal" := VNum 100 ]};
               {[ "InvoiceId" := num 3; "InvoiceDate" := day 2009 4 3;
                  "CustomerId" := VStr "B"; "LineTotal" := VNum 100 ]};
               {[ "InvoiceId" := num 4; "InvoiceDate" := day 2009 4 5;
                  "CustomerId" := VStr "B"; "LineTotal" := VNum 100 ]};
               {[ "InvoiceId" := num 5; "InvoiceDate" := day 2009 4 7;
                  "CustomerId" := VStr "B"; "LineTotal" := VNum 100 ]};
               {[ "InvoiceId" := num 6; "InvoiceDate" := day 2009 4 9;
                  "CustomerId" := VStr "B"; "LineTotal" := VNum 100 ]};
               {[ "InvoiceId" := num 7; "InvoiceDate" := day 2009 4 10;
                  "CustomerId" := VStr "B"; "LineTotal" := VNum 60 ]};
               {[ "InvoiceId" := num 7; "InvoiceDate" := day 2009 4 10;
                  "CustomerId" := VStr "B"; "LineTotal" := VNum 40 ]} ] |}.

Definition ex_rfm_analyzer : ChinookAnalyzer :=
  {| sales_df := 0%nat; catalog_df := None |}.

Definition ex_rfm_table : DataFrame := Eval vm_compute in
    match returned (rfm_analysis ex_rfm_analyzer [ex_sales_rfm]) with
    | Ok R => R
    | Raise _ => {| columns := []; rows := [] |}
    end.

(** The joined tables of [catalog], each with its join key. *)
Definition catalog_joins : list (string * string) :=
  [ ("album", "AlbumId"); ("artist", "ArtistId"); ("genre", "GenreId");
    ("mediatype", "MediaTypeId") ].

(** Every joined table of [catalog] is loaded and has a unique key. *)
Definition catalog_keys_unique (self : ChinookModel) (h : heap) : bool :=
  forallb (λ nk, match table_value self h nk.1 with
                 | Some T => unique_key nk.2 T
                 | None => false
                 end) catalog_joins.

(** In every row, [DurationMin] is [Milliseconds] divided by 60000. *)
Definition duration_spec (df : DataFrame) : Prop :=
  has_column "DurationMin" df = true
  ∧ Forall (λ r, value_div 60000 (cell r "Milliseconds") = Ok (cell r "DurationMin"))
           (rows df).

(** Row [r] has the cells of row [lr] in the columns [cols]. *)
Definition agrees_on (cols : list string) (lr r : gmap string value) : Prop :=
  ∀ c, c ∈ cols → cell r c = cell lr c.

(** The columns that [sales_line_items] computes itself. *)
Definition computed_columns : list string :=
  [ "LineTotal"; "InvoiceDate"; "Year"; "Month"; "Quarter"; "Week"; "DayOfWeek" ].

(** The table [V] has the columns [K], and its rows are those of [lines], one
    for one, with the same cells in [K]. *)
Definition keeps (K : list string) (lines V : DataFrame) : Prop :=
  K ⊆ columns V ∧ Forall2 (agrees_on K) (rows lines) (rows V).

(** The [.dt] field [f] of a cell: missing when the cell is. *)
Definition date_part (f : Z → value) (v : value) : value :=
  match v with VTime t => f t | _ => VNull end.

(** The cell is a timestamp or is missing. *)
Definition is_time_or_null (v : value) : Prop :=
  match v with VTime _ | VNull => True | _ => False end.

(** Column [c] of [df] is the field [f] of its [InvoiceDate], which holds
    timestamps and missing values only. *)
Definition derived (c : string) (f : Z → value) (df : DataFrame) : Prop :=
  (has_column c df = true ∧ has_column "InvoiceDate" df = true)
  ∧ Forall (λ r, is_time_or_null (cell r "InvoiceDate")
                 ∧ cell r c = date_part f (cell r "InvoiceDate")) (rows df).

(** The five date parts of a table of sales lines. *)
Definition date_parts_spec (df : DataFrame) : Prop :=
  derived "Year" (λ t, num (year_of t)) df
  ∧ derived "Month" (λ t, num (month_of t)) df
  ∧ derived "Quarter" (λ t, num (quarter_of t)) df
  ∧ derived "Week" (λ t, num (isoweek_of t)) df
  ∧ derived "DayOfWeek" (λ t, VStr (day_name_of t)) df.

(** The sales table [S] the Analyzer keeps for the table [S0] it is given:
    the same columns and rows, with [InvoiceDate] a column of timestamps. *)
Definition analyzer_copy (parse_datetime : value → option Z) (S0 S : DataFrame)
    : Prop :=
  columns S = columns S0
  ∧ is_datetime64_any_dtype (map (λ r, cell r "InvoiceDate") (rows S)) = true
  ∧ Forall2 (λ r0 r,
               cell r "InvoiceDate"
               = to_datetime_value parse_datetime (cell r0 "InvoiceDate")
               ∧ ∀ c, c ≠ "InvoiceDate" → cell r c = cell r0 c)
            (rows S0) (rows S).

(** A missing-columns [KeyError] of the constructor. *)
Definition is_missing_columns_error (e : error) : bool :=
  match e with
  | KeyError msg => String.prefix "Missing required columns in sales_df: " msg
  | _ => false
  end.

(** The total of the group of a key. *)
Definition group_total (keys : list string) (col : string) (S : DataFrame)
    (k : list value) : value :=
  VNum (column_total col (group_rows keys S k)).

(** The rows of [S] whose column [col] is [v]. *)
Definition rows_with (col : string) (v : value) (S : DataFrame)
    : list (gmap string value) :=
  List.filter (λ s, value_eqb (cell s col) v) (rows S).

(** The row of the result for a key and its total. *)
Definition top_row (col name : string) (kv : list value * value)
    : gmap string value :=
  list_to_map
    (map (λ c, (if String.eqb c "LineTotal" then name else c,
                cell (list_to_map (zip [col] kv.1 ++ [("LineTotal", kv.2)])) c))
         [col; "LineTotal"]).

(** The three top-N methods of the Analyzer, each with the column it groups
    by. *)
Definition top_methods (self : ChinookAnalyzer) (n : Z) : list (string * M loc) :=
  [ ("Country", top_countries_by_revenue self n);
    ("Name_genre", top_genres_by_revenue self n);
    ("Name_artist", top_artists_by_revenue self n) ].

Definition clv_keys : list string := ["CustomerId"; "FirstName"; "LastName"].

(** The sales row has a customer id, a first name and a last name. *)
Definition named_customer (s : gmap string value) : bool :=
  negb (isna (cell s "CustomerId")) && negb (isna (cell s "FirstName"))
  && negb (isna (cell s "LastName")).

(** Two rows have the same customer id, first name and last name. *)
Definition same_customer (a b : gmap string value) : bool :=
  value_eqb (cell a "CustomerId") (cell b "CustomerId")
  && value_eqb (cell a "FirstName") (cell b "FirstName")
  && value_eqb (cell a "LastName") (cell b "LastName").

(** The sales rows of the customer of row [s]. *)
Definition customer_lines (S : DataFrame) (s : gmap string value)
    : list (gmap string value) :=
  List.filter (λ s', named_customer s' && same_customer s' s) (rows S).

(** The row of the result for a customer and the total. *)
Definition clv_row (kv : list value * value) : gmap string value :=
  list_to_map
    (map (λ c, (if String.eqb c "LineTotal" then "TotalRevenue" else c,
                cell (list_to_map (zip clv_keys kv.1 ++ [("LineTotal", kv.2)])) c))
         (clv_keys ++ ["LineTotal"])).

(** Every character of the string satisfies [p]. *)
Fixpoint str_forall (p : ascii → bool) (s : string) : bool :=
  match s with
  | EmptyString => true
  | String c s => p c && str_forall p s
  end.

(** The words of all the titles of the catalog [C] that are not missing. *)
Definition title_tokens (str_of_value : value → string) (C : DataFrame)
    : list string :=
  concat (map (title_words str_of_value)
              (List.filter (λ v, negb (isna v)) (map (λ r, cell r "Name") (rows C)))).

(** How many times [w] occurs in [ws]. *)
Definition occurrences (w : string) (ws : list string) : nat :=
  length (List.filter (String.eqb w) ws).

(** The row of the result for a word and its count. *)
Definition word_row (wc : string * nat) : gmap string value :=
  list_to_map
    (zip ["Word"; "Frequency"]
         (map (cell (list_to_map (zip ["index"] [VStr wc.1]
                                  ++ [("count", num (Z.of_nat wc.2))])))
              ["index"; "count"])).

(** The words counted: those of the titles that are no stop words. *)
Definition counted_words (str_of_value : value → string)
    (stopwords : option (gset string)) (C : DataFrame) : list string :=
  List.filter (λ w, bool_decide (w ∉ default default_stopwords stopwords))
              (title_tokens str_of_value C).

(** The score [safe_qcut] gives to a value whose bin among the edges [bins]
    has a number: one more than the number of the bin, or, reversed, the
    score of the bin counted down from [top]. *)
Definition qcut_score (bins : list Q) (top : Z) (reverse : bool) (v : value) : Z :=
  match bin_label bins (num_opt v) with
  | VNum q => if reverse then top - (Qnum q + 1) else Qnum q + 1
  | _ => 0
  end.

(** The column [c] of the rows [rs] was cut at the edges [bins]: every value
    has a bin. *)
Definition binned (bins : list Q) (c : string) (rs : list (gmap string value))
    : Prop :=
  qcut (map (λ r, cell r c) rs) 5 DupDrop
  = Ok (map (λ r, bin_label bins (num_opt (cell r c))) rs)
  ∧ ∀ r, In r rs → ∃ l, bin_label bins (num_opt (cell r c)) = num l ∧ 0 ≤ l ≤ 4.

(** The three metrics of [rfm_analysis], each with its score and whether the
    score is reversed. *)
Definition rfm_metrics : list (string * string * bool) :=
  [ ("Recency", "R_Score", true); ("Frequency", "F_Score", false);
    ("Monetary", "M_Score", false) ].

(** The [KeyError] of [_check_column]. *)
Definition missing_column (col : string) : error :=
  KeyError ("Required column '" +:+ col +:+ "' is missing.").

(** The table of sales lines of the example store. *)
Definition ex_sales : DataFrame := Eval vm_compute in
    match returned (sales_line_items ex_parse float64_mul ex_obj_mul ex_model
                      ex_heap) with
    | Ok df => df
    | Raise _ => {| columns := []; rows := [] |}
    end.

(** An Analyzer on the sales table alone, at the first place of the heap. *)
Definition ex_sales_analyzer : ChinookAnalyzer :=
  {| sales_df := 0%nat; catalog_df := None |}.

(** The catalog of the example store. *)
Definition ex_catalog : DataFrame := Eval vm_compute in
    match returned (catalog ex_model ex_heap) with
    | Ok df => df
    | Raise _ => {| columns := []; rows := [] |}
    end.

Definition ex_employee : DataFrame :=
  {| columns := ["EmployeeId"; "LastName"; "Title"];
     rows := [ {[ "EmployeeId" := num 3; "LastName" := VStr "Peacock";
                  "Title" := VStr "Sales Support Agent" ]};
               {[ "EmployeeId" := num 4; "LastName" := VStr "Park";
                  "Title" := VStr "Sales Support Agent" ]} ] |}.

(** A store with the [customer] and [employee] tables. *)
Definition ex_staff_heap : heap := [ex_customer; ex_employee].

Definition ex_model_staff : ChinookModel :=
  {| tables := {[ "customer" := 0%nat; "employee" := 1%nat ]} |}.

(** [describe()], for the examples: the count only. *)
Definition ex_describe (s : Series) : list (string * value) :=
  [("count", num (Z.of_nat (length (List.filter (λ v, negb (isna v)) s))))].

(** * Reasoning about heap programs *)

Lemma bind_run {A B} (m : M A) (k : A → M B) (h : heap) :
  (m ≫= k) h = match m h with
               | (Ok a, h') => k a h'
               | (Raise e, h') => (Raise e, h')
               end.
Proof. reflexivity. Qed.

(** ** Frames: a computation that leaves the objects of [h0] alone

    [frame h0 m Q]: started in any heap that still holds the objects of [h0]
    unchanged, [m] ends in such a heap, whether it returns or raises, and a
    returned value satisfies [Q].  A reference is [fresh] when it is not one
    of [h0]. *)
Definition fresh (h0 : heap) (l : loc) : Prop := (length h0 ≤ l)%nat.

Section frame_rules.
Context (h0 : heap).

Lemma frame_ret {A} (a : A) (Q : A → Prop) : Q a → frame h0 (mret a) Q.
Proof. intros HQ h Hh. split; [done|]. by intros ? [= <-]. Qed.

Lemma frame_bind {A B} (m : M A) (k : A → M B) Q R :
  frame h0 m Q → (∀ a, Q a → frame h0 (k a) R) → frame h0 (m ≫= k) R.
Proof.
  intros Hm Hk h Hh. rewrite bind_run.
  destruct (Hm h Hh) as [Hpre HQ]. destruct (m h) as [[a|e] h']; simpl in *.
  - by apply Hk; [apply HQ|].
  - by split.
Qed.

Lemma frame_weaken {A} (m : M A) (Q Q' : A → Prop) :
  frame h0 m Q → (∀ a, Q a → Q' a) → frame h0 m Q'.
Proof. intros Hm HQ h Hh. destruct (Hm h Hh). split; auto. Qed.

Lemma frame_lift {A} (r : result A) : frame h0 (lift r) (λ _, True).
Proof. by intros h Hh. Qed.

Lemma frame_raise {A} (e : error) (Q : A → Prop) : frame h0 (raise e) Q.
Proof. by intros h Hh. Qed.

Lemma frame_new df : frame h0 (new df) (fresh h0).
Proof.
  intros h Hh. split; simpl.
  - etrans; [done|]. by apply prefix_app_r.
  - intros ? [= <-]. by apply prefix_length.
Qed.

Lemma frame_deref l : frame h0 (deref l) (λ _, True).
Proof. intros h Hh. unfold deref. by destruct (h !! l). Qed.

Lemma frame_assign l df : fresh h0 l → frame h0 (assign l df) (λ _, True).
Proof.
  intros Hl h [ext ->]. split; [|done]. simpl.
  rewrite insert_app_r_alt by done. by apply prefix_app_r.
Qed.
End frame_rules.

Create HintDb frame discriminated.

Ltac frame_step :=
  lazymatch goal with
  | |- frame _ (_ ≫= _) _ => eapply frame_bind; [|intros ? ?]
  | |- frame _ (mret _) _ => apply frame_ret
  | |- frame _ (raise _) _ => apply frame_raise
  | |- frame _ (match ?x with _ => _ end) _ => destruct x
  | |- frame _ (if ?b then _ else _) _ => destruct b
  | |- frame _ _ _ =>
      first [ solve [eauto with frame]
            | eapply frame_weaken; [solve [eauto with frame] | solve [auto]] ]
  | |- _ => solve [eauto]
  end.

Ltac frame_auto := repeat frame_step.

Section frame_ops.
Context (h0 : heap).

Lemma frame_copy l : frame h0 (copy l) (fresh h0).
Proof. eapply frame_bind; [apply frame_deref|]. intros. apply frame_new. Qed.

Lemma frame_merge a b lk rk ls rs : frame h0 (merge a b lk rk ls rs) (fresh h0).
Proof.
  unfold merge. eapply frame_bind; [apply frame_deref|]; intros df1 _.
  eapply frame_bind; [apply frame_deref|]; intros df2 _.
  eapply frame_bind; [apply frame_lift|]; intros df _. apply frame_new.
Qed.

Lemma frame_getitem l c : frame h0 (getitem l c) (λ _, True).
Proof.
  unfold getitem. eapply frame_bind; [apply frame_deref|]; intros df _.
  apply frame_lift.
Qed.

Lemma frame_setitem l c s : fresh h0 l → frame h0 (setitem l c s) (λ _, True).
Proof.
  intros Hl. unfold setitem. eapply frame_bind; [apply frame_deref|]; intros df _.
  eapply frame_bind; [apply frame_lift|]; intros df' _. by apply frame_assign.
Qed.

Lemma frame_in_columns c l : frame h0 (in_columns c l) (λ _, True).
Proof.
  unfold in_columns. eapply frame_bind; [apply frame_deref|]; intros df _.
  by apply frame_ret.
Qed.

Lemma frame_getitems l cols : frame h0 (getitems l cols) (fresh h0).
Proof.
  unfold getitems. eapply frame_bind; [apply frame_deref|]; intros df _.
  eapply frame_bind; [apply frame_lift|]; intros df' _. apply frame_new.
Qed.

Lemma frame_rename_inplace l old new :
  fresh h0 l → frame h0 (rename_inplace l old new) (λ _, True).
Proof.
  intros Hl. unfold rename_inplace.
  eapply frame_bind; [apply frame_deref|]; intros df _. by apply frame_assign.
Qed.

Lemma frame_sort_values l c asc : frame h0 (sort_values l c asc) (fresh h0).
Proof.
  unfold sort_values. eapply frame_bind; [apply frame_deref|]; intros df _.
  eapply frame_bind; [apply frame_lift|]; intros df' _. apply frame_new.
Qed.

Lemma frame_check_column c l : frame h0 (_check_column c l) (λ _, True).
Proof.
  unfold _check_column. eapply frame_bind; [apply frame_deref|]; intros df _.
  destruct (has_column c df); [by apply frame_ret|apply frame_raise].
Qed.

Lemma frame_table self name : frame h0 (table self name) (λ _, True).
Proof.
  unfold table. destruct (tables self !! name); [by apply frame_ret|apply frame_raise].
Qed.

Lemma frame_check_required_tables self required :
  frame h0 (_check_required_tables self required) (λ _, True).
Proof.
  unfold _check_required_tables.
  destruct (missing_tables self required); [by apply frame_ret|apply frame_raise].
Qed.
End frame_ops.

Global Hint Resolve frame_lift frame_new frame_deref frame_assign frame_copy
  frame_merge frame_getitem frame_setitem frame_in_columns frame_getitems
  frame_rename_inplace frame_sort_values frame_check_column frame_table
  frame_check_required_tables : frame.

Section frame_methods.
Context (parse_datetime : value → option Z).
Context (num_mul : Q → Q → Q) (obj_mul : value → value → option value).
Context (str_of_value : value → string).
Context (describe : Series → list (string * value)).
Context (h0 : heap).

Lemma frame_sales_line_items self :
  frame h0 (sales_line_items parse_datetime num_mul obj_mul self) (fresh h0).
Proof. unfold sales_line_items. frame_auto. Qed.

Lemma frame_catalog self : frame h0 (catalog self) (fresh h0).
Proof. unfold catalog. frame_auto. Qed.

Lemma frame_customers_dim self : frame h0 (customers_dim self) (fresh h0).
Proof. unfold customers_dim. frame_auto. Qed.

Lemma frame_ChinookAnalyzer_init sales cat :
  frame h0 (ChinookAnalyzer_init parse_datetime sales cat)
    (λ self, fresh h0 (sales_df self)
             ∧ ∀ c, catalog_df self = Some c → fresh h0 c).
Proof.
  unfold ChinookAnalyzer_init.
  eapply frame_bind; [apply frame_copy|]; intros s Hs.
  eapply (frame_bind _ _ _ (λ c, ∀ c', c = Some c' → fresh h0 c')).
  { destruct cat; frame_auto; naive_solver. }
  intros c Hc. frame_auto.
Qed.

Lemma frame_revenue_by_month self : frame h0 (revenue_by_month self) (fresh h0).
Proof. unfold revenue_by_month. frame_auto. Qed.

Lemma frame_top_by_revenue self col n :
  frame h0 (top_by_revenue self col n) (fresh h0).
Proof. unfold top_by_revenue. frame_auto. Qed.

Lemma frame_customer_lifetime_value self n :
  frame h0 (customer_lifetime_value self n) (fresh h0).
Proof. unfold customer_lifetime_value. frame_auto. Qed.

Lemma frame_rfm_analysis self : frame h0 (rfm_analysis self) (fresh h0).
Proof. unfold rfm_analysis. frame_auto. Qed.

Lemma frame_top_words_in_track_titles self n stopwords :
  frame h0 (top_words_in_track_titles str_of_value self n stopwords) (fresh h0).
Proof. unfold top_words_in_track_titles. frame_auto. Qed.

Lemma frame_duration_stats self :
  frame h0 (duration_stats describe self) (λ _, True).
Proof. unfold duration_stats. frame_auto. Qed.
End frame_methods.

(** ** What a call leaves behind *)

Lemma frame_mutates_nothing {A} (m : M A) :
  (∀ h0, frame h0 m (λ _, True)) → mutates_nothing m.
Proof.
  intros Hm h l df Hl. destruct (Hm h h) as [Hpre _]; [done|].
  by eapply prefix_lookup_Some.
Qed.

Lemma frame_returns_new (m : M loc) :
  (∀ h0, frame h0 m (fresh h0)) → mutates_nothing m ∧ returns_new m.
Proof.
  intros Hm. split.
  - apply frame_mutates_nothing. intros h0.
    eapply frame_weaken; [apply Hm|done].
  - intros h l Hl. destruct (Hm h h) as [_ Hfresh]; [done|].
    apply lookup_ge_None_2, Hfresh, Hl.
Qed.

(** C8: no Modeler or Analyzer operation mutates the tables supplied to it.
    Whatever the heap and the receiver, [sales_line_items], [catalog],
    [customers_dim] and every Analyzer method leave each existing DataFrame
    (the raw tables, the caller's sales and catalog frames, the Analyzer's own
    copies) as it was, also when they raise; a returned DataFrame is a new
    object, and the Analyzer built by [__init__] holds new copies. *)
Theorem operations_mutate_no_table
    (parse_datetime : value → option Z)
    (num_mul : Q → Q → Q) (obj_mul : value → value → option value)
    (str_of_value : value → string) (describe : Series → list (string * value)) :
  (∀ self,
     (mutates_nothing (sales_line_items parse_datetime num_mul obj_mul self)
      ∧ returns_new (sales_line_items parse_datetime num_mul obj_mul self))
     ∧ (mutates_nothing (catalog self) ∧ returns_new (catalog self))
     ∧ (mutates_nothing (customers_dim self) ∧ returns_new (customers_dim self)))
  ∧ (∀ sales cat,
       mutates_nothing (ChinookAnalyzer_init parse_datetime sales cat)
       ∧ ∀ h self, (ChinookAnalyzer_init parse_datetime sales cat h).1 = Ok self →
           h !! sales_df self = None
           ∧ ∀ c, catalog_df self = Some c → h !! c = None)
  ∧ (∀ self n stopwords,
       (mutates_nothing (revenue_by_month self) ∧ returns_new (revenue_by_month self))
       ∧ (mutates_nothing (top_countries_by_revenue self n)
          ∧ returns_new (top_countries_by_revenue self n))
       ∧ (mutates_nothing (top_genres_by_revenue self n)
          ∧ returns_new (top_genres_by_revenue self n))
       ∧ (mutates_nothing (top_artists_by_revenue self n)
          ∧ returns_new (top_artists_by_revenue self n))
       ∧ (mutates_nothing (customer_lifetime_value self n)
          ∧ returns_new (customer_lifetime_value self n))
       ∧ (mutates_nothing (rfm_analysis self) ∧ returns_new (rfm_analysis self))
       ∧ (mutates_nothing (top_words_in_track_titles str_of_value self n stopwords)
          ∧ returns_new (top_words_in_track_titles str_of_value self n stopwords))
       ∧ mutates_nothing (duration_stats describe self)).
Proof.
  split; [|split].
  - intros self. repeat split;
      first [ apply frame_returns_new; intros h0 |
              apply frame_returns_new; intros h0 ];
      auto using frame_sales_line_items, frame_catalog, frame_customers_dim.
  - intros sales cat. split.
    + apply frame_mutates_nothing. intros h0.
      eapply frame_weaken; [apply frame_ChinookAnalyzer_init|done].
    + intros h self Hself.
      destruct (frame_ChinookAnalyzer_init parse_datetime h sales cat h)
        as [_ Hfresh]; [done|].
      destruct (Hfresh _ Hself) as [Hs Hc]. split.
      * by apply lookup_ge_None_2.
      * intros c Hcat. by apply lookup_ge_None_2, Hc.
  - intros self n stopwords.
    unfold top_countries_by_revenue, top_genres_by_revenue, top_artists_by_revenue.
    repeat split;
      try (apply frame_returns_new; intros h0);
      try (apply frame_mutates_nothing; intros h0);
      auto using frame_revenue_by_month, frame_top_by_revenue,
        frame_customer_lifetime_value, frame_rfm_analysis,
        frame_top_words_in_track_titles, frame_duration_stats.
Qed.

(** ** Weakest preconditions for the returning runs

    [wp m h Φ]: if [m], started in [h], returns [a] in heap [h'], then
    [Φ a h'].  [owns h0 h l V]: the heap [h] still holds the objects of [h0],
    and [l] is an object made since, with contents [V]. *)
Definition wp {A} (m : M A) (h : heap) (Φ : A → heap → Prop) : Prop :=
  ∀ a h', m h = (Ok a, h') → Φ a h'.

Lemma owns_prefix h0 h l V : owns h0 h l V → h0 `prefix_of` h.
Proof. by intros (?&?&?). Qed.

Lemma owns_lookup h0 h l V : owns h0 h l V → h !! l = Some V.
Proof. by intros (?&?&?). Qed.

Lemma old_lookup (h0 h : heap) l V :
  h0 `prefix_of` h → h0 !! l = Some V → h !! l = Some V.
Proof. intros. by eapply prefix_lookup_Some. Qed.

Lemma owns_old_lookup h0 h l V t T :
  owns h0 h l V → h0 !! t = Some T → h !! t = Some T.
Proof. intros (?&?&?) ?. by eapply prefix_lookup_Some. Qed.

Create HintDb heap discriminated.
Global Hint Resolve owns_prefix owns_lookup old_lookup owns_old_lookup : heap.
Global Hint Extern 0 (?h `prefix_of` ?h) => reflexivity : heap.

Section wp_rules.
Context {A : Type} (h0 h : heap) (Φ : A → heap → Prop).

Lemma wp_ret a : Φ a h → wp (mret a) h Φ.
Proof. by intros ? ? ? [= <- <-]. Qed.

Lemma wp_bind {B} (m : M B) (k : B → M A) :
  wp m h (λ b h', wp (k b) h' Φ) → wp (m ≫= k) h Φ.
Proof.
  intros Hm a h'. rewrite bind_run.
  destruct (m h) as [[b|e] h1] eqn:E; [|done]. by apply Hm.
Qed.

Lemma wp_lift (r : result A) : (∀ a, r = Ok a → Φ a h) → wp (lift r) h Φ.
Proof. intros H a h' [= -> <-]. by apply H. Qed.

Lemma wp_raise e : wp (raise e) h Φ.
Proof. by intros a h'. Qed.
End wp_rules.

Section wp_ops.
Context (h0 h : heap).

Lemma wp_new V (Φ : loc → heap → Prop) :
  h0 `prefix_of` h →
  (∀ l h', h `prefix_of` h' → owns h0 h' l V → Φ l h') →
  wp (new V) h Φ.
Proof.
  intros Hh HΦ l h' [= <- <-]. apply HΦ; [by apply prefix_app_r|].
  split; [by etrans; [|apply prefix_app_r]|]. split.
  - by apply prefix_length.
  - by rewrite list_lookup_middle.
Qed.

Lemma wp_deref l V (Φ : DataFrame → heap → Prop) :
  h !! l = Some V → Φ V h → wp (deref l) h Φ.
Proof. intros Hl HΦ a h'. unfold deref. rewrite Hl. by intros [= <- <-]. Qed.

Lemma wp_assign l V W (Φ : unit → heap → Prop) :
  owns h0 h l V →
  (∀ h', owns h0 h' l W →
         (∀ x X, x ≠ l → h !! x = Some X → h' !! x = Some X) → Φ tt h') →
  wp (assign l W) h Φ.
Proof.
  intros (Hpre & Hl & HV) HΦ [] h' [= <-]. apply HΦ.
  - destruct Hpre as [ext ->]. split; [|split; [done|]].
    + rewrite insert_app_r_alt by done. by apply prefix_app_r.
    + apply list_lookup_insert_eq. by eapply lookup_lt_Some.
  - intros x X Hx HX. by rewrite list_lookup_insert_ne.
Qed.

Lemma wp_copy l V (Φ : loc → heap → Prop) :
  h0 `prefix_of` h → h !! l = Some V →
  (∀ l' h', h `prefix_of` h' → owns h0 h' l' V → Φ l' h') →
  wp (copy l) h Φ.
Proof.
  intros Hh Hl HΦ. apply wp_bind. eapply wp_deref; [done|]. by eapply wp_new.
Qed.

Lemma wp_merge a b VA VB lk rk ls rs (Φ : loc → heap → Prop) :
  h0 `prefix_of` h → h !! a = Some VA → h !! b = Some VB →
  (∀ V l h', df_merge VA VB lk rk ls rs = Ok V →
             h `prefix_of` h' → owns h0 h' l V → Φ l h') →
  wp (merge a b lk rk ls rs) h Φ.
Proof.
  intros Hh Ha Hb HΦ. apply wp_bind. eapply wp_deref; [done|].
  apply wp_bind. eapply wp_deref; [done|].
  apply wp_bind, wp_lift. intros V HV. eapply wp_new; [done|]. eauto.
Qed.

Lemma wp_getitem l V c (Φ : Series → heap → Prop) :
  h !! l = Some V →
  (∀ s, df_getitem c V = Ok s → Φ s h) →
  wp (getitem l c) h Φ.
Proof.
  intros Hl HΦ. apply wp_bind. eapply wp_deref; [done|]. by apply wp_lift.
Qed.

Lemma wp_setitem l V c s (Φ : unit → heap → Prop) :
  owns h0 h l V →
  (∀ W h', df_setitem c s V = Ok W → owns h0 h' l W →
           (∀ x X, x ≠ l → h !! x = Some X → h' !! x = Some X) → Φ tt h') →
  wp (setitem l c s) h Φ.
Proof.
  intros Hl HΦ. apply wp_bind. eapply wp_deref; [by eapply owns_lookup|].
  apply wp_bind, wp_lift. intros W HW. eapply wp_assign; [done|]. eauto.
Qed.

Lemma wp_in_columns l V c (Φ : bool → heap → Prop) :
  h !! l = Some V → Φ (has_column c V) h → wp (in_columns c l) h Φ.
Proof.
  intros Hl HΦ. apply wp_bind. eapply wp_deref; [done|]. by apply wp_ret.
Qed.

Lemma wp_getitems l V cols (Φ : loc → heap → Prop) :
  h0 `prefix_of` h → h !! l = Some V →
  (∀ W l' h', df_project cols V = Ok W →
              h `prefix_of` h' → owns h0 h' l' W → Φ l' h') →
  wp (getitems l cols) h Φ.
Proof.
  intros Hh Hl HΦ. apply wp_bind. eapply wp_deref; [done|].
  apply wp_bind, wp_lift. intros W HW. eapply wp_new; [done|]. eauto.
Qed.

Lemma wp_rename_inplace l V old new (Φ : unit → heap → Prop) :
  owns h0 h l V →
  (∀ h', owns h0 h' l (df_rename old new V) → Φ tt h') →
  wp (rename_inplace l old new) h Φ.
Proof.
  intros Hl HΦ. apply wp_bind. eapply wp_deref; [by eapply owns_lookup|].
  eapply wp_assign; [done|]. eauto.
Qed.

Lemma wp_sort_values l V c asc (Φ : loc → heap → Prop) :
  h0 `prefix_of` h → h !! l = Some V →
  (∀ W l' h', df_sort_values c asc V = Ok W →
              h `prefix_of` h' → owns h0 h' l' W → Φ l' h') →
  wp (sort_values l c asc) h Φ.
Proof.
  intros Hh Hl HΦ. apply wp_bind. eapply wp_deref; [done|].
  apply wp_bind, wp_lift. intros W HW. eapply wp_new; [done|]. eauto.
Qed.

Lemma wp_check_column l V c (Φ : unit → heap → Prop) :
  h !! l = Some V → (has_column c V = true → Φ tt h) →
  wp (_check_column c l) h Φ.
Proof.
  intros Hl HΦ. apply wp_bind. eapply wp_deref; [done|].
  destruct (has_column c V); [by apply wp_ret; auto|apply wp_raise].
Qed.

Lemma wp_table self name (Φ : loc → heap → Prop) :
  (∀ l, tables self !! name = Some l → Φ l h) → wp (table self name) h Φ.
Proof.
  intros HΦ. unfold table.
  destruct (tables self !! name); [by apply wp_ret; auto|apply wp_raise].
Qed.

Lemma wp_check_required_tables self required (Φ : unit → heap → Prop) :
  (missing_tables self required = [] → Φ tt h) →
  wp (_check_required_tables self required) h Φ.
Proof.
  intros HΦ. unfold _check_required_tables.
  destruct (missing_tables self required); [by apply wp_ret; auto|apply wp_raise].
Qed.
End wp_ops.

(** The DataFrame a run returns. *)
Lemma returned_wp (m : M loc) (h : heap) (df : DataFrame) (P : DataFrame → Prop) :
  returned (m h) = Ok df →
  wp m h (λ l h', ∀ V, h' !! l = Some V → P V) →
  P df.
Proof.
  unfold returned, wp. destruct (m h) as [[l|e] h'] eqn:E; [|done].
  destruct (h' !! l) as [V|] eqn:EV; [|done]. intros [= <-] H. by eapply H.
Qed.

(** ** Values and keys *)

Lemma value_eqb_refl a : value_eqb a a = true.
Proof.
  destruct a; simpl; [done| |by apply String.eqb_refl|by apply Z.eqb_refl].
  by apply Qeq_bool_iff.
Qed.

Lemma value_eqb_sym a b : value_eqb a b = value_eqb b a.
Proof.
  destruct a, b; simpl; try done.
  - apply eq_true_iff_eq. rewrite !Qeq_bool_iff. split; intros; by symmetry.
  - apply String.eqb_sym.
  - apply Z.eqb_sym.
Qed.

Lemma value_eqb_trans a b c :
  value_eqb a b = true → value_eqb b c = true → value_eqb a c = true.
Proof.
  destruct a, b, c; simpl; try done.
  - rewrite !Qeq_bool_iff. intros ? ?. by etrans.
  - rewrite !String.eqb_eq. congruence.
  - rewrite !Z.eqb_eq. congruence.
Qed.

Lemma distinct_matches k (rs : list (gmap string value)) key :
  distinct (map (λ r, cell r key) rs) = true →
  (length (List.filter (λ rr, value_eqb k (cell rr key)) rs) ≤ 1)%nat.
Proof.
  induction rs as [|r rs IH]; simpl; [lia|].
  intros [Hr Hrs]%andb_prop. destruct (value_eqb k (cell r key)) eqn:E; [|auto].
  simpl. assert (List.filter (λ rr, value_eqb k (cell rr key)) rs = []) as ->; [|simpl; lia].
  clear IH Hrs. induction rs as [|r' rs IH]; simpl in *; [done|].
  apply andb_prop in Hr as [Hr' Hr].
  destruct (value_eqb k (cell r' key)) eqn:E'; [|auto].
  rewrite value_eqb_sym in E. rewrite (value_eqb_trans _ _ _ E E') in Hr'. done.
Qed.

(** ** Row counts *)

Lemma df_merge_nrows left right lk rk ls rs V :
  unique_key rk right = true →
  df_merge left right lk rk ls rs = Ok V →
  nrows V = nrows left.
Proof.
  intros Huniq. unfold df_merge.
  repeat case_match; try done. intros [= <-]. unfold nrows. simpl.
  induction (rows left) as [|lr lrs IH]; simpl; [done|].
  rewrite length_app, IH. f_equal.
  pose proof (distinct_matches (cell lr lk) (rows right) rk Huniq) as Hle.
  unfold merge_matches. destruct (List.filter _ (rows right)) as [|m [|m' ms]]; simpl in *; [done..|lia].
Qed.

Lemma df_setitem_nrows c s df V : df_setitem c s df = Ok V → nrows V = nrows df.
Proof.
  unfold df_setitem. case_bool_decide as Hlen; [|done]. intros [= <-].
  unfold nrows in *. simpl. rewrite length_zip_with. lia.
Qed.

Lemma df_project_nrows cols df V : df_project cols df = Ok V → nrows V = nrows df.
Proof.
  unfold df_project. case_match; [|done]. intros [= <-].
  unfold nrows. simpl. by rewrite length_map.
Qed.

(** ** sales_line_items keeps the invoice lines *)

(** The side conditions of a step: the heap still extends the first one, and
    what a reference holds. *)
Ltac wp_side :=
  lazymatch goal with
  | |- ?h0 `prefix_of` ?h =>
      first [ reflexivity
            | match goal with H : owns h0 h _ _ |- _ => exact (owns_prefix _ _ _ _ H) end ]
  | |- owns _ _ _ _ => eassumption
  | |- ?h !! ?l = Some _ =>
      first [ match goal with H : owns _ h l _ |- _ => exact (owns_lookup _ _ _ _ H) end
            | eassumption
            | match goal with
              | H : owns ?h0 h _ _, Ht : ?h0 !! l = Some _ |- _ =>
                  exact (owns_old_lookup _ _ _ _ _ _ H Ht)
              end ]
  end.

(** One step of a run that started in heap [h0]. *)
Ltac wp_step h0 :=
  lazymatch goal with
  | |- wp (_ ≫= _) _ _ => apply wp_bind
  | |- wp (mret _) _ _ => apply wp_ret
  | |- wp (raise _) _ _ => apply wp_raise
  | |- wp (lift _) _ _ => apply wp_lift; intros ? ?
  | |- wp (table _ _) _ _ => apply wp_table; intros ? ?
  | |- wp (_check_required_tables _ _) _ _ =>
      apply wp_check_required_tables; intros ?
  | |- wp (copy _) _ _ => eapply (wp_copy h0); [wp_side..|intros ? ? ? ?]
  | |- wp (merge _ _ _ _ _ _) _ _ =>
      eapply (wp_merge h0); [wp_side..|intros ? ? ? ? ? ?]
  | |- wp (getitem _ _) _ _ => eapply wp_getitem; [wp_side|intros ? ?]
  | |- wp (setitem _ _ _) _ _ => eapply (wp_setitem h0); [wp_side|intros ? ? ? ? ?]
  | |- wp (in_columns _ _) _ _ => eapply wp_in_columns; [wp_side|]
  | |- wp (getitems _ _) _ _ =>
      eapply (wp_getitems h0); [wp_side..|intros ? ? ? ? ? ?]
  | |- wp (rename_inplace _ _ _) _ _ =>
      eapply (wp_rename_inplace h0); [wp_side|intros ? ?]
  | |- wp (sort_values _ _ _) _ _ =>
      eapply (wp_sort_values h0); [wp_side..|intros ? ? ? ? ? ?]
  | |- wp (_check_column _ _) _ _ => eapply wp_check_column; [wp_side|intros ?]
  | |- wp (new _) _ _ => eapply (wp_new h0); [wp_side|intros ? ? ? ?]
  | |- wp (deref _) _ _ => eapply wp_deref; [wp_side|]
  | |- wp (if ?b then _ else _) _ _ => destruct b eqn:?
  end.

(** The row counts that the steps of a run relate. *)
Ltac nrows_facts :=
  repeat match goal with
         | H : df_merge _ _ _ _ _ _ = Ok _ |- _ =>
             apply df_merge_nrows in H; [|assumption]
         | H : df_setitem _ _ _ = Ok _ |- _ => apply df_setitem_nrows in H
         | H : df_project _ _ = Ok _ |- _ => apply df_project_nrows in H
         end.

Section sales.
Context (parse_datetime : value → option Z).
Context (num_mul : Q → Q → Q) (obj_mul : value → value → option value).

Lemma table_value_lookup self h name T l :
  table_value self h name = Some T → tables self !! name = Some l → h !! l = Some T.
Proof. unfold table_value. intros H Hl. by rewrite Hl in H. Qed.

Ltac sales_table h0 Hlines Htab :=
  wp_step h0; wp_step h0;
  lazymatch goal with
  | H : tables _ !! "invoiceline" = Some _ |- _ =>
      pose proof (table_value_lookup _ _ _ _ _ Hlines H); clear H
  | H : tables _ !! ?n = Some ?l |- _ =>
      let T := fresh "T" in let HT := fresh "HT" in let Hu := fresh "Hu" in
      edestruct (Htab n _ l
        ltac:(repeat first [apply list_elem_of_here|apply list_elem_of_further]) H)
        as (T & HT & Hu); clear H
  end.

Lemma sales_line_items_nrows self h lines df :
  table_value self h "invoiceline" = Some lines →
  (∀ name key, (name, key) ∈ sales_joins →
     ∃ T, table_value self h name = Some T ∧ unique_key key T = true) →
  returned (sales_line_items parse_datetime num_mul obj_mul self h) = Ok df →
  nrows df = nrows lines.
Proof.
  intros Hlines Hjoins Hret.
  assert (∀ name key l, (name, key) ∈ sales_joins → tables self !! name = Some l →
            ∃ T, h !! l = Some T ∧ unique_key key T = true) as Htab.
  { intros name key l Hin Hl. destruct (Hjoins _ _ Hin) as (T & HT & Hu).
    exists T. split; [by eapply table_value_lookup|done]. }
  clear Hjoins.
  eapply (returned_wp _ _ _ (λ V, nrows V = nrows lines)); [exact Hret|].
  clear Hret. unfold sales_line_items.
  wp_step h. wp_step h. sales_table h Hlines Htab. wp_step h. wp_step h.
  do 7 (sales_table h Hlines Htab; wp_step h; wp_step h).
  nrows_facts.
  repeat (wp_step h; nrows_facts).
  all: intros V' HV'; erewrite owns_lookup in HV' by eauto; simplify_eq; congruence.
Qed.
End sales.

(** ** LineTotal *)

Lemma cell_insert (r : gmap string value) c v : cell (<[c := v]> r) c = v.
Proof. unfold cell. by rewrite lookup_insert_eq. Qed.

Lemma cell_insert_ne (r : gmap string value) c c' v : c ≠ c' → cell (<[c := v]> r) c' = cell r c'.
Proof. intros. unfold cell. by rewrite lookup_insert_ne. Qed.

Lemma cell_project (f : string → value) cols c :
  c ∈ cols →
  cell (list_to_map (map (λ c, (c, f c)) cols)) c = f c.
Proof.
  unfold cell. induction cols as [|c' cols IH]; [by intros ?%elem_of_nil|].
  intros Hc. simpl. destruct (decide (c' = c)) as [->|Hne].
  - by rewrite lookup_insert_eq.
  - rewrite lookup_insert_ne by done. apply IH.
    apply elem_of_cons in Hc as [?|?]; [congruence|done].
Qed.

Lemma has_column_setitem c s df W c' :
  df_setitem c s df = Ok W → has_column c' df = true → has_column c' W = true.
Proof.
  unfold df_setitem. case_bool_decide; [|done]. intros [= <-].
  unfold has_column. simpl. rewrite !bool_decide_eq_true.
  case_bool_decide; set_solver.
Qed.

Lemma has_column_setitem_same c s df W :
  df_setitem c s df = Ok W → has_column c W = true.
Proof.
  unfold df_setitem. case_bool_decide; [|done]. intros [= <-].
  unfold has_column. simpl. rewrite !bool_decide_eq_true.
  case_bool_decide; set_solver.
Qed.

Lemma df_getitem_Ok c df s :
  df_getitem c df = Ok s →
  has_column c df = true ∧ s = map (λ r, cell r c) (rows df).
Proof. unfold df_getitem. destruct (has_column c df); [|done]. by intros [= <-]. Qed.




Lemma df_project_Ok cols df W :
  df_project cols df = Ok W →
  W = {| columns := cols;
         rows := map (λ r, list_to_map (map (λ c, (c, cell r c)) cols)) (rows df) |}.
Proof. unfold df_project. case_match; [|done]. by intros [= <-]. Qed.


Ltac elem_of_list :=
  repeat first [apply list_elem_of_here | apply list_elem_of_further].


Section wp_any.
Context (h0 h : heap).

Lemma wp_deref_any l (Φ : DataFrame → heap → Prop) :
  (∀ V, h !! l = Some V → Φ V h) → wp (deref l) h Φ.
Proof.
  intros HΦ a h'. unfold deref. destruct (h !! l) eqn:E; [|done].
  intros [= <- <-]. by apply HΦ.
Qed.

Lemma wp_copy_any l (Φ : loc → heap → Prop) :
  h0 `prefix_of` h →
  (∀ V l' h', h `prefix_of` h' → owns h0 h' l' V → Φ l' h') →
  wp (copy l) h Φ.
Proof.
  intros Hh HΦ. apply wp_bind, wp_deref_any. intros V _.
  eapply wp_new; [done|]. eauto.
Qed.

Lemma wp_merge_any a b VA lk rk ls rs (Φ : loc → heap → Prop) :
  h0 `prefix_of` h → h !! a = Some VA →
  (∀ VB V l h', df_merge VA VB lk rk ls rs = Ok V →
                h `prefix_of` h' → owns h0 h' l V → Φ l h') →
  wp (merge a b lk rk ls rs) h Φ.
Proof.
  intros Hh Ha HΦ. apply wp_bind. eapply wp_deref; [done|].
  apply wp_bind, wp_deref_any. intros VB _.
  apply wp_bind, wp_lift. intros V HV. eapply wp_new; [done|]. eauto.
Qed.
End wp_any.

(** One step of a run that started in heap [h0], when nothing is known of the
    tables it reads. *)
Ltac wp_step_any h0 :=
  lazymatch goal with
  | |- wp (copy _) _ _ => eapply (wp_copy_any h0); [wp_side|intros ? ? ? ? ?]
  | |- wp (merge _ _ _ _ _ _) _ _ =>
      eapply (wp_merge_any h0); [wp_side..|intros ? ? ? ? ? ? ?]
  | |- _ => wp_step h0
  end.

Ltac not_in_list :=
  rewrite !not_elem_of_cons; repeat split; [discriminate..|apply not_elem_of_nil].


(** The object a run returns is the one it owns. *)
Ltac returned_owned :=
  let V := fresh "V" in let HV := fresh "HV" in
  intros V HV;
  match goal with
  | Ho : owns _ ?hh ?ll _ |- _ =>
      match type of HV with
      | hh !! ll = _ => rewrite (owns_lookup _ _ _ _ Ho) in HV
      end
  end;
  injection HV as <-.

Section line_total.
Context (parse_datetime : value → option Z).
Context (num_mul : Q → Q → Q) (obj_mul : value → value → option value).

End line_total.

(** ** Which exceptions a run can raise *)

Section raises_rules.
Context (P : error → Prop).
Context (Pother : ∀ e, (∀ msg, e ≠ KeyError msg) → P e).

Lemma raises_ret {A} (a : A) : raises_only (mret a) P.
Proof. by intros h e. Qed.

Lemma raises_raise {A} e : P e → raises_only (@raise A e) P.
Proof. by intros He h e' [= <-]. Qed.

Lemma raises_bind {A B} (m : M A) (k : A → M B) :
  raises_only m P → (∀ a, raises_only (k a) P) → raises_only (m ≫= k) P.
Proof.
  intros Hm Hk h e. rewrite bind_run. specialize (Hm h).
  destruct (m h) as [[a|e'] h']; simpl in *; [apply Hk|]. intros [= <-]. by apply Hm.
Qed.

Lemma raises_lift {A} (r : result A) :
  (∀ e, r = Raise e → P e) → raises_only (lift r) P.
Proof. intros Hr h e. simpl. apply Hr. Qed.

Lemma raises_new df : raises_only (new df) P.
Proof. by intros h e. Qed.

Lemma raises_deref l : raises_only (deref l) P.
Proof.
  intros h e. unfold deref. destruct (h !! l); simpl; [done|].
  intros [= <-]. by apply Pother.
Qed.

Lemma raises_assign l df : raises_only (assign l df) P.
Proof. by intros h e. Qed.

Lemma raises_copy l : raises_only (copy l) P.
Proof. apply raises_bind; [apply raises_deref|]. intros. apply raises_new. Qed.

Lemma raises_merge a b lk rk ls rs :
  P (KeyError lk) → P (KeyError rk) → raises_only (merge a b lk rk ls rs) P.
Proof.
  intros Hl Hr. unfold merge.
  apply raises_bind; [apply raises_deref|]; intros A.
  apply raises_bind; [apply raises_deref|]; intros B.
  apply raises_bind; [|intros; apply raises_new].
  apply raises_lift. intros e. unfold df_merge.
  repeat case_match; try done; intros [= <-]; auto.
Qed.

Lemma raises_getitem l c : P (KeyError c) → raises_only (getitem l c) P.
Proof.
  intros Hc. unfold getitem. apply raises_bind; [apply raises_deref|]; intros A.
  apply raises_lift. intros e. unfold df_getitem. case_match; [done|]. by intros [= <-].
Qed.

Lemma raises_setitem l c s : raises_only (setitem l c s) P.
Proof.
  unfold setitem. apply raises_bind; [apply raises_deref|]; intros A.
  apply raises_bind; [|intros; apply raises_assign].
  apply raises_lift. intros e. unfold df_setitem. case_match; [done|].
  intros [= <-]. by apply Pother.
Qed.

Lemma raises_in_columns c l : raises_only (in_columns c l) P.
Proof.
  unfold in_columns. apply raises_bind; [apply raises_deref|]; intros A.
  apply raises_ret.
Qed.

Lemma raises_getitems l cols :
  Forall (λ c, P (KeyError c)) cols → raises_only (getitems l cols) P.
Proof.
  intros Hcols. unfold getitems. apply raises_bind; [apply raises_deref|]; intros A.
  apply raises_bind; [|intros; apply raises_new].
  apply raises_lift. intros e. unfold df_project.
  destruct (List.filter _ cols) as [|c cs] eqn:E; [done|]. intros [= <-].
  assert (c ∈ List.filter (λ c, negb (has_column c A)) cols) as Hc
    by (rewrite E; apply list_elem_of_here).
  apply list_elem_of_In, filter_In in Hc as [Hc _].
  rewrite Forall_forall in Hcols. by apply Hcols, list_elem_of_In.
Qed.

Lemma raises_table self name :
  P (KeyError name) → raises_only (table self name) P.
Proof.
  intros Hn. unfold table. destruct (tables self !! name);
    [apply raises_ret|by apply raises_raise].
Qed.

Lemma raises_series_zip_mul
    (num_mul : Q → Q → Q) (obj_mul : value → value → option value)
    a b e :
  series_zip (value_mul num_mul obj_mul) a b = Raise e → ∀ msg, e ≠ KeyError msg.
Proof.
  revert b. induction a as [|x a IH]; intros [|y b]; simpl; try done.
  destruct (value_mul num_mul obj_mul x y) eqn:Exy; simpl.
  - destruct (series_zip (value_mul num_mul obj_mul) a b) eqn:Eab; simpl; [done|].
    intros [= <-]. by eapply IH.
  - intros [= <-]. unfold value_mul in Exy.
    destruct x, y; try destruct (obj_mul _ _); by simplify_eq.
Qed.

Lemma raises_dt f s e : dt f s = Raise e → ∀ msg, e ≠ KeyError msg.
Proof. unfold dt. case_match; [done|]. by intros [= <-]. Qed.
End raises_rules.

(** ** Missing tables *)

Lemma string_app_nil_l (a : string) : "" +:+ a = a.
Proof. reflexivity. Qed.

Lemma string_app_cons x (a b : string) : String x a +:+ b = String x (a +:+ b).
Proof. reflexivity. Qed.

Lemma string_app_nil_r (a : string) : a +:+ "" = a.
Proof. induction a as [|x a IH]; [done|]. by rewrite string_app_cons, IH. Qed.

Lemma string_app_assoc (a b c : string) : (a +:+ b) +:+ c = a +:+ b +:+ c.
Proof. induction a as [|x a IH]; [done|]. by rewrite !string_app_cons, IH. Qed.

Lemma mentions_app_r pre msg t : mentions msg t → mentions (pre +:+ msg) t.
Proof.
  intros (a & b & ->). exists (pre +:+ a), b. by rewrite string_app_assoc.
Qed.

Lemma mentions_concat sep l t : t ∈ l → mentions (String.concat sep l) t.
Proof.
  induction l as [|x l IH]; [by intros ?%elem_of_nil|].
  intros [->|Hin]%elem_of_cons.
  - destruct l as [|y l]; simpl.
    + exists "", "". by rewrite string_app_nil_l, string_app_nil_r.
    + by exists "", (sep +:+ String.concat sep (y :: l)).
  - destruct l as [|y l]; [by apply elem_of_nil in Hin|].
    change (String.concat sep (x :: y :: l))
      with (x +:+ sep +:+ String.concat sep (y :: l)).
    by apply mentions_app_r, mentions_app_r, IH.
Qed.

Lemma missing_tables_elem self required t :
  t ∈ missing_tables self required ↔ t ∈ required ∧ tables self !! t = None.
Proof.
  unfold missing_tables. rewrite !list_elem_of_In, filter_In, bool_decide_eq_true.
  done.
Qed.

Lemma missing_tables_nil self required :
  missing_tables self required = [] ↔
  ∀ t, t ∈ required → is_Some (tables self !! t).
Proof.
  split.
  - intros Hnil t Ht. destruct (tables self !! t) eqn:E; [done|].
    assert (t ∈ missing_tables self required) as Hin by by apply missing_tables_elem.
    rewrite Hnil in Hin. by apply elem_of_nil in Hin.
  - intros Hall. destruct (missing_tables self required) as [|t l] eqn:E; [done|].
    assert (t ∈ missing_tables self required) as [Ht Hnone]%missing_tables_elem
      by (rewrite E; apply list_elem_of_here).
    destruct (Hall t Ht) as [? ?]. congruence.
Qed.

Lemma prefix_app (p s : string) : String.prefix p (p +:+ s) = true.
Proof.
  induction p as [|c p IH]; [by destruct s|].
  rewrite string_app_cons. simpl. destruct (ascii_dec c c); [done|congruence].
Qed.

Section missing.
Context (parse_datetime : value → option Z).
Context (num_mul : Q → Q → Q) (obj_mul : value → value → option value).

Ltac raises_step :=
  lazymatch goal with
  | |- raises_only (_ ≫= _) _ => apply raises_bind; [|intros ?]
  | |- raises_only (mret _) _ => apply raises_ret
  | |- raises_only (if ?b then _ else _) _ => destruct b
  | |- raises_only (table _ _) _ => apply raises_table; reflexivity
  | |- raises_only (copy _) _ => apply raises_copy; assumption
  | |- raises_only (merge _ _ _ _ _ _) _ =>
      apply raises_merge; [assumption|reflexivity..]
  | |- raises_only (getitem _ _) _ => apply raises_getitem; [assumption|reflexivity]
  | |- raises_only (setitem _ _ _) _ => apply raises_setitem; assumption
  | |- raises_only (in_columns _ _) _ => apply raises_in_columns; assumption
  | |- raises_only (deref _) _ => apply raises_deref; assumption
  end.

Lemma sales_line_items_raises self :
  missing_tables self sales_required = [] →
  raises_only (sales_line_items parse_datetime num_mul obj_mul self)
              (λ e, is_missing_tables_error e = false).
Proof.
  intros Hnone.
  assert (∀ e, (∀ msg, e ≠ KeyError msg) → is_missing_tables_error e = false)
    as Pother. { intros [] He; [by destruct (He msg)|done..]. }
  unfold sales_line_items.
  apply raises_bind.
  { unfold _check_required_tables. rewrite Hnone. apply raises_ret. }
  intros [].
  repeat raises_step.
  all: try (apply raises_lift; intros e He; apply Pother;
            first [by eapply raises_series_zip_mul | by eapply raises_dt]).
  all: apply raises_getitems; [assumption|].
  all: apply Forall_forall; intros c Hc;
       apply list_elem_of_In, filter_In in Hc as [Hc _];
       apply list_elem_of_In in Hc; revert c Hc;
       apply Forall_forall; unfold important_cols; repeat constructor.
Qed.
End missing.

(** * The claims on modeling.py *)

(** C1 (the code departs from it): with a [customer] table and no [employee]
    table, [customers_dim] does not return the customers: [employee] is in its
    list of required tables, so [_check_required_tables] raises before the
    guard on ["employee" in self.tables] is reached. *)
Theorem customers_dim_without_employee_raises :
  customers_dim ex_model_customers ex_heap
  = (Raise (KeyError "Missing required tables: employee"), ex_heap).
Proof. reflexivity. Qed.

(** C2: when each of the seven joined tables has a unique join key, the
    table [sales_line_items] returns has as many rows as the raw
    [invoiceline] table. *)
Theorem sales_line_items_row_count (parse_datetime : value → option Z)
    (num_mul : Q → Q → Q) (obj_mul : value → value → option value)
    self h lines df :
  table_value self h "invoiceline" = Some lines →
  joined_keys_unique self h = true →
  returned (sales_line_items parse_datetime num_mul obj_mul self h) = Ok df →
  nrows df = nrows lines.
Proof.
  intros Hlines Hkeys. apply sales_line_items_nrows; [done|].
  intros name key Hin. unfold joined_keys_unique in Hkeys.
  rewrite forallb_forall in Hkeys. apply list_elem_of_In in Hin.
  specialize (Hkeys (name, key) Hin). cbn [fst snd] in Hkeys.
  destruct (table_value self h name) as [T|]; [|discriminate Hkeys].
  by exists T.
Qed.


(** C7: when a required table of [sales_line_items] is absent, the call
    raises the missing-tables [KeyError], in the heap it started in, and the
    message names every absent required table; when none is absent, no
    exception it may raise is the missing-tables error. *)
Theorem sales_line_items_missing_tables (parse_datetime : value → option Z)
    (num_mul : Q → Q → Q) (obj_mul : value → value → option value)
    self h :
  ((∃ t, t ∈ sales_required ∧ tables self !! t = None) →
     ∃ msg, sales_line_items parse_datetime num_mul obj_mul self h
            = (Raise (KeyError msg), h)
       ∧ msg = "Missing required tables: "
               +:+ String.concat ", " (missing_tables self sales_required)
       ∧ is_missing_tables_error (KeyError msg) = true
       ∧ ∀ t, t ∈ sales_required → tables self !! t = None → mentions msg t)
  ∧ ((∀ t, t ∈ sales_required → is_Some (tables self !! t)) →
     ∀ e, (sales_line_items parse_datetime num_mul obj_mul self h).1 = Raise e →
       is_missing_tables_error e = false).
Proof.
  split.
  - intros (t0 & Ht0 & Hnone).
    eexists. split; [|split; [reflexivity|split]].
    + unfold sales_line_items. rewrite bind_run. unfold _check_required_tables.
      destruct (missing_tables self sales_required) as [|m ms] eqn:E; [|reflexivity].
      assert (t0 ∈ missing_tables self sales_required) as Hin
        by by apply missing_tables_elem.
      rewrite E in Hin. by apply elem_of_nil in Hin.
    + apply prefix_app.
    + intros t Ht Htnone. apply mentions_app_r, mentions_concat.
      by apply missing_tables_elem.
  - intros Hall e He. eapply sales_line_items_raises; [|exact He].
    by apply missing_tables_nil.
Qed.

Lemma sales_line_items_row_count_witness :
  match returned (sales_line_items ex_parse float64_mul ex_obj_mul ex_model
                    ex_heap) with
  | Ok df => nrows df = nrows ex_invoiceline
  | Raise _ => False
  end.
Proof.
  destruct (returned (sales_line_items ex_parse float64_mul ex_obj_mul ex_model
                        ex_heap)) as [df|e] eqn:E.
  - apply (sales_line_items_row_count ex_parse float64_mul ex_obj_mul ex_model
             ex_heap ex_invoiceline df);
      [reflexivity|vm_compute; reflexivity|exact E].
  - vm_compute in E. discriminate E.
Defined.



(** The two numbers of the counterexample: the float64 product, which is
    [0.3000000000000000444...], and the exact product,
    [0.3000000000000000166...]. *)
Example float64_rounds :
  (float64_mul ex_tenth 3 == 5404319552844596 # 18014398509481984)%Q
  ∧ (ex_tenth * 3 == 10808639105689191 # 36028797018963968)%Q.
Proof. split; vm_compute; reflexivity. Qed.

Lemma sales_line_items_missing_tables_witness :
  (∃ msg, sales_line_items ex_parse float64_mul ex_obj_mul ex_model_incomplete
            ex_heap
          = (Raise (KeyError msg), ex_heap)
     ∧ mentions msg "genre" ∧ mentions msg "mediatype")
  ∧ (∀ e, (sales_line_items ex_parse float64_mul ex_obj_mul ex_model
             ex_heap).1 = Raise e →
       is_missing_tables_error e = false).
Proof.
  split.
  - destruct (proj1 (sales_line_items_missing_tables ex_parse float64_mul
                       ex_obj_mul ex_model_incomplete ex_heap))
      as (msg & Hrun & _ & _ & Hall).
    + exists "genre". split; [unfold sales_required; elem_of_list|reflexivity].
    + exists msg. split; [exact Hrun|]. split; apply Hall;
        first [reflexivity | unfold sales_required; elem_of_list].
  - apply (proj2 (sales_line_items_missing_tables ex_parse float64_mul ex_obj_mul
                    ex_model ex_heap)).
    intros t Ht. unfold sales_required in Ht.
    repeat (apply elem_of_cons in Ht as [->|Ht]; [by eexists|]).
    by apply elem_of_nil in Ht.
Defined.

(** ** Sums of columns *)

Lemma series_sum_Ok s t : series_sum s = Ok t → t = qtotal s.
Proof.
  revert t. induction s as [|v s IH]; intros t; simpl; [by intros [= <-]|].
  destruct v; try done; [by apply IH|].
  destruct (series_sum s) as [t'|]; simpl; [|done]. intros [= <-].
  by rewrite (IH t').
Qed.

(** ** Sorting *)

Lemma insert_by_Permutation {A} (leb : A → A → bool) x l :
  insert_by leb x l ≡ₚ x :: l.
Proof.
  induction l as [|y l IH]; simpl; [done|]. destruct (leb x y); [done|].
  rewrite IH. apply perm_swap.
Qed.

Lemma sort_by_Permutation {A} (leb : A → A → bool) l : sort_by leb l ≡ₚ l.
Proof.
  induction l as [|x l IH]; simpl; [done|].
  unfold sort_by in *. simpl. by rewrite insert_by_Permutation, IH.
Qed.

Lemma filter_partition_Permutation {A} (p : A → bool) l :
  List.filter p l ++ List.filter (λ x, negb (p x)) l ≡ₚ l.
Proof.
  induction l as [|x l IH]; simpl; [done|]. destruct (p x); simpl.
  - by rewrite IH.
  - by rewrite <-Permutation_middle, IH.
Qed.

Lemma df_sort_values_Permutation c asc df W :
  df_sort_values c asc df = Ok W → rows W ≡ₚ rows df.
Proof.
  unfold df_sort_values. case_match; [done|]. intros [= <-]. simpl.
  etrans; [|apply (filter_partition_Permutation (λ r, negb (isna (cell r c))))].
  apply Permutation_app.
  - destruct asc; apply sort_by_Permutation.
  - apply Permutation_refl'. apply filter_ext. intros r. by rewrite negb_involutive.
Qed.

(** ** Keys *)

Lemma keys_eqb_refl a : keys_eqb a a = true.
Proof. induction a as [|x a IH]; simpl; [done|]. by rewrite value_eqb_refl. Qed.

Lemma keys_eqb_sym a b : keys_eqb a b = keys_eqb b a.
Proof.
  revert b. induction a as [|x a IH]; intros [|y b]; simpl; try done.
  by rewrite value_eqb_sym, IH.
Qed.

Lemma keys_eqb_trans a b c :
  keys_eqb a b = true → keys_eqb b c = true → keys_eqb a c = true.
Proof.
  revert b c. induction a as [|x a IH]; intros [|y b] [|z c]; simpl; try done.
  intros [? ?]%andb_prop [? ?]%andb_prop.
  erewrite value_eqb_trans, IH; eauto.
Qed.

Lemma key_count_Permutation ks ks' q : ks ≡ₚ ks' → key_count ks q = key_count ks' q.
Proof.
  unfold key_count. induction 1 as [|k a b _ IH|k k' a|a b c _ IH1 _ IH2]; simpl.
  - done.
  - destruct (keys_eqb q k); simpl; by rewrite IH.
  - by destruct (keys_eqb q k), (keys_eqb q k').
  - by rewrite IH1.
Qed.

Lemma key_count_filter_ne ks q x :
  keys_eqb q x = false →
  key_count (List.filter (λ y, negb (keys_eqb x y)) ks) q = key_count ks q.
Proof.
  intros Hqx. unfold key_count. induction ks as [|k ks IH]; simpl; [done|].
  destruct (keys_eqb x k) eqn:Exk; simpl.
  - destruct (keys_eqb q k) eqn:Eqk; [|done].
    rewrite keys_eqb_sym in Exk. by rewrite (keys_eqb_trans _ _ _ Eqk Exk) in Hqx.
  - destruct (keys_eqb q k); simpl; by rewrite IH.
Qed.

Lemma key_count_filter_eq ks q x :
  keys_eqb q x = true →
  key_count (List.filter (λ y, negb (keys_eqb x y)) ks) q = 0%nat.
Proof.
  intros Hqx. unfold key_count. induction ks as [|k ks IH]; simpl; [done|].
  destruct (keys_eqb x k) eqn:Exk; simpl; [done|].
  destruct (keys_eqb q k) eqn:Eqk; [|done].
  rewrite keys_eqb_sym in Hqx. by rewrite (keys_eqb_trans _ _ _ Hqx Eqk) in Exk.
Qed.

Lemma key_count_cons x ks q :
  key_count (x :: ks) q
  = ((if keys_eqb q x then 1 else 0) + key_count ks q)%nat.
Proof. unfold key_count. simpl. by destruct (keys_eqb q x). Qed.

Lemma key_count_dedup l q :
  In q l → key_count (dedup_by keys_eqb l) q = 1%nat.
Proof.
  induction l as [|x l IH]; [done|]. intros Hin.
  cbn [dedup_by]. rewrite key_count_cons.
  destruct (keys_eqb q x) eqn:Eqx.
  - by rewrite key_count_filter_eq.
  - rewrite key_count_filter_ne by done. apply IH.
    destruct Hin as [->|Hin]; [|done]. by rewrite keys_eqb_refl in Eqx.
Qed.

Lemma key_count_group_keys keys df r :
  In r (rows df) → key_present keys r = true →
  key_count (group_keys keys df) (key_of keys r) = 1%nat.
Proof.
  intros Hr Hp. unfold group_keys.
  rewrite (key_count_Permutation _ _ _ (sort_by_Permutation _ _)).
  apply key_count_dedup, in_map, filter_In. done.
Qed.

(** ** The groups of a groupby partition the rows with a key *)

Section groups.
Context (keys : list string) (col : string).

Lemma group_keys_In df k :
  In k (group_keys keys df) →
  ∃ r, In r (rows df) ∧ key_present keys r = true ∧ k = key_of keys r.
Proof.
  unfold group_keys. intros Hin.
  apply (Permutation_in _ (sort_by_Permutation _ _)) in Hin.
  assert (∀ l, In k (dedup_by keys_eqb l) → In k l) as Hsub.
  { clear. induction l as [|x l IH]; simpl; [done|].
    intros [->|[Hin _]%filter_In]; auto. }
  apply Hsub, in_map_iff in Hin as (r & <- & [Hr Hp]%filter_In). eauto.
Qed.

Lemma mapR_Ok {A B} (f : A → result B) (g : A → B) l l' :
  (∀ x y, f x = Ok y → y = g x) → mapR f l = Ok l' → l' = map g l.
Proof.
  intros Hfg. revert l'. induction l as [|x l IH]; intros l'; simpl.
  - by intros [= <-].
  - destruct (f x) as [y|] eqn:Ex; simpl; [|done].
    destruct (mapR f l) as [ys|]; simpl; [|done]. intros [= <-].
    by rewrite (Hfg x y Ex), (IH ys).
Qed.

Lemma groupby_sum_Ok df ks :
  groupby_sum keys col df = Ok ks →
  ks = map (λ k, (k, VNum (column_total col (group_rows keys df k))))
           (group_keys keys df).
Proof.
  unfold groupby_sum, groupby.
  destruct (List.filter _ keys); [|done]. simpl.
  destruct (has_column col df); simpl; [|done]. intros Hmap.
  apply (mapR_Ok _ (λ kr, (kr.1, VNum (column_total col kr.2)))) in Hmap.
  - rewrite Hmap, map_map. done.
  - intros [k rs] y. simpl. destruct (series_sum _) as [t|] eqn:E; simpl; [|done].
    intros [= <-]. by rewrite (series_sum_Ok _ _ E).
Qed.

End groups.

(** ** revenue_by_month *)

Lemma zip_with_map_r {A B C} (f : A → B → C) (g : A → B) l :
  zip_with f l (map g l) = map (λ x, f x (g x)) l.
Proof. induction l as [|x l IH]; simpl; [done|]. by rewrite IH. Qed.

Lemma dt_Ok f s m :
  dt f s = Ok m →
  is_datetime64_any_dtype s = true
  ∧ m = map (λ v, match v with VTime t => f t | _ => VNull end) s.
Proof. unfold dt. destruct (is_datetime64_any_dtype s); [|done]. by intros [= <-]. Qed.

Lemma df_setitem_Ok c s df W :
  df_setitem c s df = Ok W →
  rows W = zip_with (λ r v, <[c := v]> r) (rows df) s
  ∧ columns W = (if has_column c df then columns df else columns df ++ [c]).
Proof. unfold df_setitem. case_bool_decide; [|done]. by intros [= <-]. Qed.

Lemma with_month_rows S d m W :
  df_getitem "InvoiceDate" S = Ok d →
  dt (λ t, VTime (month_start t)) d = Ok m →
  df_setitem "Month" m S = Ok W →
  rows W = map (λ r, <["Month" := month_cell (cell r "InvoiceDate")]> r) (rows S)
  ∧ Forall (λ r, match cell r "InvoiceDate" with
                 | VTime _ | VNull => True
                 | _ => False
                 end) (rows S).
Proof.
  intros [_ ->]%df_getitem_Ok [Hdt ->]%dt_Ok [-> _]%df_setitem_Ok. split.
  - rewrite map_map. by rewrite zip_with_map_r.
  - unfold is_datetime64_any_dtype in Hdt. rewrite forallb_forall in Hdt.
    apply Forall_forall. intros r Hr%list_elem_of_In.
    specialize (Hdt (cell r "InvoiceDate") (in_map _ _ _ Hr)).
    by destruct (cell r "InvoiceDate").
Qed.

Lemma rename_reset_rows g :
  rows (df_rename "LineTotal" "Revenue" (reset_index ["Month"] "LineTotal" g))
  = map revenue_row g.
Proof. unfold df_rename, reset_index. simpl. by rewrite map_map. Qed.

Lemma revenue_row_Revenue k v : cell (revenue_row (k, v)) "Revenue" = v.
Proof.
  unfold revenue_row, cell. simpl.
  rewrite lookup_insert_ne by done. rewrite lookup_insert_eq. simpl.
  destruct k as [|m k]; simpl.
  - by rewrite lookup_insert_eq.
  - rewrite lookup_insert_ne by done. by rewrite lookup_insert_eq.
Qed.

Lemma revenue_row_Month m v : cell (revenue_row ([m], v)) "Month" = m.
Proof.
  unfold revenue_row, cell. simpl.
  rewrite lookup_insert_eq. simpl. by rewrite lookup_insert_eq.
Qed.

Lemma month_group_rows (rs : list (gmap string value)) m :
  map (λ r, cell r "LineTotal")
      (List.filter (λ r, key_present ["Month"] r
                        && keys_eqb (key_of ["Month"] r) [VTime m])
         (map (λ r, <["Month" := month_cell (cell r "InvoiceDate")]> r) rs))
  = map (λ r, cell r "LineTotal") (List.filter (in_month m) rs).
Proof.
  induction rs as [|r rs IH]; simpl; [done|].
  unfold key_present at 1, key_of at 1, in_month at 1. simpl. rewrite cell_insert.
  destruct (cell r "InvoiceDate") eqn:E; simpl; try exact IH.
  destruct (month_start t =? m); simpl; [|exact IH].
  f_equal; [by apply cell_insert_ne|exact IH].
Qed.

Lemma revenue_by_month_run self h S R :
  h !! sales_df self = Some S →
  returned (revenue_by_month self h) = Ok R →
  ∃ W g,
    rows W = map (λ r, <["Month" := month_cell (cell r "InvoiceDate")]> r) (rows S)
    ∧ Forall (λ r, match cell r "InvoiceDate" with
                   | VTime _ | VNull => True
                   | _ => False
                   end) (rows S)
    ∧ groupby_sum ["Month"] "LineTotal" W = Ok g
    ∧ rows R ≡ₚ map revenue_row g.
Proof.
  intros HS Hret.
  eapply (returned_wp _ _ _ (λ R, ∃ W g, _ ∧ _ ∧ _ ∧ rows R ≡ₚ _)); [exact Hret|].
  clear Hret. unfold revenue_by_month.
  repeat wp_step h. returned_owned.
  match goal with
  | Hd : df_getitem "InvoiceDate" _ = Ok _, Hm : dt _ _ = Ok _,
    Hs : df_setitem "Month" _ _ = Ok ?W, Hg : groupby_sum _ _ _ = Ok ?g,
    Hsort : df_sort_values _ _ _ = Ok _ |- _ =>
      destruct (with_month_rows _ _ _ _ Hd Hm Hs) as [Hrows Hdt];
      exists W, g; split; [exact Hrows|]; split; [exact Hdt|]; split; [exact Hg|];
      rewrite (df_sort_values_Permutation _ _ _ _ Hsort); by rewrite rename_reset_rows
  end.
Qed.

(** Each returned row is a month with, as [Revenue], the sum of [LineTotal]
    over the rows of the sales table that fall in that month. *)
Lemma revenue_by_month_row self h S R r :
  h !! sales_df self = Some S →
  returned (revenue_by_month self h) = Ok R →
  r ∈ rows R →
  ∃ m, cell r "Month" = VTime m
       ∧ cell r "Revenue"
         = VNum (column_total "LineTotal" (List.filter (in_month m) (rows S))).
Proof.
  intros HS Hret Hr.
  destruct (revenue_by_month_run _ _ _ _ HS Hret) as (W & g & HW & Hdt & Hg & HR).
  rewrite HR in Hr. apply list_elem_of_In, in_map_iff in Hr as ([k v] & <- & Hkv).
  rewrite (groupby_sum_Ok _ _ _ _ Hg) in Hkv.
  apply in_map_iff in Hkv as (k' & [= <- <-] & Hk).
  apply group_keys_In in Hk as (w & Hw & Hp & ->).
  rewrite HW in Hw. apply in_map_iff in Hw as (s & <- & Hs).
  unfold key_present, key_of in *. simpl in Hp. rewrite cell_insert in Hp.
  simpl. rewrite cell_insert.
  destruct (cell s "InvoiceDate") as [| | |t] eqn:E; try done. simpl.
  exists (month_start t). split; [apply revenue_row_Month|].
  rewrite revenue_row_Revenue. f_equal. unfold column_total, group_rows.
  rewrite HW. f_equal. apply month_group_rows.
Qed.

(** ** The Analyzer's copy of the sales table *)

Lemma owns_mono (h0 h h' : heap) l V :
  owns h0 h l V → h `prefix_of` h' → owns h0 h' l V.
Proof.
  intros (Hpre & Hl & HV) Hh. split; [by etrans|]. split; [done|].
  by eapply prefix_lookup_Some.
Qed.

Section init.
Context (parse_datetime : value → option Z).

Lemma coerced_datetime S0 dates :
  df_getitem "InvoiceDate" S0 = Ok dates →
  is_datetime64_any_dtype dates = true →
  coerced parse_datetime S0 S0.
Proof.
  intros [_ ->]%df_getitem_Ok Hdt. unfold coerced.
  unfold is_datetime64_any_dtype in Hdt.
  induction (rows S0) as [|r rs IH]; simpl in *; [constructor|]. constructor.
  - apply andb_prop in Hdt as [Hr _]. by destruct (cell r "InvoiceDate").
  - apply IH. by apply andb_prop in Hdt as [_ ?].
Qed.

Lemma coerced_setitem S0 dates S :
  df_getitem "InvoiceDate" S0 = Ok dates →
  df_setitem "InvoiceDate" (to_datetime parse_datetime dates) S0 = Ok S →
  coerced parse_datetime S0 S.
Proof.
  intros [_ ->]%df_getitem_Ok [HS _]%df_setitem_Ok. unfold coerced. rewrite HS.
  unfold to_datetime. rewrite map_map, zip_with_map_r. clear HS.
  induction (rows S0) as [|r rs IH]; simpl; [constructor|].
  constructor; [|done]. by rewrite cell_insert, cell_insert_ne.
Qed.

Lemma ChinookAnalyzer_init_sales sales cat h S0 self h1 :
  h !! sales = Some S0 →
  ChinookAnalyzer_init parse_datetime sales cat h = (Ok self, h1) →
  ∃ S, h1 !! sales_df self = Some S ∧ coerced parse_datetime S0 S.
Proof.
  intros HS0 Hrun.
  cut (wp (ChinookAnalyzer_init parse_datetime sales cat) h
          (λ self h1, ∃ S, h1 !! sales_df self = Some S ∧ coerced parse_datetime S0 S)).
  { intros Hwp. by apply Hwp. }
  clear Hrun. unfold ChinookAnalyzer_init.
  wp_step h. wp_step h. wp_step h.
  assert (wp (match cat with
              | Some c => c' ← copy c; mret (Some c')
              | None => mret None
              end) h'
            (λ b h2, owns h h2 l' S0)) as Hcat.
  { destruct cat as [c|].
    - wp_step h. eapply (wp_copy_any h); [wp_side|]. intros V l2 h2 Hpre _.
      apply wp_ret. by eapply owns_mono.
    - by apply wp_ret. }
  intros b h2 Hb. specialize (Hcat b h2 Hb). cbv beta in Hcat. clear Hb.
  wp_step h. wp_step h.
  destruct (List.filter _ _); [|apply wp_raise].
  repeat wp_step h.
  - eexists. split; [by eapply owns_lookup|]. by eapply coerced_setitem.
  - eexists. split; [by eapply owns_lookup|]. eapply coerced_datetime; [done|].
    by apply negb_false_iff.
Qed.
End init.

Section coercion.
Context (parse_datetime : value → option Z).

Lemma coerced_in_month S0 S m :
  coerced parse_datetime S0 S →
  map (λ r, cell r "LineTotal") (List.filter (in_month m) (rows S))
  = map (λ r, cell r "LineTotal")
        (List.filter (parsed_in_month parse_datetime m) (rows S0)).
Proof.
  unfold coerced. induction 1 as [|r0 r rs0 rs [Hd Ht] _ IH]; simpl; [done|].
  unfold in_month at 1, parsed_in_month at 1. rewrite Hd.
  destruct (to_datetime_value _ _); simpl; try done.
  destruct (_ =? _); simpl; by rewrite ?Ht, IH.
Qed.

End coercion.

(** C9: every row [revenue_by_month] returns is a month, and its [Revenue]
    is the sum of [LineTotal] over the rows of the sales table whose
    coerced invoice timestamp falls in that month; a row whose timestamp is
    missing, or became missing when the constructor coerced it, falls in no
    month. *)
Theorem revenue_by_month_skips_null_timestamps (parse_datetime : value → option Z)
    sales cat h S0 self h1 R :
  h !! sales = Some S0 →
  ChinookAnalyzer_init parse_datetime sales cat h = (Ok self, h1) →
  returned (revenue_by_month self h1) = Ok R →
  (∀ r, r ∈ rows R →
     ∃ m, cell r "Month" = VTime m
          ∧ cell r "Revenue"
            = VNum (column_total "LineTotal"
                      (List.filter (parsed_in_month parse_datetime m) (rows S0))))
  ∧ (∀ r0 m, has_timestamp parse_datetime r0 = false →
             parsed_in_month parse_datetime m r0 = false).
Proof.
  intros HS0 Hinit Hret. split.
  - intros r Hr.
    destruct (ChinookAnalyzer_init_sales _ _ _ _ _ _ _ HS0 Hinit) as (S & HS & Hco).
    destruct (revenue_by_month_row _ _ _ _ _ HS Hret Hr) as (m & Hm & Hrev).
    exists m. split; [done|]. rewrite Hrev. unfold column_total.
    by rewrite (coerced_in_month _ _ _ _ Hco).
  - intros r0 m. unfold has_timestamp, parsed_in_month.
    by destruct (to_datetime_value _ _).
Qed.


Lemma revenue_by_month_skips_null_timestamps_witness :
  match ChinookAnalyzer_init ex_parse 0%nat None [ex_sales_gap] with
  | (Ok self, h1) =>
      match returned (revenue_by_month self h1) with
      | Ok R => ∀ r, r ∈ rows R → ∃ m, cell r "Month" = VTime m
      | Raise _ => False
      end
  | _ => False
  end.
Proof.
  destruct (ChinookAnalyzer_init ex_parse 0%nat None [ex_sales_gap])
    as [[self|e] h1] eqn:Einit; [|vm_compute in Einit; discriminate Einit].
  destruct (returned (revenue_by_month self h1)) as [R|e] eqn:ER.
  - intros r Hr.
    destruct (proj1 (revenue_by_month_skips_null_timestamps ex_parse 0%nat None
                       [ex_sales_gap] ex_sales_gap self h1 R eq_refl Einit ER) r Hr)
      as (m & Hm & _).
    by exists m.
  - vm_compute in Einit. injection Einit as <- <-.
    vm_compute in ER. discriminate ER.
Defined.

(** ** top_words_in_track_titles *)

Section words.
Context (str_of_value : value → string).

Lemma top_words_returned self n stopwords h c C :
  catalog_df self = Some c → h !! c = Some C →
  returned (top_words_in_track_titles str_of_value self n stopwords h)
  = if has_column "Name" C
    then df_set_columns ["Word"; "Frequency"]
           (word_counts str_of_value n stopwords (map (λ r, cell r "Name") (rows C)))
    else Raise (KeyError "Required column 'Name' is missing.").
Proof.
  intros Hcat HC. unfold top_words_in_track_titles. rewrite Hcat.
  unfold _check_column, getitem. rewrite !bind_run.
  unfold deref at 1. rewrite HC. destruct (has_column "Name" C) eqn:Hname; [|done].
  cbn [mret M_ret]. rewrite !bind_run. unfold deref at 1. rewrite HC.
  unfold lift, df_getitem. rewrite Hname. rewrite !bind_run.
  fold (word_counts str_of_value n stopwords (map (λ r, cell r "Name") (rows C))).
  set (W := word_counts _ _ _ _). unfold new. rewrite !bind_run.
  unfold deref. rewrite list_lookup_middle by done.
  unfold df_set_columns. simpl. rewrite list_lookup_insert_eq; [done|].
  rewrite length_app. simpl. lia.
Qed.

Lemma dropna_drop_null_titles (rs : list (gmap string value)) :
  List.filter (λ v, negb (isna v))
    (map (λ r, cell r "Name")
         (List.filter (λ r, negb (isna (cell r "Name"))) rs))
  = List.filter (λ v, negb (isna v)) (map (λ r, cell r "Name") rs).
Proof.
  induction rs as [|r rs IH]; simpl; [done|].
  destruct (isna (cell r "Name")) eqn:E; simpl; rewrite ?E; simpl; by rewrite IH.
Qed.
End words.

(** * The claims on the text statistics *)

(** C10: [top_words_in_track_titles] ignores the rows of the catalog whose
    title is missing: called on a catalog and on the same catalog without
    those rows, it returns the same table of word counts (or raises the same
    exception). *)
Theorem top_words_ignore_null_titles (str_of_value : value → string)
    self n stopwords (h h' : heap) c C :
  catalog_df self = Some c →
  h !! c = Some C →
  h' !! c = Some (drop_null_titles C) →
  returned (top_words_in_track_titles str_of_value self n stopwords h)
  = returned (top_words_in_track_titles str_of_value self n stopwords h').
Proof.
  intros Hcat HC HC'.
  rewrite (top_words_returned _ _ _ _ _ _ _ Hcat HC).
  rewrite (top_words_returned _ _ _ _ _ _ _ Hcat HC').
  unfold has_column, word_counts. cbn [drop_null_titles columns rows].
  by rewrite dropna_drop_null_titles.
Qed.

Lemma top_words_ignore_null_titles_witness :
  returned (top_words_in_track_titles ex_str ex_titles_analyzer 20 None
              [ex_sales_gap; ex_titles])
  = returned (top_words_in_track_titles ex_str ex_titles_analyzer 20 None
                [ex_sales_gap; drop_null_titles ex_titles]).
Proof.
  apply (top_words_ignore_null_titles ex_str ex_titles_analyzer 20 None
           [ex_sales_gap; ex_titles] [ex_sales_gap; drop_null_titles ex_titles]
           1%nat ex_titles); reflexivity.
Defined.

(** The scenario of the spec: [sun] comes first, with frequency 2. *)
Example top_words_sun :
  (λ R, map (λ r, (cell r "Word", cell r "Frequency")) (rows R))
    <$> returned (top_words_in_track_titles ex_str ex_titles_analyzer 20 None
                    [ex_sales_gap; ex_titles])
  = Ok [(VStr "sun", num 2); (VStr "rises", num 1); (VStr "moon", num 1)].
Proof. vm_compute. reflexivity. Qed.

(** ** qcut *)

Lemma numbers_Ok s xs : numbers s = Ok xs → xs = map num_opt s.
Proof.
  unfold numbers. revert xs. induction s as [|v s IH]; intros xs; simpl.
  - by intros [= <-].
  - destruct v; simpl; try done;
      (destruct (mapR _ s) as [ys|]; simpl; [|done]);
      intros [= <-]; by rewrite (IH ys).
Qed.

Lemma dedup_by_length {A} (eqb : A → A → bool) l :
  (length (dedup_by eqb l) ≤ length l)%nat.
Proof.
  induction l as [|x l IH]; simpl; [done|].
  pose proof (filter_length_le (λ y, negb (eqb x y)) (dedup_by eqb l)). lia.
Qed.

(** With [duplicates="drop"], [qcut] raises no [ValueError], and its labels
    are those of at most [q + 1] edges. *)
Lemma qcut_drop_Ok s q r :
  qcut s q DupDrop = r →
  match r with
  | Ok labels =>
      ∃ bins, (length bins ≤ q + 1)%nat
              ∧ labels = map (λ v, bin_label bins (num_opt v)) s
  | Raise e => ∀ msg, e ≠ ValueError msg
  end.
Proof.
  unfold qcut. destruct (numbers s) as [xs|e] eqn:Exs; simpl.
  - apply numbers_Ok in Exs as ->. intros <-.
    destruct (sort_by Qle_bool _) as [|x0 sorted] eqn:Es.
    + exists []. split; [simpl; lia|]. rewrite map_map. apply map_ext. intros v.
      unfold bin_label. by destruct (num_opt v).
    + set (edges := map _ (seq 0 (q + 1))).
      assert (length edges = (q + 1)%nat) as Hlen
        by (unfold edges; by rewrite length_map, length_seq).
      destruct (_ && _).
      * exists (dedup_by Qeq_bool edges). split; [|by rewrite map_map].
        rewrite <-Hlen. apply dedup_by_length.
      * exists edges. split; [lia|by rewrite map_map].
  - intros <-. unfold numbers in Exs. clear -Exs. revert e Exs.
    induction s as [|v s IH]; intros e; simpl; [done|].
    destruct v; simpl; try (by intros [= <-]);
      (destruct (mapR _ s) as [ys|e']; simpl; [done|]); intros [= <-]; by apply IH.
Qed.

Lemma searchsorted_left_le bins x : (searchsorted_left bins x ≤ length bins)%nat.
Proof. induction bins as [|b bins IH]; simpl; [done|]. destruct (Qltb b x); lia. Qed.

(** A label is missing or the number of a bin. *)
Lemma bin_label_range bins x :
  bin_label bins x = VNull
  ∨ ∃ l, bin_label bins x = num l ∧ 0 ≤ l ≤ Z.of_nat (length bins) - 2.
Proof.
  unfold bin_label. destruct x as [x|]; [|by left]. destruct bins as [|b0 bins]; [by left|].
  set (ids := if Qeq_bool x b0 then 1%nat else searchsorted_left (b0 :: bins) x).
  assert (ids ≤ length (b0 :: bins))%nat as Hle.
  { unfold ids. destruct (Qeq_bool x b0); [simpl; lia|apply searchsorted_left_le]. }
  destruct (_ || _) eqn:E; [by left|]. right. eexists. split; [done|].
  apply orb_false_elim in E as [E1%Nat.eqb_neq E2%Nat.eqb_neq]. lia.
Qed.

Lemma Qle_bool_proper_l x y b : (x == y)%Q → Qle_bool b x = Qle_bool b y.
Proof.
  intros H. apply eq_true_iff_eq. rewrite !Qle_bool_iff. by rewrite H.
Qed.

Lemma Qle_bool_proper_r x y b : (x == y)%Q → Qle_bool x b = Qle_bool y b.
Proof.
  intros H. apply eq_true_iff_eq. rewrite !Qle_bool_iff. by rewrite H.
Qed.

Lemma Qeq_bool_proper_r x y b : (x == y)%Q → Qeq_bool x b = Qeq_bool y b.
Proof.
  intros H. apply eq_true_iff_eq. rewrite !Qeq_bool_iff. by rewrite H.
Qed.

(** Equal values get equal labels. *)
Lemma bin_label_proper bins v w :
  value_eqb v w = true →
  bin_label bins (num_opt v) = bin_label bins (num_opt w).
Proof.
  destruct v as [|x| |], w as [|y| |]; simpl; try done.
  intros Hxy%Qeq_bool_iff. destruct bins as [|b0 bins]; [done|].
  rewrite (Qeq_bool_proper_r x y b0 Hxy).
  assert (∀ bs, searchsorted_left bs x = searchsorted_left bs y) as ->; [|done].
  induction bs as [|b bs IH]; simpl; [done|]. unfold Qltb.
  by rewrite (Qle_bool_proper_r x y b Hxy), IH.
Qed.

(** ** safe_qcut *)

Lemma mapR_Forall2 {A B} (f : A → result B) l l' :
  mapR f l = Ok l' → Forall2 (λ x y, f x = Ok y) l l'.
Proof.
  revert l'. induction l as [|x l IH]; intros l'; simpl.
  - intros [= <-]. constructor.
  - destruct (f x) as [y|] eqn:Ex; simpl; [|done].
    destruct (mapR f l) as [ys|]; simpl; [|done]. intros [= <-].
    constructor; [done|by apply IH].
Qed.

Lemma mapR_map {A B C} (f : B → result C) (g : A → B) l :
  mapR f (map g l) = mapR (λ x, f (g x)) l.
Proof. induction l as [|x l IH]; simpl; [done|]. by rewrite IH. Qed.

Lemma Forall2_map_eq {A B} (g : A → B) l l' :
  Forall2 (λ x y, y = g x) l l' → l' = map g l.
Proof. induction 1; simpl; congruence. Qed.

(** A number that is an integer. *)
Lemma int_of_q (q : Q) (z : Z) :
  (q == inject_Z z)%Q → Z.quot (Qnum q) (Zpos (Qden q)) = z.
Proof.
  unfold Qeq. simpl. rewrite Z.mul_1_r. intros ->. by apply Z.quot_mul.
Qed.

Lemma num_max_spec (vs : list value) :
  (num_max vs = VNull ∧ ∀ q, ¬ In (VNum q) vs)
  ∨ (∃ q, num_max vs = VNum q ∧ In (VNum q) vs
          ∧ ∀ q', In (VNum q') vs → (q' <= q)%Q).
Proof.
  induction vs as [|v vs IH]; simpl.
  - left. split; [done|]. by intros q [].
  - destruct v as [|x| |].
    + destruct IH as [[-> Hno]|(q & -> & Hin & Hmax)].
      * left. split; [done|]. intros q [?|?]; [done|by eapply Hno].
      * right. exists q. split; [done|]. split; [by right|].
        intros q' [?|?]; [done|by apply Hmax].
    + destruct IH as [[-> Hno]|(q & -> & Hin & Hmax)].
      * right. exists x. split; [done|]. split; [by left|].
        intros q' [[= <-]|?]; [apply Qle_refl|by destruct (Hno q')].
      * right. destruct (Qle_bool x q) eqn:E.
        -- exists q. split; [done|]. split; [by right|].
           intros q' [[= <-]|?]; [by apply Qle_bool_iff|by apply Hmax].
        -- exists x. split; [done|]. split; [by left|].
           assert (q <= x)%Q as Hqx.
           { apply Qnot_lt_le. intros Hlt%Qlt_le_weak%Qle_bool_iff. congruence. }
           intros q' [[= <-]|?]; [apply Qle_refl|].
           eapply Qle_trans; [by apply Hmax|done].
    + destruct IH as [[-> Hno]|(q & -> & Hin & Hmax)].
      * left. split; [done|]. intros q [?|?]; [done|by eapply Hno].
      * right. exists q. split; [done|]. split; [by right|].
        intros q' [?|?]; [done|by apply Hmax].
    + destruct IH as [[-> Hno]|(q & -> & Hin & Hmax)].
      * left. split; [done|]. intros q [?|?]; [done|by eapply Hno].
      * right. exists q. split; [done|]. split; [by right|].
        intros q' [?|?]; [done|by apply Hmax].
Qed.

Lemma label_plus_one (l : Z) : (inject_Z l + inject_Z 1 == inject_Z (l + 1))%Q.
Proof. by rewrite inject_Z_plus. Qed.

Lemma int_of_value_VNum q z :
  (q == inject_Z z)%Q → int_of_value (VNum q) = Ok (num z).
Proof. intros H. unfold int_of_value. by rewrite (int_of_q q z H). Qed.

(** What [safe_qcut] returns for five bins: every score is an integer from 1
    to 5 that depends on the value only. *)
Lemma safe_qcut_spec s rev scores :
  safe_qcut s 5 rev = Ok scores →
  ∃ f : value → Z,
    scores = map (λ v, num (f v)) s
    ∧ (∀ v, In v s → 1 ≤ f v ≤ 5)
    ∧ (∀ v w, value_eqb v w = true → f v = f w).
Proof.
  unfold safe_qcut.
  pose proof (qcut_drop_Ok s 5 _ eq_refl) as Hq.
  destruct (qcut s 5 DupDrop) as [labels|e]; cycle 1.
  { destruct e; simpl; try done. by destruct (Hq msg). }
  destruct Hq as (bins & Hlen & ->). cbn [try_except_ValueError mbind result_bind].
  set (L := λ v, bin_label bins (num_opt v)).
  assert (∀ v, L v = VNull ∨ ∃ l, L v = num l ∧ 0 ≤ l ≤ 4) as HL.
  { intros v. destruct (bin_label_range bins (num_opt v)) as [?|(l & ? & ?)];
      [by left|right]. exists l. split; [done|lia]. }
  assert (∀ v w, value_eqb v w = true → L v = L w) as HLp
    by (intros; by apply bin_label_proper).
  rewrite mapR_map.
  destruct (mapR _ s) as [bins1|] eqn:E1; [|done]. cbn [mbind result_bind].
  apply mapR_Forall2 in E1.
  destruct rev.
  - (* reverse *)
    destruct (value_add (num_max bins1) (num 1)) as [m|] eqn:Em; [|done].
    cbn [mbind result_bind].
    destruct (mapR (value_sub m) bins1) as [bins2|] eqn:E2; [|done].
    cbn [mbind result_bind]. intros E3.
    apply mapR_Forall2 in E2. apply mapR_Forall2 in E3.
    destruct (num_max_spec bins1) as [[Hmax _]|(qmax & Hmax & Hin & Hle)].
    + (* no number at all: there is no row *)
      rewrite Hmax in Em. injection Em as <-.
      exists (λ _, 0). split; [|split; [|done]].
      * destruct E1 as [|v b1 s' bs1 Hv _]; [by inversion E2; subst; inversion E3|].
        inversion E2 as [|? b2 ? ? Hb2]; subst. inversion E3 as [|? sc ? ? Hsc]; subst.
        destruct b1; simpl in Hb2; simplify_eq; simpl in Hsc; done.
      * intros v Hv. exfalso.
        destruct E1 as [|v' b1 s' bs1 Hv' _]; [done|].
        inversion E2 as [|? b2 ? ? Hb2]; subst. inversion E3 as [|? sc ? ? Hsc]; subst.
        destruct b1; simpl in Hb2; simplify_eq; simpl in Hsc; done.
    + rewrite Hmax in Em. injection Em as <-.
      (* the largest score is that of some row *)
      assert (∃ l0, 0 ≤ l0 ≤ 4 ∧ (qmax == inject_Z (l0 + 1))%Q) as (l0 & Hl0 & Hq0).
      { clear E2 E3 Hle Hmax. induction E1 as [|v b1 s' bs1 Hv _ IH]; [done|].
        destruct Hin as [->|Hin]; [|by apply IH].
        destruct (HL v) as [Hn|(l & Hl & ?)]; rewrite ?Hn, ?Hl in Hv.
        - done.
        - injection Hv as <-. exists l. split; [done|]. apply label_plus_one. }
      set (zm := l0 + 1 + 1).
      exists (λ v, match L v with VNum q => zm - (Qnum q + 1) | _ => 0 end).
      assert (Forall2 (λ v sc, ∃ l, L v = num l ∧ 0 ≤ l ≤ 4 ∧ l ≤ l0
                               ∧ sc = num (zm - (l + 1))) s scores) as Hall.
      { clear Hmax Hin. revert bins2 scores E2 E3 Hle.
        induction E1 as [|v b1 s' bs1 Hv _ IH]; intros bins2 scores E2 E3 Hle.
        - inversion E2; subst. inversion E3; subst. constructor.
        - inversion E2 as [|? b2 ? bs2 Hb2 E2']; subst.
          inversion E3 as [|? sc ? scs Hsc E3']; subst.
          assert (∀ q', In (VNum q') bs1 → (q' <= qmax)%Q) as Hle'
            by (intros; apply Hle; by right).
          destruct (HL v) as [Hn|(l & Hl & Hr)]; rewrite ?Hn, ?Hl in Hv.
          + injection Hv as <-. simpl in Hb2. injection Hb2 as <-. done.
          + injection Hv as <-. cbn [value_sub] in Hb2. injection Hb2 as <-.
            assert (l ≤ l0) as Hll0.
            { assert (inject_Z l + inject_Z 1 <= qmax)%Q as Hq by (apply Hle; by left).
              rewrite label_plus_one, Hq0 in Hq. rewrite <-Zle_Qle in Hq. lia. }
            rewrite (int_of_value_VNum _ (zm - (l + 1))) in Hsc.
            2:{ rewrite label_plus_one, Hq0. unfold zm, Qminus.
                rewrite <-!inject_Z_plus, <-inject_Z_opp, <-inject_Z_plus.
                apply inject_Z_injective. lia. }
            injection Hsc as <-.
            constructor; [by exists l|by eapply IH]. }
      split; [|split].
      * apply Forall2_map_eq. eapply Forall2_impl; [exact Hall|].
        intros v sc (l & Hl & _ & _ & ->). cbv beta. by rewrite Hl.
      * assert (∀ v, In v s → ∃ l, L v = num l ∧ 0 ≤ l ≤ 4 ∧ l ≤ l0) as Hs.
        { clear -Hall. induction Hall as [|v sc s' scs (l & ? & ? & ? & _) _ IH];
            intros w; [done|]. intros [<-|Hw]; [by exists l|by apply IH]. }
        intros v Hv. destruct (Hs v Hv) as (l & Hl & ? & ?). rewrite Hl.
        unfold zm. simpl. lia.
      * intros v w Hvw. by rewrite (HLp v w Hvw).
  - (* direct *)
    intros E3. apply mapR_Forall2 in E3.
    exists (λ v, match L v with VNum q => Qnum q + 1 | _ => 0 end).
    assert (Forall2 (λ v sc, ∃ l, L v = num l ∧ 0 ≤ l ≤ 4 ∧ sc = num (l + 1))
                    s scores) as Hall.
    { revert scores E3. induction E1 as [|v b1 s' bs1 Hv _ IH]; intros scores E3.
      - inversion E3; subst. constructor.
      - inversion E3 as [|? sc ? scs Hsc E3']; subst.
        destruct (HL v) as [Hn|(l & Hl & Hr)]; rewrite ?Hn, ?Hl in Hv.
        + by injection Hv as <-.
        + injection Hv as <-.
          rewrite (int_of_value_VNum _ (l + 1)) in Hsc by apply label_plus_one.
          injection Hsc as <-. constructor; [by exists l|by apply IH]. }
    split; [|split].
    + apply Forall2_map_eq. eapply Forall2_impl; [exact Hall|].
      intros v sc (l & Hl & _ & ->). cbv beta. by rewrite Hl.
    + assert (∀ v, In v s → ∃ l, L v = num l ∧ 0 ≤ l ≤ 4) as Hs.
      { clear -Hall. induction Hall as [|v sc s' scs (l & ? & ? & _) _ IH];
          intros w; [done|]. intros [<-|Hw]; [by exists l|by apply IH]. }
      intros v Hv. destruct (Hs v Hv) as (l & Hl & ?). rewrite Hl. simpl. lia.
    + intros v w Hvw. by rewrite (HLp v w Hvw).
Qed.

(** ** Sorted results *)

Lemma value_leb_total a b : value_leb a b = false → value_leb b a = true.
Proof.
  destruct a as [|x|x|x], b as [|y|y|y]; simpl; try done.
  - intros H. apply Qle_bool_iff, Qlt_le_weak, Qnot_le_lt.
    intros Hle%Qle_bool_iff. congruence.
  - intros H. destruct (String.leb_total x y) as [?|?]; congruence.
  - intros H%Z.leb_gt. apply Z.leb_le. lia.
Qed.

Section sorted.
Context {A : Type} (leb : A → A → bool).
Context (leb_total : ∀ x y, leb x y = false → leb y x = true).

Lemma insert_by_Sorted x l :
  Sorted (λ a b, leb a b = true) l → Sorted (λ a b, leb a b = true) (insert_by leb x l).
Proof.
  induction l as [|y l IH]; simpl; intros Hs.
  - by repeat constructor.
  - destruct (leb x y) eqn:E.
    + constructor; [done|]. by constructor.
    + apply Sorted_inv in Hs as [Hs Hd]. constructor; [by apply IH|].
      destruct l as [|z l]; simpl.
      * constructor. by apply leb_total.
      * destruct (leb x z); constructor; [by apply leb_total|].
        by apply HdRel_inv in Hd.
Qed.

Lemma sort_by_Sorted l : Sorted (λ a b, leb a b = true) (sort_by leb l).
Proof.
  induction l as [|x l IH]; [constructor|]. by apply insert_by_Sorted.
Qed.
End sorted.

Lemma Sorted_app_all {A} (R : A → A → Prop) l1 l2 :
  Sorted R l1 → Sorted R l2 → (∀ x y, In x l1 → In y l2 → R x y) →
  Sorted R (l1 ++ l2).
Proof.
  induction l1 as [|x l1 IH]; simpl; intros H1 H2 H12; [done|].
  apply Sorted_inv in H1 as [H1 Hd]. constructor; [apply IH; auto|].
  destruct l1 as [|y l1]; simpl.
  - destruct l2 as [|z l2]; constructor. apply H12; by left.
  - constructor. by apply HdRel_inv in Hd.
Qed.

(** [sort_values(c, ascending=False)] returns rows in non-increasing order
    of [c]. *)
Lemma df_sort_values_desc_Sorted c df W :
  df_sort_values c false df = Ok W →
  Sorted (λ a b, value_leb (cell b c) (cell a c) = true) (rows W).
Proof.
  unfold df_sort_values. case_match; [done|]. intros [= <-]. simpl.
  apply Sorted_app_all.
  - apply (sort_by_Sorted (λ a b, value_leb (cell b c) (cell a c))).
    intros x y. apply value_leb_total.
  - induction (rows df) as [|r rs IH]; simpl; [constructor|].
    destruct (isna (cell r c)) eqn:E; [|done]. constructor; [done|].
    clear IH. induction rs as [|r' rs IH]; simpl; [constructor|].
    destruct (isna (cell r' c)) eqn:E'; [|done]. constructor.
    destruct (cell r c), (cell r' c); done.
  - intros x y _ [_ Hy]%filter_In. destruct (cell y c); try done.
    by destruct (cell x c).
Qed.

(** ** rfm_analysis *)

Lemma groupby_agg_rfm_Ok today S T :
  groupby_agg_rfm today S = Ok T →
  rows T = map (rfm_row today S) (group_keys ["CustomerId"] S).
Proof.
  unfold groupby_agg_rfm, groupby.
  destruct (List.filter _ ["CustomerId"]); [|done]. cbn [mbind result_bind].
  destruct (List.filter _ _); [|done].
  destruct (mapR _ _) as [rs|] eqn:E; [|done]. cbn [mbind result_bind].
  intros [= <-]. cbn [rows].
  apply (mapR_Ok _ (λ kr : list value * list (gmap string value),
                    list_to_map
                      (zip ["CustomerId"] kr.1
                       ++ [("Recency", recency today (map (λ r, cell r "InvoiceDate") kr.2));
                           ("Frequency",
                            num (Z.of_nat (nunique (map (λ r, cell r "InvoiceId") kr.2))));
                           ("Monetary", VNum (column_total "LineTotal" kr.2))]))) in E.
  - rewrite E, map_map. done.
  - intros [k rs'] y. unfold rfm_agg. cbn [fst snd].
    destruct (series_sum _) as [t|] eqn:Et; [|done]. cbn [mbind result_bind].
    intros [= <-]. by rewrite (series_sum_Ok _ _ Et).
Qed.

(** The group of a customer key holds the rows of that customer. *)
Lemma group_rows_customer S r :
  key_present ["CustomerId"] r = true →
  group_rows ["CustomerId"] S (key_of ["CustomerId"] r)
  = customer_rows S (cell r "CustomerId").
Proof.
  intros Hp. unfold group_rows, customer_rows. apply filter_ext. intros s.
  unfold key_present, key_of in *. cbn [map forallb keys_eqb] in *.
  rewrite !andb_true_r in *.
  destruct (cell r "CustomerId"); [done|..];
    by destruct (cell s "CustomerId").
Qed.

Lemma rfm_row_cells today S r :
  key_present ["CustomerId"] r = true →
  let c := cell r "CustomerId" in
  let row := rfm_row today S (key_of ["CustomerId"] r) in
  cell row "CustomerId" = c
  ∧ cell row "Recency"
    = recency today (map (λ r, cell r "InvoiceDate") (customer_rows S c))
  ∧ cell row "Frequency"
    = num (Z.of_nat (nunique (map (λ r, cell r "InvoiceId") (customer_rows S c))))
  ∧ cell row "Monetary" = VNum (column_total "LineTotal" (customer_rows S c)).
Proof.
  intros Hp c row. unfold row, rfm_row. rewrite (group_rows_customer S r Hp).
  fold c. unfold key_of. simpl.
  repeat (first [rewrite cell_insert | rewrite cell_insert_ne by done]).
  repeat split; reflexivity.
Qed.

(** *** The scores *)

Lemma scored_row_cells fR fF fM r :
  let w := scored_row fR fF fM r in
  (cell w "CustomerId" = cell r "CustomerId"
   ∧ cell w "Recency" = cell r "Recency"
   ∧ cell w "Frequency" = cell r "Frequency"
   ∧ cell w "Monetary" = cell r "Monetary")
  ∧ cell w "R_Score" = num (fR (cell r "Recency"))
  ∧ cell w "F_Score" = num (fF (cell r "Frequency"))
  ∧ cell w "M_Score" = num (fM (cell r "Monetary"))
  ∧ cell w "RFM_Score"
    = VNum (inject_Z (fR (cell r "Recency")) + inject_Z (fF (cell r "Frequency"))
            + inject_Z (fM (cell r "Monetary"))).
Proof.
  unfold scored_row. cbv zeta.
  repeat (first [rewrite cell_insert | rewrite cell_insert_ne by done]).
  repeat split; reflexivity.
Qed.

Lemma setitem_scored c c' V s scores W rev :
  df_getitem c V = Ok s →
  safe_qcut s 5 rev = Ok scores →
  df_setitem c' scores V = Ok W →
  ∃ f : value → Z,
    (∀ r, In r (rows V) → 1 ≤ f (cell r c) ≤ 5)
    ∧ (∀ v w, value_eqb v w = true → f v = f w)
    ∧ rows W = map (λ r, <[c' := num (f (cell r c))]> r) (rows V).
Proof.
  intros [_ ->]%df_getitem_Ok (f & -> & Hrange & Hprop)%safe_qcut_spec
         [-> _]%df_setitem_Ok.
  exists f. split; [|split; [done|]].
  - intros r Hr. apply Hrange. by apply (in_map (λ r, cell r c)).
  - rewrite map_map. by rewrite zip_with_map_r.
Qed.

Lemma series_zip_add_rows (rs : list (gmap string value)) a b total :
  Forall (λ r, (∃ x, cell r a = VNum x) ∧ ∃ y, cell r b = VNum y) rs →
  series_zip value_add (map (λ r, cell r a) rs) (map (λ r, cell r b) rs) = Ok total →
  total = map (λ r, VNum (numv (cell r a) + numv (cell r b))) rs.
Proof.
  intros H. revert total. induction H as [|r rs [[x Hx] [y Hy]] _ IH]; intros total.
  - by intros [= <-].
  - simpl. rewrite Hx, Hy. simpl.
    destruct (series_zip _ _ _) as [t|]; simpl; [|done]. intros [= <-].
    by rewrite (IH t).
Qed.

Lemma series_zip_add_total (rs : list (gmap string value)) (g : gmap string value → Q)
    c total :
  Forall (λ r, ∃ z, cell r c = VNum z) rs →
  series_zip value_add (map (λ r, VNum (g r)) rs) (map (λ r, cell r c) rs) = Ok total →
  total = map (λ r, VNum (g r + numv (cell r c))) rs.
Proof.
  intros H. revert total. induction H as [|r rs [z Hz] _ IH]; intros total.
  - by intros [= <-].
  - simpl. rewrite Hz. simpl.
    destruct (series_zip _ _ _) as [t|]; simpl; [|done]. intros [= <-].
    by rewrite (IH t).
Qed.

Lemma rfm_scores_rows T r rs W1 f fs W2 m ms W3 rs' fs' ms' rf total W4 :
  df_getitem "Recency" T = Ok r → safe_qcut r 5 true = Ok rs →
  df_setitem "R_Score" rs T = Ok W1 →
  df_getitem "Frequency" W1 = Ok f → safe_qcut f 5 false = Ok fs →
  df_setitem "F_Score" fs W1 = Ok W2 →
  df_getitem "Monetary" W2 = Ok m → safe_qcut m 5 false = Ok ms →
  df_setitem "M_Score" ms W2 = Ok W3 →
  df_getitem "R_Score" W3 = Ok rs' → df_getitem "F_Score" W3 = Ok fs' →
  df_getitem "M_Score" W3 = Ok ms' →
  series_zip value_add rs' fs' = Ok rf → series_zip value_add rf ms' = Ok total →
  df_setitem "RFM_Score" total W3 = Ok W4 →
  ∃ fR fF fM : value → Z,
    (∀ r, In r (rows T) →
          1 ≤ fR (cell r "Recency") ≤ 5 ∧ 1 ≤ fF (cell r "Frequency") ≤ 5
          ∧ 1 ≤ fM (cell r "Monetary") ≤ 5)
    ∧ (∀ v w, value_eqb v w = true → fR v = fR w ∧ fF v = fF w ∧ fM v = fM w)
    ∧ rows W4 = map (scored_row fR fF fM) (rows T).
Proof.
  intros Hr Hrs H1 Hf Hfs H2 Hm Hms H3 Hrs' Hfs' Hms' Hrf Htotal H4.
  destruct (setitem_scored _ _ _ _ _ _ _ Hr Hrs H1) as (fR & HRr & HRp & HW1).
  destruct (setitem_scored _ _ _ _ _ _ _ Hf Hfs H2) as (fF & HFr & HFp & HW2).
  destruct (setitem_scored _ _ _ _ _ _ _ Hm Hms H3) as (fM & HMr & HMp & HW3).
  exists fR, fF, fM.
  rewrite HW1 in HW2, HFr. rewrite HW2 in HW3, HMr. rewrite !map_map in HW3.
  split; [|split].
  - intros r0 Hr0. split; [by apply HRr|]. split.
    + specialize (HFr _ (in_map _ _ _ Hr0)). cbv beta in HFr.
      by rewrite cell_insert_ne in HFr.
    + rewrite map_map in HMr. specialize (HMr _ (in_map _ _ _ Hr0)). cbv beta in HMr.
      by rewrite !cell_insert_ne in HMr.
  - intros v w Hvw. by rewrite (HRp v w), (HFp v w), (HMp v w).
  - apply df_getitem_Ok in Hrs' as [_ ->]. apply df_getitem_Ok in Hfs' as [_ ->].
    apply df_getitem_Ok in Hms' as [_ ->]. apply df_setitem_Ok in H4 as [-> _].
    assert (Forall (λ r, (∃ x, cell r "R_Score" = VNum x)
                         ∧ (∃ y, cell r "F_Score" = VNum y)
                         ∧ ∃ z, cell r "M_Score" = VNum z) (rows W3)) as Hnum.
    { rewrite HW3. apply Forall_map, Forall_forall. intros r0 _. cbv beta.
      repeat (first [rewrite cell_insert | rewrite cell_insert_ne by done]).
      unfold num. repeat split; eexists; reflexivity. }
    apply series_zip_add_rows in Hrf;
      [|eapply Forall_impl; [exact Hnum|]; intros ? (? & ? & ?); by split].
    subst rf.
    apply (series_zip_add_total _ (λ r, (numv (cell r "R_Score") + numv (cell r "F_Score"))%Q))
      in Htotal; [|eapply Forall_impl; [exact Hnum|]; by intros ? (? & ? & ?)].
    subst total. rewrite zip_with_map_r, HW3, map_map. apply map_ext. intros r0.
    reflexivity.
Qed.

Lemma rfm_analysis_run self h S R :
  h !! sales_df self = Some S →
  returned (rfm_analysis self h) = Ok R →
  ∃ dates today T (fR fF fM : value → Z),
    df_getitem "InvoiceDate" S = Ok dates
    ∧ next_day dates = Ok today
    ∧ groupby_agg_rfm today S = Ok T
    ∧ (∀ r, In r (rows T) →
            1 ≤ fR (cell r "Recency") ≤ 5 ∧ 1 ≤ fF (cell r "Frequency") ≤ 5
            ∧ 1 ≤ fM (cell r "Monetary") ≤ 5)
    ∧ (∀ v w, value_eqb v w = true → fR v = fR w ∧ fF v = fF w ∧ fM v = fM w)
    ∧ rows R ≡ₚ map (scored_row fR fF fM) (rows T)
    ∧ Sorted (λ a b, value_leb (cell b "RFM_Score") (cell a "RFM_Score") = true)
             (rows R).
Proof.
  intros HS Hret.
  eapply (returned_wp _ _ _ (λ R, ∃ dates today T fR fF fM,
            _ ∧ _ ∧ _ ∧ _ ∧ _ ∧ rows R ≡ₚ _ ∧ Sorted _ (rows R))); [exact Hret|].
  clear Hret. unfold rfm_analysis.
  repeat wp_step h. returned_owned.
  match goal with
  | Hd : df_getitem "InvoiceDate" S = Ok ?dates, Hn : next_day _ = Ok ?today,
    Ht : groupby_agg_rfm _ _ = Ok ?T,
    Hr : df_getitem "Recency" _ = Ok _, Hrs : safe_qcut _ 5 true = Ok _,
    H1 : df_setitem "R_Score" _ _ = Ok _,
    Hf : df_getitem "Frequency" _ = Ok _, Hfs : safe_qcut ?f 5 false = Ok _,
    H2 : df_setitem "F_Score" _ _ = Ok _,
    Hm : df_getitem "Monetary" _ = Ok _, Hms : safe_qcut _ 5 false = Ok _,
    H3 : df_setitem "M_Score" _ _ = Ok _,
    Hrs' : df_getitem "R_Score" _ = Ok _, Hfs' : df_getitem "F_Score" _ = Ok _,
    Hms' : df_getitem "M_Score" _ = Ok _,
    Hrf : series_zip value_add _ _ = Ok ?rf, Htot : series_zip value_add ?rf _ = Ok _,
    H4 : df_setitem "RFM_Score" _ _ = Ok _,
    Hsort : df_sort_values "RFM_Score" false _ = Ok _ |- _ =>
      destruct (rfm_scores_rows _ _ _ _ _ _ _ _ _ _ _ _ _ _ _ _
                  Hr Hrs H1 Hf Hfs H2 Hm Hms H3 Hrs' Hfs' Hms' Hrf Htot H4)
        as (fR & fF & fM & Hrange & Hprop & Hrows);
      exists dates, today, T, fR, fF, fM;
      split; [exact Hd|]; split; [exact Hn|]; split; [exact Ht|];
      split; [exact Hrange|]; split; [exact Hprop|]; split;
      [ rewrite (df_sort_values_Permutation _ _ _ _ Hsort); by rewrite Hrows
      | by apply (df_sort_values_desc_Sorted _ _ _ Hsort) ]
  end.
Qed.

(** ** The table returned by rfm_analysis *)

(** *** Order of numeric columns *)

Lemma sorted_desc_num c l :
  Forall (λ r, ∃ q, cell r c = VNum q) l →
  Sorted (λ a b, value_leb (cell b c) (cell a c) = true) l →
  StronglySorted (λ a b, value_leb (cell b c) (cell a c) = true) l.
Proof.
  induction 1 as [|a l [qa Ha] Hall IH]; intros Hs; [constructor|].
  apply Sorted_inv in Hs as [Hs Hd]. specialize (IH Hs).
  constructor; [done|].
  destruct IH as [|b l Hss Hb]; [constructor|].
  apply HdRel_inv in Hd. constructor; [done|].
  apply Forall_cons in Hall as [[qb Hqb] Hall].
  rewrite Forall_forall in Hb, Hall. apply Forall_forall. intros x Hx.
  specialize (Hb x Hx). destruct (Hall x Hx) as [qx Hqx].
  rewrite Ha, Hqb, Hqx in *. simpl in *.
  apply Qle_bool_iff. apply Qle_bool_iff in Hd, Hb. eapply Qle_trans; eassumption.
Qed.

Lemma sorted_descending_intro c l :
  Forall (λ r, ∃ q, cell r c = VNum q) l →
  Sorted (λ a b, value_leb (cell b c) (cell a c) = true) l →
  sorted_descending c l.
Proof.
  intros Hall Hs. pose proof (sorted_desc_num c l Hall Hs) as Hss. clear Hs.
  unfold sorted_descending.
  induction Hss as [|x l Hss IH Hx]; intros i j a b Hij Hi Hj; [done|].
  apply Forall_cons in Hall as [[qx Hqx] Hall].
  destruct i as [|i], j as [|j]; simpl in *.
  - injection Hi as <-. injection Hj as <-. rewrite Hqx. simpl.
    apply Qle_bool_iff, Qle_refl.
  - injection Hi as <-. rewrite Forall_forall in Hx. apply Hx.
    by eapply list_elem_of_lookup_2.
  - lia.
  - apply (IH Hall i j); [lia|done..].
Qed.

(** *** One row per customer *)

Lemma customer_rows_proper S c c' :
  value_eqb c c' = true → customer_rows S c = customer_rows S c'.
Proof.
  intros Hc. unfold customer_rows. apply filter_ext. intros s.
  destruct (value_eqb (cell s "CustomerId") c) eqn:E1,
           (value_eqb (cell s "CustomerId") c') eqn:E2; try done.
  - by rewrite (value_eqb_trans _ _ _ E1 Hc) in E2.
  - rewrite value_eqb_sym in Hc. by rewrite (value_eqb_trans _ _ _ E2 Hc) in E1.
Qed.

Lemma filter_map_keys {B} (P : B → bool) (F : list value → B) q ks :
  (∀ k, In k ks → P (F k) = keys_eqb q k) →
  List.filter P (map F ks) = map F (List.filter (keys_eqb q) ks).
Proof.
  induction ks as [|k ks IH]; simpl; intros H; [done|].
  rewrite (H k) by auto. destruct (keys_eqb q k); simpl; rewrite IH; auto.
Qed.

Lemma filter_Permutation {B} (P : B → bool) l l' :
  l ≡ₚ l' → List.filter P l ≡ₚ List.filter P l'.
Proof.
  induction 1 as [|x a b _ IH|x y a|a b c _ IH1 _ IH2]; simpl.
  - done.
  - destruct (P x); by rewrite IH.
  - destruct (P x), (P y); try done. apply perm_swap.
  - by rewrite IH1.
Qed.

Lemma recency_days today dates x :
  next_day dates = Ok today →
  recency today x = days_from_to (time_max x) (one_day_after (time_max dates)).
Proof.
  unfold next_day. case_match; [|done]. intros [= <-].
  unfold recency, days_from_to, one_day_after.
  by destruct (time_max dates), (time_max x).
Qed.

(** C3: when rfm_analysis returns, each of R_Score, F_Score and M_Score of
    every row is an integer from 1 to 5 and RFM_Score is their sum, from 3
    to 15; two rows with the same Recency have the same R_Score, and
    likewise Frequency and F_Score, Monetary and M_Score; the rows come in
    non-increasing order of RFM_Score. *)
Theorem rfm_scores_ranges_and_order self h S R :
  h !! sales_df self = Some S →
  returned (rfm_analysis self h) = Ok R →
  (∀ r, r ∈ rows R →
     ∃ (a b c : Z) (t : Q),
       cell r "R_Score" = num a ∧ cell r "F_Score" = num b
       ∧ cell r "M_Score" = num c ∧ cell r "RFM_Score" = VNum t
       ∧ 1 ≤ a ≤ 5 ∧ 1 ≤ b ≤ 5 ∧ 1 ≤ c ≤ 5
       ∧ (t == inject_Z (a + b + c))%Q ∧ 3 ≤ a + b + c ≤ 15)
  ∧ (∀ r s, r ∈ rows R → s ∈ rows R →
       (value_eqb (cell r "Recency") (cell s "Recency") = true →
        cell r "R_Score" = cell s "R_Score")
       ∧ (value_eqb (cell r "Frequency") (cell s "Frequency") = true →
          cell r "F_Score" = cell s "F_Score")
       ∧ (value_eqb (cell r "Monetary") (cell s "Monetary") = true →
          cell r "M_Score" = cell s "M_Score"))
  ∧ sorted_descending "RFM_Score" (rows R).
Proof.
  intros HS Hret.
  destruct (rfm_analysis_run _ _ _ _ HS Hret)
    as (dates & today & T & fR & fF & fM & _ & _ & _ & Hrange & Hprop & Hperm & Hsorted).
  assert (∀ r, r ∈ rows R → ∃ r0, In r0 (rows T) ∧ r = scored_row fR fF fM r0) as Hrow.
  { intros r Hr%list_elem_of_In. apply (Permutation_in _ Hperm) in Hr.
    apply in_map_iff in Hr as (r0 & <- & Hr0). eauto. }
  split; [|split].
  - intros r Hr. destruct (Hrow r Hr) as (r0 & Hr0 & ->).
    destruct (scored_row_cells fR fF fM r0) as (_ & HR & HF & HM & Htot).
    destruct (Hrange r0 Hr0) as (Ha & Hb & Hc).
    exists (fR (cell r0 "Recency")), (fF (cell r0 "Frequency")),
           (fM (cell r0 "Monetary")).
    eexists. split; [exact HR|]. split; [exact HF|]. split; [exact HM|].
    split; [exact Htot|]. split; [exact Ha|]. split; [exact Hb|].
    split; [exact Hc|]. split; [|lia].
    by rewrite !inject_Z_plus.
  - intros r s Hr Hs.
    destruct (Hrow r Hr) as (r0 & _ & ->). destruct (Hrow s Hs) as (s0 & _ & ->).
    destruct (scored_row_cells fR fF fM r0)
      as ((_ & -> & -> & ->) & -> & -> & -> & _).
    destruct (scored_row_cells fR fF fM s0)
      as ((_ & -> & -> & ->) & -> & -> & -> & _).
    split; [|split]; intros Heq; destruct (Hprop _ _ Heq) as (H1 & H2 & H3);
      congruence.
  - apply sorted_descending_intro; [|exact Hsorted].
    apply Forall_forall. intros r Hr.
    destruct (Hrow r Hr) as (r0 & _ & ->).
    destruct (scored_row_cells fR fF fM r0) as (_ & _ & _ & _ & ->). eauto.
Qed.

(** C4: the table returned by rfm_analysis has exactly one row for every
    customer of the sales table and no other row; the Recency of that row
    is the number of whole days from the customer's latest invoice date to
    one day after the latest invoice date of the table, its Frequency the
    number of the customer's distinct invoice ids, and its Monetary the sum
    of the customer's LineTotal. *)
Theorem rfm_one_row_per_customer self h S R :
  h !! sales_df self = Some S →
  returned (rfm_analysis self h) = Ok R →
  (∀ s, s ∈ rows S → isna (cell s "CustomerId") = false →
     let c := cell s "CustomerId" in
     ∃ r, List.filter (λ r, value_eqb (cell r "CustomerId") c) (rows R) = [r]
          ∧ cell r "Recency"
            = days_from_to (latest_invoice_date (customer_rows S c))
                           (one_day_after (latest_invoice_date (rows S)))
          ∧ cell r "Frequency" = num (distinct_invoices (customer_rows S c))
          ∧ cell r "Monetary" = VNum (column_total "LineTotal" (customer_rows S c)))
  ∧ (∀ r, r ∈ rows R →
       ∃ s, s ∈ rows S ∧ isna (cell s "CustomerId") = false
            ∧ cell r "CustomerId" = cell s "CustomerId").
Proof.
  intros HS Hret.
  destruct (rfm_analysis_run _ _ _ _ HS Hret)
    as (dates & today & T & fR & fF & fM & Hd & Hn & HT & _ & _ & Hperm & _).
  apply groupby_agg_rfm_Ok in HT. rewrite HT, map_map in Hperm.
  apply df_getitem_Ok in Hd as [_ ->].
  assert (∀ k, In k (group_keys ["CustomerId"] S) →
               ∃ s', In s' (rows S) ∧ key_present ["CustomerId"] s' = true
                     ∧ k = key_of ["CustomerId"] s') as Hkeys.
  { intros k Hk. by apply group_keys_In. }
  assert (∀ s, key_present ["CustomerId"] s = negb (isna (cell s "CustomerId")))
    as Hpresent.
  { intros s. unfold key_present, key_of. simpl. by rewrite andb_true_r. }
  split.
  - intros s Hs%list_elem_of_In Hna c.
    assert (key_present ["CustomerId"] s = true) as Hp by (by rewrite Hpresent, Hna).
    pose proof (key_count_group_keys ["CustomerId"] S s Hs Hp) as Hcount.
    unfold key_count in Hcount.
    destruct (List.filter (keys_eqb (key_of ["CustomerId"] s))
                (group_keys ["CustomerId"] S)) as [|k [|??]] eqn:Ek; try done.
    assert (In k (List.filter (keys_eqb (key_of ["CustomerId"] s))
                    (group_keys ["CustomerId"] S))) as Hk by (rewrite Ek; by left).
    apply filter_In in Hk as [Hk Heq].
    destruct (Hkeys k Hk) as (s' & Hs' & Hp' & ->).
    assert (value_eqb (cell s' "CustomerId") c = true) as Hc.
    { unfold key_of in Heq. simpl in Heq. rewrite andb_true_r in Heq.
      by rewrite value_eqb_sym. }
    destruct (rfm_row_cells today S s' Hp') as (Hid & Hrec & Hfreq & Hmon).
    destruct (scored_row_cells fR fF fM (rfm_row today S (key_of ["CustomerId"] s')))
      as ((Hid' & Hrec' & Hfreq' & Hmon') & _).
    exists (scored_row fR fF fM (rfm_row today S (key_of ["CustomerId"] s'))).
    split; [|split; [|split]].
    + apply Permutation_singleton_r.
      rewrite (filter_Permutation _ _ _ Hperm).
      rewrite (filter_map_keys _ _ (key_of ["CustomerId"] s)), Ek; [done|].
      intros k' Hk'. destruct (Hkeys k' Hk') as (s'' & _ & Hp'' & ->).
      destruct (scored_row_cells fR fF fM (rfm_row today S (key_of ["CustomerId"] s'')))
        as ((-> & _) & _).
      destruct (rfm_row_cells today S s'' Hp'') as (-> & _).
      unfold key_of. simpl. rewrite andb_true_r. fold c. apply value_eqb_sym.
    + rewrite Hrec', Hrec, (recency_days _ _ _ Hn).
      by rewrite (customer_rows_proper _ _ _ Hc).
    + rewrite Hfreq', Hfreq. by rewrite (customer_rows_proper _ _ _ Hc).
    + rewrite Hmon', Hmon. by rewrite (customer_rows_proper _ _ _ Hc).
  - intros r Hr%list_elem_of_In. apply (Permutation_in _ Hperm) in Hr.
    apply in_map_iff in Hr as (k & <- & Hk).
    destruct (Hkeys k Hk) as (s' & Hs' & Hp' & ->).
    exists s'. split; [by apply list_elem_of_In|]. split.
    + rewrite Hpresent in Hp'. by destruct (isna _).
    + destruct (scored_row_cells fR fF fM (rfm_row today S (key_of ["CustomerId"] s')))
        as ((-> & _) & _).
      by destruct (rfm_row_cells today S s' Hp') as (-> & _).
Qed.

Lemma rfm_scores_ranges_and_order_witness :
  [ex_sales_rfm] !! sales_df ex_rfm_analyzer = Some ex_sales_rfm
  ∧ returned (rfm_analysis ex_rfm_analyzer [ex_sales_rfm]) = Ok ex_rfm_table
  ∧ sorted_descending "RFM_Score" (rows ex_rfm_table).
Proof.
  split; [reflexivity|]. split; [vm_compute; reflexivity|].
  apply (rfm_scores_ranges_and_order ex_rfm_analyzer [ex_sales_rfm]
           ex_sales_rfm ex_rfm_table);
    [reflexivity | vm_compute; reflexivity].
Defined.

Lemma rfm_one_row_per_customer_witness :
  [ex_sales_rfm] !! sales_df ex_rfm_analyzer = Some ex_sales_rfm
  ∧ returned (rfm_analysis ex_rfm_analyzer [ex_sales_rfm]) = Ok ex_rfm_table
  ∧ ∀ r, r ∈ rows ex_rfm_table →
         ∃ s, s ∈ rows ex_sales_rfm ∧ isna (cell s "CustomerId") = false
              ∧ cell r "CustomerId" = cell s "CustomerId".
Proof.
  split; [reflexivity|]. split; [vm_compute; reflexivity|].
  apply (rfm_one_row_per_customer ex_rfm_analyzer [ex_sales_rfm]
           ex_sales_rfm ex_rfm_table);
    [reflexivity | vm_compute; reflexivity].
Defined.

(** The scores of the three customers of [ex_sales_rfm]. *)
Example rfm_example_scores :
  map (λ r, (cell r "CustomerId", cell r "Recency", cell r "Frequency",
             cell r "Monetary", cell r "RFM_Score")) (rows ex_rfm_table)
  = [ (VStr "B", num 1, num 5, VNum 500, VNum 13);
      (VStr "A", num 10, num 1, VNum 100, VNum 7);
      (VStr "C", num 100, num 1, VNum 50, VNum 3) ].
Proof. vm_compute. reflexivity. Qed.

(** * modeling.py: the catalog and the customer dimension *)

Ltac joined_table h0 Hfirst Htab :=
  wp_step h0; wp_step h0;
  lazymatch goal with
  | H : tables _ !! ?n = Some ?l |- _ =>
      first
        [ pose proof (table_value_lookup _ _ _ _ _ Hfirst H); clear H
        | let T := fresh "T" in let HT := fresh "HT" in let Hu := fresh "Hu" in
          edestruct (Htab n _ l
            ltac:(repeat first [apply list_elem_of_here|apply list_elem_of_further]) H)
            as (T & HT & Hu); clear H ]
  end.

Lemma joined_tables_unique self h joins :
  forallb (λ nk : string * string,
             match table_value self h nk.1 with
             | Some T => unique_key nk.2 T
             | None => false
             end) joins = true →
  ∀ name key l, (name, key) ∈ joins → tables self !! name = Some l →
    ∃ T, h !! l = Some T ∧ unique_key key T = true.
Proof.
  intros Hkeys name key l Hin Hl. rewrite forallb_forall in Hkeys.
  apply list_elem_of_In in Hin. specialize (Hkeys (name, key) Hin).
  cbn [fst snd] in Hkeys. unfold table_value in Hkeys. rewrite Hl in Hkeys.
  simpl in Hkeys. destruct (h !! l) as [T|]; [|discriminate Hkeys]. by exists T.
Qed.

Lemma catalog_nrows self h tracks df :
  table_value self h "track" = Some tracks →
  catalog_keys_unique self h = true →
  returned (catalog self h) = Ok df →
  nrows df = nrows tracks.
Proof.
  intros Htracks Hkeys Hret.
  pose proof (joined_tables_unique _ _ _ Hkeys) as Htab. clear Hkeys.
  eapply (returned_wp _ _ _ (λ V, nrows V = nrows tracks)); [exact Hret|].
  clear Hret. unfold catalog.
  wp_step h. wp_step h. joined_table h Htracks Htab. wp_step h. wp_step h.
  do 4 (joined_table h Htracks Htab; wp_step h; wp_step h).
  nrows_facts.
  repeat (wp_step h; nrows_facts).
  all: intros V' HV'; erewrite owns_lookup in HV' by eauto; simplify_eq; congruence.
Qed.

Lemma duration_rows (rs : list (gmap string value)) mins :
  mapR (value_div 60000) (map (λ r, cell r "Milliseconds") rs) = Ok mins →
  Forall (λ r, value_div 60000 (cell r "Milliseconds") = Ok (cell r "DurationMin"))
         (zip_with (λ r v, <["DurationMin" := v]> r) rs mins).
Proof.
  revert mins. induction rs as [|r rs IH]; intros mins; simpl.
  - intros [= <-]. constructor.
  - destruct (value_div 60000 (cell r "Milliseconds")) as [v|] eqn:Ev; [|done].
    cbn [mbind result_bind].
    destruct (mapR _ _) as [vs|] eqn:Evs; [|done]. cbn [mbind result_bind].
    intros [= <-]. simpl. constructor; [|by apply IH].
    rewrite cell_insert, cell_insert_ne by done. exact Ev.
Qed.

Lemma catalog_duration self h df :
  returned (catalog self h) = Ok df →
  has_column "Milliseconds" df = true →
  duration_spec df.
Proof.
  intros Hret.
  eapply (returned_wp _ _ _ (λ V, has_column "Milliseconds" V = true → duration_spec V));
    [exact Hret|].
  clear Hret. unfold catalog.
  repeat wp_step_any h.
  - returned_owned. intros _.
    match goal with
    | Hg : df_getitem "Milliseconds" _ = Ok _, Hm : mapR _ _ = Ok _,
      Hs : df_setitem "DurationMin" _ _ = Ok _ |- _ =>
        apply df_getitem_Ok in Hg as [_ ->];
        split; [exact (has_column_setitem_same _ _ _ _ Hs)|];
        apply df_setitem_Ok in Hs as [-> _]; by apply duration_rows
    end.
  - returned_owned. congruence.
Qed.

Ltac raises_run :=
  lazymatch goal with
  | |- raises_only (_ ≫= _) _ => apply raises_bind; [|intros ?]
  | |- raises_only (mret _) _ => apply raises_ret
  | |- raises_only (if ?b then _ else _) _ => destruct b
  | |- raises_only (table _ _) _ => apply raises_table; reflexivity
  | |- raises_only (copy _) _ => apply raises_copy; assumption
  | |- raises_only (merge _ _ _ _ _ _) _ =>
      apply raises_merge; [assumption|reflexivity..]
  | |- raises_only (getitem _ _) _ => apply raises_getitem; [assumption|reflexivity]
  | |- raises_only (setitem _ _ _) _ => apply raises_setitem; assumption
  | |- raises_only (in_columns _ _) _ => apply raises_in_columns; assumption
  | |- raises_only (deref _) _ => apply raises_deref; assumption
  end.

Lemma not_missing_tables_error e :
  (∀ msg, e ≠ KeyError msg) → is_missing_tables_error e = false.
Proof. intros He. destruct e; [by destruct (He msg)|done..]. Qed.

Lemma raises_mapR_div k s e :
  mapR (value_div k) s = Raise e → ∀ msg, e ≠ KeyError msg.
Proof.
  induction s as [|v s IH]; simpl; [done|].
  destruct v; simpl; try (intros [= <-]; done);
    destruct (mapR _ s); simpl; try done; by apply IH.
Qed.

Lemma catalog_raises self :
  missing_tables self catalog_required = [] →
  raises_only (catalog self) (λ e, is_missing_tables_error e = false).
Proof.
  intros Hnone. pose proof not_missing_tables_error as Pother.
  unfold catalog.
  apply raises_bind.
  { unfold _check_required_tables. rewrite Hnone. apply raises_ret. }
  intros [].
  repeat raises_run.
  apply raises_lift; intros e He; apply Pother. by eapply raises_mapR_div.
Qed.

Lemma check_required_tables_missing self required h :
  missing_tables self required ≠ [] →
  _check_required_tables self required h
  = (Raise (KeyError ("Missing required tables: "
                      +:+ String.concat ", " (missing_tables self required))), h).
Proof.
  intros Hm. unfold _check_required_tables.
  by destruct (missing_tables self required).
Qed.

(** ** A left merge keeps the left rows *)

Lemma cell_list_to_map_app (f : string → value) cols (rest : list (string * value)) c :
  c ∈ cols →
  cell (list_to_map (map (λ c, (c, f c)) cols ++ rest)) c = f c.
Proof.
  intros Hc. unfold cell.
  induction cols as [|c' cols IH]; [by apply elem_of_nil in Hc|].
  simpl. destruct (decide (c' = c)) as [->|Hne].
  - by rewrite lookup_insert_eq.
  - rewrite lookup_insert_ne by done. apply IH.
    apply elem_of_cons in Hc as [->|Hc]; done.
Qed.

Lemma suffixed_empty overlap c : suffixed overlap "" c = c.
Proof. unfold suffixed. case_bool_decide; [apply string_app_nil_r|done]. Qed.

Lemma merge_row_left lcols rcols overlap rs lr rr :
  agrees_on lcols lr (merge_row lcols rcols overlap "" rs lr rr).
Proof.
  intros c Hc. unfold merge_row.
  rewrite (map_ext _ (λ c, (c, cell lr c))) by (intros; by rewrite suffixed_empty).
  by apply (cell_list_to_map_app (cell lr)).
Qed.

Lemma df_merge_left_rows left right lk rk rs V :
  unique_key rk right = true →
  df_merge left right lk rk "" rs = Ok V →
  Forall2 (agrees_on (columns left)) (rows left) (rows V).
Proof.
  intros Hu. unfold df_merge.
  destruct (negb (has_column rk right)); [done|].
  destruct (negb (has_column lk left)); [done|].
  destruct (_ && _); [done|]. intros [= <-]. cbn [rows].
  induction (rows left) as [|lr ls IH]; [constructor|].
  cbn [flat_map].
  pose proof (distinct_matches (cell lr lk) (rows right) rk Hu) as Hlen.
  unfold merge_matches.
  destruct (List.filter _ (rows right)) as [|m [|m' ms]]; simpl in *; [..|lia];
    (constructor; [apply merge_row_left|exact IH]).
Qed.

Lemma agrees_on_trans cols a b c :
  agrees_on cols a b → agrees_on cols b c → agrees_on cols a c.
Proof. intros H1 H2 x Hx. by rewrite (H2 x Hx), (H1 x Hx). Qed.

Lemma agrees_on_subseteq cols cols' a b :
  cols' ⊆ cols → agrees_on cols a b → agrees_on cols' a b.
Proof. intros Hsub H x Hx. apply H, Hsub, Hx. Qed.

Lemma df_merge_columns_left left right lk rk rs V :
  df_merge left right lk rk "" rs = Ok V → columns left ⊆ columns V.
Proof.
  unfold df_merge.
  destruct (negb (has_column rk right)); [done|].
  destruct (negb (has_column lk left)); [done|].
  destruct (_ && _); [done|]. intros [= <-]. cbn [columns].
  rewrite (map_ext _ id) by (intros; apply suffixed_empty). rewrite map_id.
  intros c Hc. apply elem_of_app. by left.
Qed.

Lemma customers_dim_rows self h C E df :
  table_value self h "customer" = Some C →
  table_value self h "employee" = Some E →
  returned (customers_dim self h) = Ok df →
  (has_column "SupportRepId" C = false → df = C)
  ∧ (has_column "SupportRepId" C = true → unique_key "EmployeeId" E = true →
     columns C ⊆ columns df
     ∧ Forall2 (agrees_on (columns C)) (rows C) (rows df)).
Proof.
  intros HC HE Hret.
  eapply (returned_wp _ _ _ (λ V,
            (has_column "SupportRepId" C = false → V = C)
            ∧ (has_column "SupportRepId" C = true → unique_key "EmployeeId" E = true →
               columns C ⊆ columns V
               ∧ Forall2 (agrees_on (columns C)) (rows C) (rows V))));
    [exact Hret|].
  clear Hret. unfold customers_dim.
  wp_step h. wp_step h. wp_step h. wp_step h.
  match goal with
  | H : tables _ !! "customer" = Some _ |- _ =>
      pose proof (table_value_lookup _ _ _ _ _ HC H); clear H
  end.
  wp_step h. wp_step h. wp_step h. wp_step h. wp_step h.
  - wp_step h. wp_step h.
    match goal with
    | H : tables _ !! "employee" = Some _ |- _ =>
        pose proof (table_value_lookup _ _ _ _ _ HE H); clear H
    end.
    wp_step h. returned_owned.
    match goal with H : _ && _ = true |- _ => apply andb_true_iff in H as [_ Hrep] end.
    split; [congruence|]. intros _ Hu. split.
    + by eapply df_merge_columns_left.
    + by eapply df_merge_left_rows.
  - wp_step h. returned_owned.
    match goal with H : _ && _ = false |- _ => rename H into Hno end.
    split; [done|]. intros Hrep _. rewrite Hrep, andb_true_r in Hno.
    apply bool_decide_eq_false in Hno. exfalso. apply Hno.
    unfold table_value in HE. destruct (tables self !! "employee"); [by eexists|done].
Qed.

(** ** sales_line_items keeps the cells of the invoice lines *)

Lemma Forall2_trans_rel {A} (P Q R : A → A → Prop) l1 l2 l3 :
  (∀ a b c, P a b → Q b c → R a c) →
  Forall2 P l1 l2 → Forall2 Q l2 l3 → Forall2 R l1 l3.
Proof.
  intros HPQ H12. revert l3. induction H12 as [|a b l1 l2 Hab _ IH]; intros l3 H23.
  - apply Forall2_nil_inv_l in H23 as ->. constructor.
  - apply Forall2_cons_inv_l in H23 as (c & l3' & Hbc & H23 & ->).
    constructor; [by eapply HPQ|by apply IH].
Qed.

Lemma keeps_refl lines : keeps (columns lines) lines lines.
Proof. split; [done|]. apply Forall2_same_length_lookup_2; [done|].
  intros i x y Hx Hy. rewrite Hx in Hy. injection Hy as <-. by intros c _. Qed.

Lemma keeps_subseteq K K' lines V : K' ⊆ K → keeps K lines V → keeps K' lines V.
Proof.
  intros Hsub [Hc Hr]. split; [by etrans|].
  eapply Forall2_impl; [exact Hr|]. intros a b. by apply agrees_on_subseteq.
Qed.

Lemma keeps_merge K lines V T lk rk rs V' :
  keeps K lines V →
  unique_key rk T = true →
  df_merge V T lk rk "" rs = Ok V' →
  keeps K lines V'.
Proof.
  intros [Hc Hr] Hu Hm. split.
  - etrans; [exact Hc|]. by eapply df_merge_columns_left.
  - eapply (Forall2_trans_rel _ (agrees_on (columns V))); [|exact Hr|].
    + intros a b c Hab Hbc. eapply agrees_on_trans; [exact Hab|].
      by eapply agrees_on_subseteq.
    + by eapply df_merge_left_rows.
Qed.

Lemma Forall2_zip_with_insert (P : gmap string value → gmap string value → Prop)
    c (l1 l2 : list (gmap string value)) (s : list value) :
  (∀ a b v, P a b → P a (<[c := v]> b)) →
  length s = length l2 →
  Forall2 P l1 l2 →
  Forall2 P l1 (zip_with (λ r v, <[c := v]> r) l2 s).
Proof.
  intros HP Hlen H12. revert s Hlen.
  induction H12 as [|a b l1 l2 Hab _ IH]; intros s Hlen.
  - destruct s; constructor.
  - destruct s as [|v s]; [done|]. simpl in *.
    constructor; [by apply HP|]. apply IH. lia.
Qed.

Lemma keeps_setitem K lines V c s W :
  c ∉ K →
  keeps K lines V →
  df_setitem c s V = Ok W →
  keeps K lines W.
Proof.
  intros Hc [Hcols Hr]. unfold df_setitem. case_bool_decide as Hlen; [|done].
  intros [= <-]. split; cbn [columns rows].
  - destruct (has_column c V); [done|]. intros x Hx. apply elem_of_app. left. by apply Hcols.
  - apply Forall2_zip_with_insert; [|done..].
    intros a b v Hab x Hx. rewrite cell_insert_ne; [by apply Hab|].
    intros ->. by apply Hc.
Qed.

Lemma keeps_project K lines V cols W :
  keeps K lines V →
  df_project cols V = Ok W →
  keeps (List.filter (λ c, bool_decide (c ∈ columns W)) K) lines W.
Proof.
  intros [Hcols Hr] HW. apply df_project_Ok in HW as ->. split; cbn [columns rows].
  - intros c Hc. apply list_elem_of_In, filter_In in Hc as [_ Hc].
    by apply bool_decide_eq_true in Hc.
  - apply Forall2_fmap_r. eapply Forall2_impl; [exact Hr|].
    intros a b Hab c Hc. apply list_elem_of_In, filter_In in Hc as [Hc Hin].
    apply bool_decide_eq_true in Hin. apply list_elem_of_In in Hc.
    rewrite (cell_project (cell b)) by done. by apply Hab.
Qed.

Lemma computed_not_kept c (cols : list string) :
  c ∈ computed_columns →
  c ∉ List.filter (λ c, bool_decide (c ∉ computed_columns)) cols.
Proof.
  intros Hc Hin. apply list_elem_of_In, filter_In in Hin as [_ Hin].
  by apply bool_decide_eq_true in Hin.
Qed.

Ltac keeps_facts :=
  repeat match goal with
         | Hk : keeps ?K ?lines ?V, Hu : unique_key ?rk ?T = true,
           H : df_merge ?V ?T _ ?rk "" _ = Ok _ |- _ =>
             pose proof (keeps_merge _ _ _ _ _ _ _ _ Hk Hu H); clear H Hk
         | Hk : keeps ?K ?lines ?V, H : df_setitem ?c _ ?V = Ok _ |- _ =>
             apply (keeps_setitem K lines V c) in H;
             [clear Hk
             |apply computed_not_kept; unfold computed_columns; elem_of_list
             |exact Hk]
         end.

Lemma sales_line_items_keeps (parse_datetime : value → option Z)
    (num_mul : Q → Q → Q) (obj_mul : value → value → option value)
    self h lines df :
  table_value self h "invoiceline" = Some lines →
  joined_keys_unique self h = true →
  returned (sales_line_items parse_datetime num_mul obj_mul self h) = Ok df →
  keeps (List.filter (λ c, bool_decide (c ∈ columns df))
           (List.filter (λ c, bool_decide (c ∉ computed_columns)) (columns lines)))
        lines df.
Proof.
  intros Hlines Hkeys Hret.
  pose proof (joined_tables_unique _ _ _ Hkeys) as Htab. clear Hkeys.
  assert (keeps (List.filter (λ c, bool_decide (c ∉ computed_columns)) (columns lines))
                lines lines) as Hk0.
  { eapply keeps_subseteq; [|apply keeps_refl].
    intros c Hc. by apply list_elem_of_In, filter_In in Hc as [Hc%list_elem_of_In _]. }
  eapply (returned_wp _ _ _ (λ V,
            keeps (List.filter (λ c, bool_decide (c ∈ columns V))
                     (List.filter (λ c, bool_decide (c ∉ computed_columns))
                        (columns lines))) lines V));
    [exact Hret|].
  clear Hret. unfold sales_line_items.
  wp_step h. wp_step h. joined_table h Hlines Htab. wp_step h. wp_step h.
  do 7 (joined_table h Hlines Htab; wp_step h; wp_step h).
  keeps_facts.
  repeat (wp_step h; keeps_facts).
  all: returned_owned.
  all: match goal with
       | Hk : keeps _ _ ?V, H : df_project _ ?V = Ok _ |- _ =>
           exact (keeps_project _ _ _ _ _ Hk H)
       end.
Qed.

(** ** The columns of sales_line_items *)

Lemma sublist_List_filter {A} (f : A → bool) (l : list A) :
  sublist (List.filter f l) l.
Proof.
  induction l as [|x l IH]; simpl; [constructor|].
  destruct (f x); by constructor.
Qed.

Lemma sales_line_items_columns (parse_datetime : value → option Z)
    (num_mul : Q → Q → Q) (obj_mul : value → value → option value) self h df :
  returned (sales_line_items parse_datetime num_mul obj_mul self h) = Ok df →
  sublist (columns df) important_cols.
Proof.
  intros Hret.
  eapply (returned_wp _ _ _ (λ V, sublist (columns V) important_cols)); [exact Hret|].
  clear Hret. unfold sales_line_items.
  repeat wp_step_any h.
  all: returned_owned.
  all: match goal with
       | H : df_project _ _ = Ok _ |- _ =>
           apply df_project_Ok in H; rewrite H; cbn [columns];
           apply sublist_List_filter
       end.
Qed.

(** ** The date parts of sales_line_items *)

Lemma datetime_dtype_cells (rs : list (gmap string value)) c :
  is_datetime64_any_dtype (map (λ r, cell r c) rs) = true →
  Forall (λ r, is_time_or_null (cell r c)) rs.
Proof.
  unfold is_datetime64_any_dtype. rewrite forallb_forall. intros H.
  apply Forall_forall. intros r Hr. apply list_elem_of_In in Hr.
  specialize (H (cell r c) (in_map _ _ _ Hr)). by destruct (cell r c).
Qed.

Lemma derived_intro c f V d a W :
  c ≠ "InvoiceDate" →
  df_getitem "InvoiceDate" V = Ok d →
  dt f d = Ok a →
  df_setitem c a V = Ok W →
  derived c f W.
Proof.
  intros Hc Hd Ha HW. pose proof Hd as [Hcol ->]%df_getitem_Ok.
  apply dt_Ok in Ha as [Hdt ->]. split.
  - split; [by eapply has_column_setitem_same|by eapply has_column_setitem].
  - apply df_setitem_Ok in HW as [-> _]. rewrite map_map, zip_with_map_r.
    apply Forall_map. apply datetime_dtype_cells in Hdt.
    eapply Forall_impl; [exact Hdt|]. intros r Hr. cbv beta.
    rewrite cell_insert, cell_insert_ne by done. done.
Qed.

Lemma derived_setitem c f V c' s W :
  c' ≠ c → c' ≠ "InvoiceDate" →
  derived c f V → df_setitem c' s V = Ok W → derived c f W.
Proof.
  intros Hc Hd [[H1 H2] Hr] HW. split.
  - split; by eapply has_column_setitem.
  - pose proof HW as Hlen. unfold df_setitem in Hlen.
    case_bool_decide as Hl; [|done]. clear Hlen.
    apply df_setitem_Ok in HW as [-> _].
    revert s Hl. unfold nrows. induction Hr as [|r rs Hr _ IH]; intros s Hl.
    + destruct s; constructor.
    + destruct s as [|v s]; [done|]. simpl in *.
      constructor; [|apply IH; lia].
      by rewrite !cell_insert_ne by done.
Qed.

Lemma derived_project c f V cols W :
  c ∈ cols → "InvoiceDate" ∈ cols →
  derived c f V → df_project cols V = Ok W → derived c f W.
Proof.
  intros Hc Hd [_ Hr] HW. apply df_project_Ok in HW as ->. split.
  - unfold has_column. cbn [columns]. by rewrite !bool_decide_eq_true.
  - cbn [rows]. apply Forall_map. eapply Forall_impl; [exact Hr|].
    intros r Hrow. cbv beta.
    by rewrite !(cell_project (cell r)) by done.
Qed.

Lemma elem_of_List_filter {A} (f : A → bool) (l : list A) x :
  x ∈ List.filter f l ↔ x ∈ l ∧ f x = true.
Proof. by rewrite !list_elem_of_In, filter_In. Qed.

Lemma derived_project_filter c f V cols0 W :
  c ∈ cols0 → "InvoiceDate" ∈ cols0 →
  derived c f V →
  df_project (List.filter (λ c, has_column c V) cols0) V = Ok W →
  derived c f W.
Proof.
  intros Hc Hd Hder. destruct Hder as [[H1 H2] Hr].
  apply derived_project; [by apply elem_of_List_filter..|done].
Qed.

Lemma project_filter_has_column c V cols0 W :
  df_project (List.filter (λ c, has_column c V) cols0) V = Ok W →
  has_column c W = true → has_column c V = true.
Proof.
  intros ->%df_project_Ok. unfold has_column at 1. cbn [columns].
  rewrite bool_decide_eq_true. by intros [_ ?]%elem_of_List_filter.
Qed.

Ltac derived_facts :=
  repeat match goal with
         | Hder : derived ?c ?f ?V, Hs : df_setitem ?c' _ ?V = Ok ?W |- _ =>
             pose proof (derived_setitem c f V c' _ W ltac:(discriminate)
                           ltac:(discriminate) Hder Hs);
             clear Hder
         end;
  try match goal with
      | Hg : df_getitem "InvoiceDate" ?V = Ok ?d, Hdt : dt ?f ?d = Ok ?a,
        Hs : df_setitem ?c ?a ?V = Ok ?W |- _ =>
          pose proof (derived_intro c f V d a W ltac:(discriminate) Hg Hdt Hs);
          clear Hdt
      end.

Lemma sales_line_items_date_parts (parse_datetime : value → option Z)
    (num_mul : Q → Q → Q) (obj_mul : value → value → option value) self h df :
  returned (sales_line_items parse_datetime num_mul obj_mul self h) = Ok df →
  has_column "InvoiceDate" df = true →
  date_parts_spec df.
Proof.
  intros Hret.
  eapply (returned_wp _ _ _ (λ V, has_column "InvoiceDate" V = true → date_parts_spec V));
    [exact Hret|].
  clear Hret. unfold sales_line_items.
  repeat (wp_step_any h; derived_facts).
  all: returned_owned.
  all: intros Hdate.
  all: try (exfalso;
            match goal with
            | H : df_project _ _ = Ok _ |- _ =>
                apply (project_filter_has_column _ _ _ _ H) in Hdate; congruence
            end).
  all: unfold date_parts_spec; split; [|split; [|split; [|split]]].
  all: match goal with
       | H : df_project _ ?V = Ok _ |- derived ?c ?f _ =>
           match goal with
           | Hder : derived c f V |- _ =>
               apply (derived_project_filter c f V important_cols _
                        ltac:(unfold important_cols; elem_of_list)
                        ltac:(unfold important_cols; elem_of_list) Hder H)
           end
       end.
Qed.

(** ** What the operations of the Modeler return *)

(** X1: When each of the four tables [catalog] joins ([album], [artist], [genre],
    [mediatype]) has a unique join key, the catalog has as many rows as the
    [track] table. *)
Theorem catalog_row_count self (h : heap) tracks df :
  table_value self h "track" = Some tracks →
  catalog_keys_unique self h = true →
  returned (catalog self h) = Ok df →
  nrows df = nrows tracks.
Proof. apply catalog_nrows. Qed.

Lemma catalog_row_count_witness :
  returned (catalog ex_model ex_heap) = Ok ex_catalog
  ∧ nrows ex_catalog = nrows ex_track.
Proof.
  split; [vm_compute; reflexivity|].
  apply (catalog_row_count ex_model ex_heap ex_track ex_catalog);
    [reflexivity | vm_compute; reflexivity | vm_compute; reflexivity].
Defined.

(** X2: A catalog that has the column [Milliseconds] has the column
    [DurationMin], which is [Milliseconds] divided by 60000 in every row (a
    missing duration stays missing). *)
Theorem catalog_duration_minutes self (h : heap) df :
  returned (catalog self h) = Ok df →
  "Milliseconds" ∈ columns df →
  "DurationMin" ∈ columns df
  ∧ ∀ r, r ∈ rows df →
      value_div 60000 (cell r "Milliseconds") = Ok (cell r "DurationMin").
Proof.
  intros Hret Hms.
  destruct (catalog_duration _ _ _ Hret) as [Hd Hrows].
  { unfold has_column. by apply bool_decide_eq_true. }
  split; [by apply bool_decide_eq_true in Hd|]. by apply Forall_forall.
Qed.

Lemma catalog_duration_minutes_witness :
  "DurationMin" ∈ columns ex_catalog
  ∧ ∀ r, r ∈ rows ex_catalog →
      value_div 60000 (cell r "Milliseconds") = Ok (cell r "DurationMin").
Proof.
  apply (catalog_duration_minutes ex_model ex_heap ex_catalog);
    [vm_compute; reflexivity | elem_of_list].
Defined.

(** X3: When a table [catalog] requires ([track], [album], [artist], [genre],
    [mediatype]) is absent, the call raises the missing-tables [KeyError] in
    the heap it started in, and the message names every absent required
    table; when none is absent, no exception it may raise is that error. *)
Theorem catalog_missing_tables self (h : heap) :
  ((∃ t, t ∈ catalog_required ∧ tables self !! t = None) →
     ∃ msg, catalog self h = (Raise (KeyError msg), h)
       ∧ msg = "Missing required tables: "
               +:+ String.concat ", " (missing_tables self catalog_required)
       ∧ is_missing_tables_error (KeyError msg) = true
       ∧ ∀ t, t ∈ catalog_required → tables self !! t = None → mentions msg t)
  ∧ ((∀ t, t ∈ catalog_required → is_Some (tables self !! t)) →
     ∀ e, (catalog self h).1 = Raise e → is_missing_tables_error e = false).
Proof.
  split.
  - intros (t0 & Ht0 & Hnone).
    assert (missing_tables self catalog_required ≠ []) as Hm.
    { intros Hnil.
      assert (t0 ∈ missing_tables self catalog_required) as Hin
        by by apply missing_tables_elem.
      rewrite Hnil in Hin. by apply elem_of_nil in Hin. }
    eexists. split; [|split; [reflexivity|split]].
    + unfold catalog. by rewrite bind_run, (check_required_tables_missing _ _ _ Hm).
    + apply prefix_app.
    + intros t Ht Htnone. apply mentions_app_r, mentions_concat.
      by apply missing_tables_elem.
  - intros Hall e He. eapply catalog_raises; [|exact He].
    by apply missing_tables_nil.
Qed.

Lemma catalog_missing_tables_witness :
  (∃ msg, catalog ex_model_customers ex_heap = (Raise (KeyError msg), ex_heap)
     ∧ mentions msg "track" ∧ mentions msg "genre")
  ∧ (∀ e, (catalog ex_model ex_heap).1 = Raise e →
       is_missing_tables_error e = false).
Proof.
  split.
  - destruct (proj1 (catalog_missing_tables ex_model_customers ex_heap))
      as (msg & Hrun & _ & _ & Hall).
    + exists "track". split; [unfold catalog_required; elem_of_list|reflexivity].
    + exists msg. split; [exact Hrun|]. split; apply Hall;
        first [reflexivity | unfold catalog_required; elem_of_list].
  - apply (proj2 (catalog_missing_tables ex_model ex_heap)).
    intros t Ht. unfold catalog_required in Ht.
    repeat (apply elem_of_cons in Ht as [->|Ht]; [by eexists|]).
    by apply elem_of_nil in Ht.
Defined.

(** X4: With the [customer] and [employee] tables loaded, [customers_dim] returns
    the customers, one row each and in their order: a copy of the [customer]
    table when it has no column [SupportRepId], and otherwise, when
    [EmployeeId] is unique in [employee], a table that has every column of
    [customer] with the cells of the customer in each row. *)
Theorem customers_dim_keeps_customers self (h : heap) C E df :
  table_value self h "customer" = Some C →
  table_value self h "employee" = Some E →
  returned (customers_dim self h) = Ok df →
  ("SupportRepId" ∉ columns C → df = C)
  ∧ ("SupportRepId" ∈ columns C → unique_key "EmployeeId" E = true →
     columns C ⊆ columns df
     ∧ Forall2 (λ c r, ∀ col, col ∈ columns C → cell r col = cell c col)
               (rows C) (rows df)).
Proof.
  intros HC HE Hret.
  destruct (customers_dim_rows _ _ _ _ _ HC HE Hret) as [Hno Hyes]. split.
  - intros Hcol. apply Hno. unfold has_column. by apply bool_decide_eq_false.
  - intros Hcol Hu. apply Hyes; [|done]. unfold has_column. by apply bool_decide_eq_true.
Qed.

Lemma customers_dim_keeps_customers_witness :
  match returned (customers_dim ex_model_staff ex_staff_heap) with
  | Ok df =>
      Forall2 (λ c r, ∀ col, col ∈ columns ex_customer → cell r col = cell c col)
              (rows ex_customer) (rows df)
  | Raise _ => False
  end.
Proof.
  destruct (returned (customers_dim ex_model_staff ex_staff_heap)) as [df|e] eqn:E.
  - apply (proj2 (customers_dim_keeps_customers ex_model_staff ex_staff_heap
                    ex_customer ex_employee df eq_refl eq_refl E));
      [unfold ex_customer; cbn [columns]; elem_of_list | vm_compute; reflexivity].
  - vm_compute in E. discriminate E.
Defined.

(** X5: The columns of the table [sales_line_items] returns are columns of its
    list [important_cols], in the order of that list. *)
Theorem sales_line_items_column_order (parse_datetime : value → option Z)
    (num_mul : Q → Q → Q) (obj_mul : value → value → option value)
    self (h : heap) df :
  returned (sales_line_items parse_datetime num_mul obj_mul self h) = Ok df →
  sublist (columns df) important_cols.
Proof. apply sales_line_items_columns. Qed.

Lemma sales_line_items_column_order_witness :
  returned (sales_line_items ex_parse float64_mul ex_obj_mul ex_model ex_heap)
  = Ok ex_sales
  ∧ sublist (columns ex_sales) important_cols.
Proof.
  split; [vm_compute; reflexivity|].
  apply (sales_line_items_column_order ex_parse float64_mul ex_obj_mul ex_model
           ex_heap ex_sales).
  vm_compute. reflexivity.
Defined.

(** X6: When the join keys are unique, the rows [sales_line_items] returns are
    the invoice lines, one for one and in their order: a column of
    [invoiceline] that is in the result, and is not one the method computes,
    holds in each row the cell of the invoice line (so [UnitPrice] is the
    price of the invoice line, not that of the track). *)
Theorem sales_line_items_keeps_invoice_lines (parse_datetime : value → option Z)
    (num_mul : Q → Q → Q) (obj_mul : value → value → option value)
    self (h : heap) lines df c :
  table_value self h "invoiceline" = Some lines →
  joined_keys_unique self h = true →
  returned (sales_line_items parse_datetime num_mul obj_mul self h) = Ok df →
  c ∈ columns lines → c ∈ columns df → c ∉ computed_columns →
  Forall2 (λ line r, cell r c = cell line c) (rows lines) (rows df).
Proof.
  intros Hlines Hkeys Hret Hc Hdf Hno.
  destruct (sales_line_items_keeps _ _ _ _ _ _ _ Hlines Hkeys Hret) as [_ Hrows].
  eapply Forall2_impl; [exact Hrows|]. intros line r Hagree. apply Hagree.
  apply elem_of_List_filter. split; [|by apply bool_decide_eq_true].
  apply elem_of_List_filter. split; [done|by apply bool_decide_eq_true].
Qed.

Lemma sales_line_items_keeps_invoice_lines_witness :
  Forall2 (λ line r, cell r "UnitPrice" = cell line "UnitPrice")
          (rows ex_invoiceline) (rows ex_sales).
Proof.
  apply (sales_line_items_keeps_invoice_lines ex_parse float64_mul ex_obj_mul
           ex_model ex_heap ex_invoiceline ex_sales "UnitPrice");
    [reflexivity | vm_compute; reflexivity | vm_compute; reflexivity
    | unfold ex_invoiceline; cbn [columns]; elem_of_list
    | unfold ex_sales; cbn [columns]; elem_of_list
    | unfold computed_columns; not_in_list].
Defined.

(** X7: In a table [sales_line_items] returns that has the column [InvoiceDate],
    that column holds timestamps and missing values only (a date that does
    not parse is missing), and [Year], [Month], [Quarter], [Week] and
    [DayOfWeek] are columns that hold, in each row, the parts of the
    [InvoiceDate] of the row, missing when it is. *)
Theorem sales_line_items_date_columns (parse_datetime : value → option Z)
    (num_mul : Q → Q → Q) (obj_mul : value → value → option value)
    self (h : heap) df :
  returned (sales_line_items parse_datetime num_mul obj_mul self h) = Ok df →
  "InvoiceDate" ∈ columns df →
  (∀ c, c ∈ ["Year"; "Month"; "Quarter"; "Week"; "DayOfWeek"] → c ∈ columns df)
  ∧ ∀ r, r ∈ rows df →
      let d := cell r "InvoiceDate" in
      is_time_or_null d
      ∧ cell r "Year" = date_part (λ t, num (year_of t)) d
      ∧ cell r "Month" = date_part (λ t, num (month_of t)) d
      ∧ cell r "Quarter" = date_part (λ t, num (quarter_of t)) d
      ∧ cell r "Week" = date_part (λ t, num (isoweek_of t)) d
      ∧ cell r "DayOfWeek" = date_part (λ t, VStr (day_name_of t)) d.
Proof.
  intros Hret Hdate.
  destruct (sales_line_items_date_parts _ _ _ _ _ _ Hret) as (Hy & Hm & Hq & Hw & Hd).
  { unfold has_column. by apply bool_decide_eq_true. }
  split.
  - intros c Hc.
    destruct Hy as [[Hy _] _], Hm as [[Hm _] _], Hq as [[Hq _] _],
             Hw as [[Hw _] _], Hd as [[Hd _] _].
    unfold has_column in *. rewrite bool_decide_eq_true in Hy, Hm, Hq, Hw, Hd.
    repeat (apply elem_of_cons in Hc as [->|Hc]; [done|]).
    by apply elem_of_nil in Hc.
  - intros r Hr. cbv zeta.
    destruct Hy as [_ Hy], Hm as [_ Hm], Hq as [_ Hq], Hw as [_ Hw], Hd as [_ Hd].
    rewrite Forall_forall in Hy, Hm, Hq, Hw, Hd.
    destruct (Hy r Hr) as [Ht ->]. destruct (Hm r Hr) as [_ ->].
    destruct (Hq r Hr) as [_ ->]. destruct (Hw r Hr) as [_ ->].
    destruct (Hd r Hr) as [_ ->]. done.
Qed.

Lemma sales_line_items_date_columns_witness :
  Forall (λ r, is_time_or_null (cell r "InvoiceDate")
               ∧ cell r "Year"
                 = date_part (λ t, num (year_of t)) (cell r "InvoiceDate"))
         (rows ex_sales).
Proof.
  apply Forall_forall. intros r Hr.
  destruct (proj2 (sales_line_items_date_columns ex_parse float64_mul ex_obj_mul
                     ex_model ex_heap ex_sales
                     ltac:(vm_compute; reflexivity)
                     ltac:(unfold ex_sales; cbn [columns]; elem_of_list)) r Hr)
    as (Ht & Hy & _).
  by split.
Defined.

(** * analytics.py: the constructor *)

(** ** Running the heap operations *)

Lemma deref_run (h : heap) l V : h !! l = Some V → deref l h = (Ok V, h).
Proof. intros H. unfold deref. by rewrite H. Qed.

Lemma copy_run (h : heap) l V :
  h !! l = Some V → copy l h = (Ok (length h), h ++ [V]).
Proof. intros H. unfold copy. by rewrite bind_run, (deref_run _ _ _ H). Qed.

Lemma getitem_run (h : heap) l V c :
  h !! l = Some V → getitem l c h = (df_getitem c V, h).
Proof. intros H. unfold getitem. by rewrite bind_run, (deref_run _ _ _ H). Qed.

Lemma setitem_run (h : heap) l V c s W :
  h !! l = Some V → df_setitem c s V = Ok W →
  setitem l c s h = (Ok tt, <[l := W]> h).
Proof.
  intros H HW. unfold setitem.
  rewrite bind_run, (deref_run _ _ _ H), bind_run. unfold lift. by rewrite HW.
Qed.

Lemma check_column_run (h : heap) l V c :
  h !! l = Some V →
  _check_column c l h
  = if has_column c V then (Ok tt, h)
    else (Raise (KeyError ("Required column '" +:+ c +:+ "' is missing.")), h).
Proof.
  intros H. unfold _check_column. rewrite bind_run, (deref_run _ _ _ H).
  by destruct (has_column c V).
Qed.

Lemma lookup_new (h : heap) (V : DataFrame) : (h ++ [V]) !! length h = Some V.
Proof. by apply list_lookup_middle. Qed.

Lemma lookup_old (h : heap) (V : DataFrame) l X :
  h !! l = Some X → (h ++ [V]) !! l = Some X.
Proof. apply lookup_app_l_Some. Qed.

(** ** ChinookAnalyzer.__init__ *)

Lemma to_datetime_dtype (parse_datetime : value → option Z) s :
  is_datetime64_any_dtype (to_datetime parse_datetime s) = true.
Proof.
  unfold is_datetime64_any_dtype, to_datetime. apply forallb_forall.
  intros v (v0 & <- & _)%in_map_iff. unfold to_datetime_value.
  destruct v0; try done; by destruct (parse_datetime _).
Qed.

Lemma analyzer_copy_datetime (parse_datetime : value → option Z) S0 :
  is_datetime64_any_dtype (map (λ r, cell r "InvoiceDate") (rows S0)) = true →
  analyzer_copy parse_datetime S0 S0.
Proof.
  intros Hdt. split; [done|]. split; [done|].
  apply datetime_dtype_cells in Hdt.
  induction Hdt as [|r rs Hr _ IH]; constructor; [|done].
  split; [|done]. by destruct (cell r "InvoiceDate").
Qed.

Lemma analyzer_copy_setitem (parse_datetime : value → option Z) S0 S :
  has_column "InvoiceDate" S0 = true →
  df_setitem "InvoiceDate"
    (to_datetime parse_datetime (map (λ r, cell r "InvoiceDate") (rows S0))) S0 = Ok S →
  analyzer_copy parse_datetime S0 S.
Proof.
  intros Hcol [Hrows Hcols]%df_setitem_Ok. rewrite Hcol in Hcols.
  split; [done|]. rewrite Hrows. unfold to_datetime.
  rewrite map_map, zip_with_map_r. split.
  - rewrite map_map. apply forallb_forall.
    intros v (r & <- & _)%in_map_iff. rewrite cell_insert.
    unfold to_datetime_value. destruct (cell r _); try done;
      by destruct (parse_datetime _).
  - clear. induction (rows S0) as [|r rs IH]; simpl; constructor; [|done].
    split; [by rewrite cell_insert|]. intros c Hc. by rewrite cell_insert_ne.
Qed.

Lemma copy_catalog_run (h : heap) (cat : option loc) :
  (∀ c, cat = Some c → is_Some (h !! c)) →
  ∃ c' h2,
    (match cat with
     | Some c => c' ← copy c; mret (Some c')
     | None => mret None
     end) h = (Ok c', h2)
    ∧ h `prefix_of` h2
    ∧ match cat with
      | Some c => ∃ l, c' = Some l ∧ (length h ≤ l)%nat ∧ h2 !! l = h !! c
      | None => c' = None
      end.
Proof.
  intros Hcat. destruct cat as [c|].
  - destruct (Hcat c eq_refl) as [C HC].
    exists (Some (length h)), (h ++ [C]). split; [|split].
    + by rewrite bind_run, (copy_run _ _ _ HC).
    + by apply prefix_app_r.
    + exists (length h). split; [done|]. split; [done|].
      by rewrite lookup_new, HC.
  - exists None, h. done.
Qed.

Lemma mentions_here (t post : string) : mentions (t +:+ post) t.
Proof. exists "", post. by rewrite string_app_nil_l. Qed.

Lemma mentions_self (t : string) : mentions t t.
Proof. exists "", "". by rewrite string_app_nil_l, string_app_nil_r. Qed.

Lemma analyzer_init_outcome (parse_datetime : value → option Z) sales cat (h : heap) S0 :
  h !! sales = Some S0 →
  (∀ c, cat = Some c → is_Some (h !! c)) →
  if has_column "InvoiceDate" S0 && has_column "LineTotal" S0 then
    ∃ self h1 S,
      ChinookAnalyzer_init parse_datetime sales cat h = (Ok self, h1)
      ∧ h1 !! sales_df self = Some S
      ∧ analyzer_copy parse_datetime S0 S
      ∧ match cat with
        | Some c => ∃ c', catalog_df self = Some c' ∧ h1 !! c' = h !! c
        | None => catalog_df self = None
        end
  else
    ∃ msg,
      (ChinookAnalyzer_init parse_datetime sales cat h).1 = Raise (KeyError msg)
      ∧ is_missing_columns_error (KeyError msg) = true
      ∧ ∀ c, c ∈ ["InvoiceDate"; "LineTotal"] → has_column c S0 = false →
             mentions msg c.
Proof.
  intros HS0 Hcat. unfold ChinookAnalyzer_init.
  rewrite bind_run, (copy_run _ _ _ HS0), bind_run.
  destruct (copy_catalog_run (h ++ [S0]) cat) as (c' & h2 & -> & Hpre & Hc').
  { intros c Hc. destruct (Hcat c Hc) as [C HC]. exists C. by apply lookup_old. }
  assert (h2 !! length h = Some S0) as Hs.
  { eapply prefix_lookup_Some; [apply lookup_new|done]. }
  rewrite bind_run, (deref_run _ _ _ Hs). cbn [List.filter].
  destruct (has_column "InvoiceDate" S0) eqn:Hd, (has_column "LineTotal" S0) eqn:Ht;
    cbn [negb andb].
  - rewrite bind_run, (getitem_run _ _ _ _ Hs). unfold df_getitem. rewrite Hd.
    rewrite bind_run.
    assert (∀ (h1 : heap) (S : DataFrame), h1 !! length h = Some S →
              (∀ l, l ≠ length h → h1 !! l = h2 !! l) →
              match cat with
              | Some c => ∃ c'0, c' = Some c'0 ∧ h1 !! c'0 = h !! c
              | None => c' = None
              end) as Hcatalog.
    { intros h1 S _ Hother. destruct cat as [c|]; [|done].
      destruct Hc' as (l & -> & Hl & Hl2). exists l. split; [done|].
      rewrite Hother; [|rewrite length_app in Hl; simpl in Hl; lia].
      rewrite Hl2. destruct (Hcat c eq_refl) as [C HC].
      by rewrite (lookup_old _ _ _ _ HC), HC. }
    destruct (negb (is_datetime64_any_dtype _)) eqn:Hdt.
    + destruct (df_setitem "InvoiceDate"
                  (to_datetime parse_datetime (map (λ r, cell r "InvoiceDate") (rows S0)))
                  S0) as [W|e] eqn:HW.
      2:{ unfold df_setitem in HW. rewrite bool_decide_eq_true_2 in HW; [done|].
          unfold to_datetime, nrows. by rewrite !length_map. }
      rewrite (setitem_run _ _ _ _ _ _ Hs HW).
      eexists _, _, W. split; [reflexivity|]. cbn [sales_df catalog_df].
      assert (length h < length h2)%nat as Hlt by (by eapply lookup_lt_Some).
      split; [by apply list_lookup_insert_eq|]. split.
      * by apply analyzer_copy_setitem.
      * eapply Hcatalog; [by apply list_lookup_insert_eq|].
        intros l Hl. by apply list_lookup_insert_ne.
    + eexists _, _, S0. split; [reflexivity|]. cbn [sales_df catalog_df].
      split; [done|]. split.
      * apply analyzer_copy_datetime. by apply negb_false_iff.
      * by eapply Hcatalog.
  - eexists. split; [reflexivity|]. split; [apply prefix_app|].
    intros c Hc Hno. apply mentions_app_r. cbn [String.concat].
    apply elem_of_cons in Hc as [->|Hc]; [congruence|].
    apply list_elem_of_singleton in Hc as ->. apply mentions_self.
  - eexists. split; [reflexivity|]. split; [apply prefix_app|].
    intros c Hc Hno. apply mentions_app_r. cbn [String.concat].
    apply elem_of_cons in Hc as [->|Hc]; [apply mentions_self|].
    apply list_elem_of_singleton in Hc as ->. congruence.
  - eexists. split; [reflexivity|]. split; [apply prefix_app|].
    intros c Hc Hno. apply mentions_app_r, mentions_concat. done.
Qed.

(** X8: [ChinookAnalyzer.__init__], given a sales table and a catalog that exist:
    with the columns [InvoiceDate] and [LineTotal] in the sales table it
    returns an Analyzer that holds a copy of the table with the same columns
    and the same cells, but for [InvoiceDate], which is coerced to a column of
    timestamps, and a copy of the catalog if there is one; without one of the
    two columns it raises a [KeyError] that names each absent one. *)
Theorem analyzer_init_copies_and_coerces (parse_datetime : value → option Z)
    sales cat (h : heap) S0 :
  h !! sales = Some S0 →
  (∀ c, cat = Some c → is_Some (h !! c)) →
  if has_column "InvoiceDate" S0 && has_column "LineTotal" S0 then
    ∃ self h1 S,
      ChinookAnalyzer_init parse_datetime sales cat h = (Ok self, h1)
      ∧ h1 !! sales_df self = Some S
      ∧ analyzer_copy parse_datetime S0 S
      ∧ match cat with
        | Some c => ∃ c', catalog_df self = Some c' ∧ h1 !! c' = h !! c
        | None => catalog_df self = None
        end
  else
    ∃ msg,
      (ChinookAnalyzer_init parse_datetime sales cat h).1 = Raise (KeyError msg)
      ∧ is_missing_columns_error (KeyError msg) = true
      ∧ ∀ c, c ∈ ["InvoiceDate"; "LineTotal"] → has_column c S0 = false →
             mentions msg c.
Proof. apply analyzer_init_outcome. Qed.

Lemma analyzer_init_copies_and_coerces_witness :
  ∃ self h1 S,
    ChinookAnalyzer_init ex_parse 0%nat None [ex_sales_gap] = (Ok self, h1)
    ∧ h1 !! sales_df self = Some S
    ∧ analyzer_copy ex_parse ex_sales_gap S.
Proof.
  pose proof (analyzer_init_copies_and_coerces ex_parse 0%nat None [ex_sales_gap]
                ex_sales_gap eq_refl ltac:(discriminate)) as H.
  change (has_column "InvoiceDate" ex_sales_gap && has_column "LineTotal" ex_sales_gap)
    with true in H.
  destruct H as (self & h1 & S & Hinit & HS & Hcopy & _).
  by exists self, h1, S.
Defined.

(** ** An analyzer on a table whose dates are timestamps already *)

Lemma analyzer_init_datetime (parse_datetime : value → option Z) sales cat (h : heap) S0 :
  h !! sales = Some S0 →
  (∀ c, cat = Some c → is_Some (h !! c)) →
  has_column "InvoiceDate" S0 = true →
  has_column "LineTotal" S0 = true →
  is_datetime64_any_dtype (map (λ r, cell r "InvoiceDate") (rows S0)) = true →
  ∃ self h1,
    ChinookAnalyzer_init parse_datetime sales cat h = (Ok self, h1)
    ∧ h1 !! sales_df self = Some S0
    ∧ sales_df self ≠ sales
    ∧ h `prefix_of` h1.
Proof.
  intros HS0 Hcat Hd Ht Hdt. unfold ChinookAnalyzer_init.
  rewrite bind_run, (copy_run _ _ _ HS0), bind_run.
  destruct (copy_catalog_run (h ++ [S0]) cat) as (c' & h2 & -> & Hpre & Hc').
  { intros c Hc. destruct (Hcat c Hc) as [C HC]. exists C. by apply lookup_old. }
  assert (h2 !! length h = Some S0) as Hs.
  { eapply prefix_lookup_Some; [apply lookup_new|done]. }
  rewrite bind_run, (deref_run _ _ _ Hs). cbn [List.filter].
  rewrite Hd, Ht. cbn [negb].
  rewrite bind_run, (getitem_run _ _ _ _ Hs). unfold df_getitem. rewrite Hd.
  rewrite bind_run, Hdt. cbn [negb].
  eexists _, _. split; [reflexivity|]. cbn [sales_df]. split; [done|]. split.
  - apply lookup_lt_Some in HS0. lia.
  - etrans; [|exact Hpre]. by apply prefix_app_r.
Qed.

Lemma sales_line_items_datetime (parse_datetime : value → option Z)
    (num_mul : Q → Q → Q) (obj_mul : value → value → option value) self h df :
  returned (sales_line_items parse_datetime num_mul obj_mul self h) = Ok df →
  has_column "InvoiceDate" df = true →
  is_datetime64_any_dtype (map (λ r, cell r "InvoiceDate") (rows df)) = true.
Proof.
  intros Hret Hdate.
  destruct (sales_line_items_date_parts _ _ _ _ _ _ Hret Hdate) as [[_ HY] _].
  unfold is_datetime64_any_dtype. apply forallb_forall.
  intros v (r & <- & Hr)%in_map_iff.
  rewrite Forall_forall in HY. apply list_elem_of_In, HY in Hr as [Hr _].
  by destruct (cell r "InvoiceDate").
Qed.

(** X9: An analyzer built on the table that [sales_line_items] returns, when the
    table has the columns [InvoiceDate] and [LineTotal], is made without an
    error and holds a copy of that very table: the dates are timestamps
    already and are not parsed again, and the table of the model stays as it
    is. *)
Theorem analyzer_of_sales_line_items (parse_datetime : value → option Z)
    (num_mul : Q → Q → Q) (obj_mul : value → value → option value)
    model cat (h h' : heap) l df :
  sales_line_items parse_datetime num_mul obj_mul model h = (Ok l, h') →
  h' !! l = Some df →
  has_column "InvoiceDate" df = true →
  has_column "LineTotal" df = true →
  (∀ c, cat = Some c → is_Some (h' !! c)) →
  ∃ self h1,
    ChinookAnalyzer_init parse_datetime l cat h' = (Ok self, h1)
    ∧ sales_df self ≠ l
    ∧ h1 !! sales_df self = Some df
    ∧ h1 !! l = Some df.
Proof.
  intros Hrun Hl Hdate Htotal Hcat.
  assert (returned (sales_line_items parse_datetime num_mul obj_mul model h) = Ok df)
    as Hret.
  { unfold returned. by rewrite Hrun, Hl. }
  pose proof (sales_line_items_datetime _ _ _ _ _ _ Hret Hdate) as Hdt.
  destruct (analyzer_init_datetime parse_datetime l cat h' df Hl Hcat Hdate Htotal Hdt)
    as (self & h1 & Hinit & Hs & Hne & Hpre).
  exists self, h1. repeat split; try done.
  by eapply prefix_lookup_Some.
Qed.

Lemma analyzer_of_sales_line_items_witness :
  match sales_line_items ex_parse float64_mul ex_obj_mul ex_model ex_heap with
  | (Ok l, h') =>
      ∃ self h1,
        ChinookAnalyzer_init ex_parse l None h' = (Ok self, h1)
        ∧ sales_df self ≠ l
        ∧ h1 !! sales_df self = Some ex_sales
        ∧ h1 !! l = Some ex_sales
  | (Raise _, _) => False
  end.
Proof.
  assert (returned (sales_line_items ex_parse float64_mul ex_obj_mul ex_model
                      ex_heap) = Ok ex_sales) as Hret
    by (vm_compute; reflexivity).
  destruct (sales_line_items ex_parse float64_mul ex_obj_mul ex_model ex_heap)
    as [[l|e] h'] eqn:E;
    [|discriminate Hret].
  unfold returned in Hret. destruct (h' !! l) as [df|] eqn:Hl; [|discriminate Hret].
  injection Hret as ->.
  apply (analyzer_of_sales_line_items ex_parse float64_mul ex_obj_mul ex_model None
           ex_heap h' l ex_sales E Hl); [vm_compute; reflexivity | vm_compute; reflexivity | discriminate].
Defined.

(** * analytics.py: grouped totals *)

(** ** Lists: order and repetition *)

Lemma filter_all {A} (f : A → bool) l :
  Forall (λ x, f x = true) l → List.filter f l = l.
Proof. induction 1 as [|x l Hx _ IH]; simpl; [done|]. by rewrite Hx, IH. Qed.

Lemma filter_none {A} (f : A → bool) l :
  Forall (λ x, f x = false) l → List.filter f l = [].
Proof. induction 1 as [|x l Hx _ IH]; simpl; [done|]. by rewrite Hx, IH. Qed.

Lemma filter_unique {A} (f : A → bool) (l : list A) i x :
  l !! i = Some x → f x = true →
  (∀ j y, j ≠ i → l !! j = Some y → f y = false) →
  List.filter f l = [x].
Proof.
  revert i. induction l as [|a l IH]; intros [|i] Hi Hx Hother; simplify_eq/=.
  - rewrite Hx. f_equal. apply filter_none, Forall_forall.
    intros y Hy%list_elem_of_lookup_1. destruct Hy as [j Hj].
    by apply (Hother (Datatypes.S j)).
  - rewrite (Hother 0%nat a) by done. apply (IH i); [done..|].
    intros j y Hj. apply (Hother (Datatypes.S j)). lia.
Qed.

Lemma filter_length_two {A} (f : A → bool) (l : list A) i j a b :
  i ≠ j → l !! i = Some a → l !! j = Some b → f a = true → f b = true →
  (2 ≤ length (List.filter f l))%nat.
Proof.
  revert i j. induction l as [|x l IH]; intros i j Hij Hi Hj Ha Hb; [done|].
  assert (∀ k y, l !! k = Some y → f y = true → (1 ≤ length (List.filter f l))%nat)
    as Hone.
  { clear. induction l as [|x l IH]; intros k y Hk Hy; [done|]. simpl.
    destruct k as [|k]; simpl in Hk.
    - injection Hk as ->. rewrite Hy. simpl. lia.
    - specialize (IH k y Hk Hy). destruct (f x); simpl; lia. }
  destruct i as [|i], j as [|j]; simpl in *; try done.
  - injection Hi as ->. rewrite Ha. simpl. specialize (Hone j b Hj Hb). lia.
  - injection Hj as ->. rewrite Hb. simpl. specialize (Hone i a Hi Ha). lia.
  - assert (i ≠ j) as Hij' by congruence.
    specialize (IH i j Hij' Hi Hj Ha Hb). destruct (f x); simpl; lia.
Qed.

(** The keys of the groups are pairwise different. *)
Lemma group_keys_distinct keys df i j k1 k2 :
  i ≠ j →
  group_keys keys df !! i = Some k1 → group_keys keys df !! j = Some k2 →
  keys_eqb k1 k2 = false.
Proof.
  intros Hij Hi Hj. destruct (keys_eqb k1 k2) eqn:E; [|done]. exfalso.
  assert (In k1 (group_keys keys df)) as Hin.
  { apply list_elem_of_In. by eapply list_elem_of_lookup_2. }
  apply group_keys_In in Hin as (r & Hr & Hp & ->).
  pose proof (key_count_group_keys keys df r Hr Hp) as Hcount.
  unfold key_count in Hcount.
  pose proof (filter_length_two (keys_eqb (key_of keys r)) _ i j _ _ Hij Hi Hj
                (keys_eqb_refl _) E). lia.
Qed.

Section sorted_members.
Context {A : Type} (R : A → A → Prop).

(** A sorted list is sorted pairwise when the order is transitive on its
    members. *)
Lemma Sorted_members_StronglySorted (l : list A) :
  (∀ a b c, In a l → In b l → In c l → R a b → R b c → R a c) →
  Sorted R l → StronglySorted R l.
Proof.
  induction l as [|x l IH]; intros Htrans Hs; [constructor|].
  apply Sorted_inv in Hs as [Hs Hd].
  assert (StronglySorted R l) as Hss.
  { apply IH; [|done]. intros a b c Ha Hb Hc. apply Htrans; by right. }
  constructor; [done|].
  destruct Hss as [|y l Hss Hy]; [constructor|].
  apply HdRel_inv in Hd. constructor; [done|].
  rewrite List.Forall_forall in Hy. apply List.Forall_forall. intros z Hz.
  apply (Htrans x y z); [by left|right; by left|right; by right|done|by apply Hy].
Qed.

Lemma StronglySorted_lookup (l : list A) i j a b :
  StronglySorted R l → (i < j)%nat → l !! i = Some a → l !! j = Some b → R a b.
Proof.
  intros Hss. revert i j. induction Hss as [|x l Hss IH Hx]; intros i j Hij Hi Hj; [done|].
  destruct j as [|j]; [lia|]. destruct i as [|i]; simpl in *.
  - injection Hi as ->. rewrite List.Forall_forall in Hx. apply Hx.
    apply list_elem_of_In. by eapply list_elem_of_lookup_2.
  - apply (IH i j); [lia|done..].
Qed.

Lemma StronglySorted_take_drop (l : list A) n a b :
  StronglySorted R l → In a (take n l) → In b (drop n l) → R a b.
Proof.
  intros Hss Ha Hb.
  apply list_elem_of_In, list_elem_of_lookup in Ha as [i Hi].
  apply list_elem_of_In, list_elem_of_lookup in Hb as [j Hj].
  pose proof (lookup_lt_Some _ _ _ Hi) as Hlt. rewrite length_take in Hlt.
  rewrite lookup_take_lt in Hi by lia. rewrite lookup_drop in Hj.
  eapply (StronglySorted_lookup l i (n + j)); [done|lia|done..].
Qed.
End sorted_members.

(** ** The greatest totals *)

Lemma group_rows_proper keys df k k' :
  keys_eqb k k' = true → group_rows keys df k = group_rows keys df k'.
Proof.
  intros Hk. unfold group_rows. apply filter_ext. intros r. f_equal.
  destruct (keys_eqb (key_of keys r) k) eqn:E1,
           (keys_eqb (key_of keys r) k') eqn:E2; try done.
  - by rewrite (keys_eqb_trans _ _ _ E1 Hk) in E2.
  - rewrite keys_eqb_sym in Hk. by rewrite (keys_eqb_trans _ _ _ E2 Hk) in E1.
Qed.

Lemma keyed_sort_desc_totals (g : KeyedSeries) :
  Forall (λ kv, ∃ q, kv.2 = VNum q) g →
  keyed_sort_desc g = sort_by (λ a b, value_leb b.2 a.2) g.
Proof.
  intros Hg. unfold keyed_sort_desc.
  assert (List.filter (λ a : list value * value, negb (isna a.2)) g = g) as ->.
  { induction Hg as [|kv g [q Hq] _ IH]; simpl; [done|]. by rewrite Hq, IH. }
  assert (List.filter (λ a : list value * value, isna a.2) g = []) as ->.
  { induction Hg as [|kv g [q Hq] _ IH]; simpl; [done|]. by rewrite Hq, IH. }
  apply app_nil_r.
Qed.

Lemma head_take {A} (n : Z) (l : list A) : ∃ k, head n l = take k l
  ∧ (0 ≤ n → k = Z.to_nat n).
Proof.
  unfold head. destruct (0 <=? n) eqn:E.
  - eexists. split; [done|]. done.
  - eexists. split; [done|]. intros Hn. apply Z.leb_gt in E. lia.
Qed.

Section top_groups.
Context (keys : list string) (col : string) (S : DataFrame) (g : KeyedSeries) (n : Z).
Context (Hg : groupby_sum keys col S = Ok g).

Let sorted := sort_by (λ a b : list value * value, value_leb b.2 a.2) g.

Lemma groups_totals :
  Forall (λ kv : list value * value, ∃ q, kv.2 = VNum q) g.
Proof.
  rewrite (groupby_sum_Ok _ _ _ _ Hg). apply Forall_map, Forall_forall.
  intros k _. by eexists.
Qed.

Lemma top_groups_head :
  ∃ k, head n (keyed_sort_desc g) = take k sorted ∧ (0 ≤ n → k = Z.to_nat n).
Proof. rewrite (keyed_sort_desc_totals _ groups_totals). apply head_take. Qed.

Lemma sorted_groups_In kv :
  In kv sorted →
  In kv.1 (group_keys keys S) ∧ kv.2 = group_total keys col S kv.1.
Proof.
  intros Hin. apply (Permutation_in _ (sort_by_Permutation _ _)) in Hin.
  rewrite (groupby_sum_Ok _ _ _ _ Hg) in Hin.
  by apply in_map_iff in Hin as (k & <- & Hk).
Qed.

Lemma sorted_groups_StronglySorted :
  StronglySorted (λ a b : list value * value, value_leb b.2 a.2 = true) sorted.
Proof.
  apply Sorted_members_StronglySorted.
  - intros a b c [_ Ha]%sorted_groups_In [_ Hb]%sorted_groups_In
           [_ Hc]%sorted_groups_In.
    rewrite Ha, Hb, Hc. unfold group_total. cbn [value_leb].
    rewrite !Qle_bool_iff. intros H1 H2. by eapply Qle_trans.
  - apply (sort_by_Sorted (λ a b : list value * value, value_leb b.2 a.2)).
    intros x y. apply value_leb_total.
Qed.

Lemma sorted_groups_keys_count q :
  key_count (map fst sorted) q = key_count (group_keys keys S) q.
Proof.
  apply key_count_Permutation. unfold sorted.
  rewrite (sort_by_Permutation _ g), (groupby_sum_Ok _ _ _ _ Hg), map_map.
  simpl. by rewrite map_id.
Qed.

Lemma sorted_groups_length : length sorted = length (group_keys keys S).
Proof.
  unfold sorted. rewrite (Permutation_length (sort_by_Permutation _ g)).
  by rewrite (groupby_sum_Ok _ _ _ _ Hg), length_map.
Qed.

Lemma sorted_groups_distinct i j a b :
  i ≠ j → sorted !! i = Some a → sorted !! j = Some b → keys_eqb a.1 b.1 = false.
Proof.
  intros Hij Hi Hj. destruct (keys_eqb a.1 b.1) eqn:E; [|done]. exfalso.
  assert (In a sorted) as Ha.
  { apply list_elem_of_In. by eapply list_elem_of_lookup_2. }
  apply sorted_groups_In in Ha as [Ha _].
  apply group_keys_In in Ha as (r & Hr & Hp & Hk).
  pose proof (key_count_group_keys keys S r Hr Hp) as Hcount.
  rewrite <-Hk, <-sorted_groups_keys_count in Hcount. unfold key_count in Hcount.
  pose proof (filter_length_two (keys_eqb a.1) (map fst sorted) i j a.1 b.1 Hij) as H2.
  rewrite !list_lookup_fmap, Hi, Hj in H2.
  specialize (H2 eq_refl eq_refl (keys_eqb_refl _) E). lia.
Qed.

(** A group is among the first [k] of the sorted groups, or its total is at
    most each of theirs. *)
Lemma sorted_groups_top k r :
  In r (rows S) → key_present keys r = true →
  (∃ kv, In kv (take k sorted) ∧ keys_eqb kv.1 (key_of keys r) = true)
  ∨ (∀ kv, In kv (take k sorted) →
           value_leb (group_total keys col S (key_of keys r)) kv.2 = true).
Proof.
  intros Hr Hp.
  pose proof (key_count_group_keys keys S r Hr Hp) as Hcount.
  rewrite <-sorted_groups_keys_count in Hcount. unfold key_count in Hcount.
  destruct (List.filter (keys_eqb (key_of keys r)) (map fst sorted)) as [|k0 ?] eqn:E;
    [done|].
  assert (In k0 (List.filter (keys_eqb (key_of keys r)) (map fst sorted))) as Hk0
    by (rewrite E; by left).
  apply filter_In in Hk0 as [Hk0 Heq].
  apply in_map_iff in Hk0 as (kv & <- & Hkv).
  rewrite <-(take_drop k sorted) in Hkv. apply in_app_or in Hkv as [Hkv|Hkv].
  - left. exists kv. split; [done|]. by rewrite keys_eqb_sym.
  - right. intros kv' Hkv'.
    pose proof (StronglySorted_take_drop _ _ k _ _ sorted_groups_StronglySorted
                  Hkv' Hkv) as Hle. cbv beta in Hle.
    assert (In kv sorted) as Hin.
    { rewrite <-(take_drop k sorted). apply in_or_app. by right. }
    apply sorted_groups_In in Hin as [_ Hv]. rewrite Hv in Hle.
    unfold group_total in *. by rewrite (group_rows_proper _ _ _ _ Heq).
Qed.
End top_groups.

(** ** top_countries_by_revenue, top_genres_by_revenue, top_artists_by_revenue *)

Lemma top_row_cells col name k v :
  col ≠ "LineTotal" → col ≠ name →
  cell (top_row col name ([k], v)) col = k
  ∧ cell (top_row col name ([k], v)) name = v.
Proof.
  intros H1 H2. unfold top_row. cbn [map zip fst snd app list_to_map foldr].
  cbn [String.eqb Ascii.eqb Bool.eqb]. 
  rewrite (proj2 (String.eqb_neq col "LineTotal") H1).
  cbn [zip_with uncurry]. split.
  - rewrite cell_insert. by rewrite cell_insert.
  - rewrite cell_insert_ne by done. rewrite cell_insert.
    rewrite cell_insert_ne by done. by rewrite cell_insert.
Qed.

Lemma top_table_rows col name s :
  rows (df_rename "LineTotal" name (reset_index [col] "LineTotal" s))
  = map (top_row col name) s.
Proof. unfold df_rename, reset_index. cbn [rows columns app]. by rewrite map_map. Qed.

Lemma top_table_columns col name s :
  col ≠ "LineTotal" →
  columns (df_rename "LineTotal" name (reset_index [col] "LineTotal" s)) = [col; name].
Proof.
  intros H1. unfold df_rename, reset_index. cbn [rows columns app map].
  cbn [String.eqb Ascii.eqb Bool.eqb].
  by rewrite (proj2 (String.eqb_neq col "LineTotal") H1).
Qed.

Lemma top_by_revenue_run self col n h S R :
  h !! sales_df self = Some S →
  returned (top_by_revenue self col n h) = Ok R →
  ∃ g, groupby_sum [col] "LineTotal" S = Ok g
       ∧ R = df_rename "LineTotal" "Revenue"
               (reset_index [col] "LineTotal" (head n (keyed_sort_desc g))).
Proof.
  intros HS Hret.
  eapply (returned_wp _ _ _ (λ R, ∃ g, _ ∧ R = _)); [exact Hret|].
  clear Hret. unfold top_by_revenue.
  repeat wp_step h. returned_owned.
  eexists. split; [eassumption|reflexivity].
Qed.

Lemma single_key_present col (r : gmap string value) :
  key_present [col] r = negb (isna (cell r col)).
Proof. unfold key_present, key_of. simpl. by rewrite andb_true_r. Qed.

Lemma single_keys_eqb a b : keys_eqb [a] [b] = value_eqb a b.
Proof. simpl. by rewrite andb_true_r. Qed.

Lemma group_rows_single col S v :
  isna v = false → group_rows [col] S [v] = rows_with col v S.
Proof.
  intros Hv. unfold group_rows, rows_with. apply filter_ext. intros s.
  rewrite single_key_present. unfold key_of. cbn [map]. rewrite single_keys_eqb.
  destruct (value_eqb (cell s col) v) eqn:E; [|by rewrite andb_false_r].
  rewrite andb_true_r. destruct (cell s col), v; done.
Qed.

Lemma dedup_by_map_length {A B} (f : A → B) (eqA : A → A → bool) (eqB : B → B → bool) l :
  (∀ x y, eqB (f x) (f y) = eqA x y) →
  length (dedup_by eqB (map f l)) = length (dedup_by eqA l).
Proof.
  intros Hf.
  assert (∀ l, dedup_by eqB (map f l) = map f (dedup_by eqA l)) as Hmap.
  { clear l. induction l as [|x l IH]; simpl; [done|]. f_equal. rewrite IH.
    generalize (dedup_by eqA l). clear IH. intros l'.
    induction l' as [|y l' IH]; simpl; [done|].
    rewrite Hf. destruct (eqA x y); simpl; by rewrite IH. }
  by rewrite Hmap, length_map.
Qed.

Lemma group_keys_single_length col S :
  length (group_keys [col] S) = nunique (map (λ r, cell r col) (rows S)).
Proof.
  unfold group_keys, nunique.
  rewrite (Permutation_length (sort_by_Permutation _ _)).
  assert (map (key_of [col]) (List.filter (key_present [col]) (rows S))
          = map (λ v, [v]) (List.filter (λ v, negb (isna v))
                                        (map (λ r, cell r col) (rows S)))) as ->.
  { induction (rows S) as [|r rs IH]; simpl; [done|].
    rewrite single_key_present. destruct (negb (isna (cell r col))); simpl; by rewrite IH. }
  apply dedup_by_map_length. intros x y. apply single_keys_eqb.
Qed.

(** ** A table of the groups of greatest total

    The table [R] holds the rows [row kv] of the first [n] groups by total,
    where [row] keeps the key of a group in the columns [keys] and its total
    in the column [name]. *)
Section keyed_table.
Context (keys : list string) (name : string) (n : Z) (S R : DataFrame).
Context (g : KeyedSeries) (row : list value * value → gmap string value).
Context (Hg : groupby_sum keys "LineTotal" S = Ok g).
Context (HR : rows R = map row (head n (keyed_sort_desc g))).
Context (Hrow : ∀ kv, In kv.1 (group_keys keys S) →
                      key_of keys (row kv) = kv.1 ∧ cell (row kv) name = kv.2).

Let sorted := sort_by (λ a b : list value * value, value_leb b.2 a.2) g.

Lemma keyed_table_rows :
  ∃ k, rows R = map row (take k sorted) ∧ (0 ≤ n → k = Z.to_nat n).
Proof.
  destruct (top_groups_head keys "LineTotal" S g n Hg) as (k & Hk & Hn).
  exists k. by rewrite HR, Hk.
Qed.

Lemma keyed_table_cells kv :
  In kv sorted →
  key_of keys (row kv) = kv.1
  ∧ cell (row kv) name = kv.2
  ∧ kv.2 = group_total keys "LineTotal" S kv.1
  ∧ ∃ s, In s (rows S) ∧ key_present keys s = true ∧ kv.1 = key_of keys s.
Proof.
  intros [Hk Hv]%(sorted_groups_In _ _ _ _ Hg).
  destruct (Hrow kv Hk) as [H1 H2]. split; [done|]. split; [done|]. split; [done|].
  by apply group_keys_In.
Qed.

Lemma keyed_table_row r :
  r ∈ rows R →
  ∃ s, s ∈ rows S ∧ key_present keys s = true
       ∧ key_of keys r = key_of keys s
       ∧ cell r name = group_total keys "LineTotal" S (key_of keys s).
Proof.
  destruct keyed_table_rows as (k & -> & _).
  intros (kv & <- & Hkv)%list_elem_of_In%in_map_iff.
  apply list_elem_of_In, elem_of_take in Hkv as (i & Hkv & _).
  apply list_elem_of_lookup_2, list_elem_of_In in Hkv.
  destruct (keyed_table_cells kv Hkv) as (H1 & H2 & H3 & s & Hs & Hp & Hk).
  exists s. split; [by apply list_elem_of_In|]. split; [done|].
  rewrite H1, H2, H3. by rewrite Hk.
Qed.

Lemma keyed_table_distinct i j a b :
  i ≠ j → rows R !! i = Some a → rows R !! j = Some b →
  keys_eqb (key_of keys a) (key_of keys b) = false.
Proof.
  destruct keyed_table_rows as (k & -> & _).
  intros Hij Hi Hj. rewrite list_lookup_fmap in Hi, Hj.
  destruct (take k _ !! i) as [kva|] eqn:Ea; [|done].
  destruct (take k _ !! j) as [kvb|] eqn:Eb; [|done].
  injection Hi as <-. injection Hj as <-.
  apply lookup_take_Some in Ea as [Ea _]. apply lookup_take_Some in Eb as [Eb _].
  pose proof (sorted_groups_distinct _ _ _ _ Hg i j _ _ Hij Ea Eb) as Hne.
  destruct (keyed_table_cells kva) as (-> & _).
  { apply list_elem_of_In. by eapply list_elem_of_lookup_2. }
  destruct (keyed_table_cells kvb) as (-> & _).
  { apply list_elem_of_In. by eapply list_elem_of_lookup_2. }
  done.
Qed.

Lemma keyed_table_sorted : sorted_descending name (rows R).
Proof.
  destruct keyed_table_rows as (k & HR' & _).
  intros i j a b Hij Hi Hj.
  rewrite HR' in Hi, Hj. rewrite list_lookup_fmap in Hi, Hj.
  destruct (take k _ !! i) as [kva|] eqn:Ea; [|done].
  destruct (take k _ !! j) as [kvb|] eqn:Eb; [|done].
  injection Hi as <-. injection Hj as <-.
  apply lookup_take_Some in Ea as [Ea _]. apply lookup_take_Some in Eb as [Eb _].
  destruct (keyed_table_cells kva) as (_ & -> & Hva & _).
  { apply list_elem_of_In. by eapply list_elem_of_lookup_2. }
  destruct (keyed_table_cells kvb) as (_ & -> & Hvb & _).
  { apply list_elem_of_In. by eapply list_elem_of_lookup_2. }
  destruct (decide (i = j)) as [->|Hne].
  - rewrite Ea in Eb. injection Eb as <-. rewrite Hva. apply Qle_bool_iff, Qle_refl.
  - exact (StronglySorted_lookup _ _ i j _ _
             (sorted_groups_StronglySorted _ _ _ _ Hg) ltac:(lia) Ea Eb).
Qed.

Lemma keyed_table_length :
  0 ≤ n → nrows R = (Z.to_nat n `min` length (group_keys keys S))%nat.
Proof.
  destruct keyed_table_rows as (k & HR' & Hk).
  intros Hn. unfold nrows. rewrite HR', length_map, length_take, (Hk Hn).
  unfold sorted. by rewrite (sorted_groups_length _ _ _ _ Hg).
Qed.

Lemma keyed_table_top s :
  s ∈ rows S → key_present keys s = true →
  (∃ r, r ∈ rows R ∧ keys_eqb (key_of keys r) (key_of keys s) = true)
  ∨ (∀ r, r ∈ rows R →
       ∃ q, cell r name = VNum q
            ∧ (column_total "LineTotal" (group_rows keys S (key_of keys s)) <= q)%Q).
Proof.
  destruct keyed_table_rows as (k & HR' & _).
  intros Hs%list_elem_of_In Hp.
  assert (∀ kv, In kv (take k sorted) → In kv sorted) as Htake.
  { intros kv Hkv. apply list_elem_of_In, elem_of_take in Hkv as (i & Hkv & _).
    by apply list_elem_of_lookup_2, list_elem_of_In in Hkv. }
  destruct (sorted_groups_top _ _ _ _ Hg k s Hs Hp) as [(kv & Hkv & Heq)|Hle].
  - left. exists (row kv). split.
    + rewrite HR'. apply list_elem_of_In, in_map, Hkv.
    + by destruct (keyed_table_cells kv (Htake _ Hkv)) as (-> & _).
  - right. intros r Hr. rewrite HR' in Hr.
    apply list_elem_of_In, in_map_iff in Hr as (kv & <- & Hkv).
    destruct (keyed_table_cells kv (Htake _ Hkv)) as (_ & -> & Hv & _).
    specialize (Hle kv Hkv). rewrite Hv in *. unfold group_total in *.
    eexists. split; [done|]. by apply Qle_bool_iff.
Qed.
End keyed_table.

(** ** The three top-N methods *)

Section top_table.
Context (self : ChinookAnalyzer) (col : string) (n : Z) (h : heap) (S R : DataFrame).
Context (Hcol : col ≠ "LineTotal") (Hrev : col ≠ "Revenue").
Context (HS : h !! sales_df self = Some S).
Context (Hret : returned (top_by_revenue self col n h) = Ok R).

Lemma top_table_structure :
  columns R = [col; "Revenue"]
  ∧ ∃ g, groupby_sum [col] "LineTotal" S = Ok g
         ∧ rows R = map (top_row col "Revenue") (head n (keyed_sort_desc g))
         ∧ ∀ kv, In kv.1 (group_keys [col] S) →
                 key_of [col] (top_row col "Revenue" kv) = kv.1
                 ∧ cell (top_row col "Revenue" kv) "Revenue" = kv.2.
Proof.
  destruct (top_by_revenue_run _ _ _ _ _ _ HS Hret) as (g & Hg & ->).
  split; [by apply top_table_columns|].
  exists g. split; [done|]. split; [by rewrite top_table_rows|].
  intros [kk v] (s & _ & _ & Hk)%group_keys_In. cbn [fst snd] in *. subst kk.
  unfold key_of. cbn [map].
  by destruct (top_row_cells col "Revenue" (cell s col) v Hcol Hrev) as [-> ->].
Qed.

Lemma top_table_row r :
  r ∈ rows R →
  ∃ s, s ∈ rows S ∧ isna (cell s col) = false
       ∧ cell r col = cell s col
       ∧ cell r "Revenue" = VNum (column_total "LineTotal" (rows_with col (cell s col) S)).
Proof.
  destruct top_table_structure as (_ & g & Hg & HR & Hrow). intros Hr.
  destruct (keyed_table_row _ _ _ _ _ _ _ Hg HR Hrow r Hr) as (s & Hs & Hp & Hk & Hv).
  rewrite single_key_present in Hp. apply negb_true_iff in Hp.
  exists s. split; [done|]. split; [done|].
  unfold key_of in Hk. cbn [map] in Hk. injection Hk as Hk. split; [done|].
  rewrite Hv. unfold group_total, key_of. cbn [map]. by rewrite group_rows_single.
Qed.

Lemma top_table_distinct i j a b :
  i ≠ j → rows R !! i = Some a → rows R !! j = Some b →
  value_eqb (cell a col) (cell b col) = false.
Proof.
  destruct top_table_structure as (_ & g & Hg & HR & Hrow). intros Hij Hi Hj.
  pose proof (keyed_table_distinct _ _ _ _ _ _ _ Hg HR Hrow i j a b Hij Hi Hj) as Hne.
  unfold key_of in Hne. cbn [map] in Hne. by rewrite single_keys_eqb in Hne.
Qed.

Lemma top_table_sorted : sorted_descending "Revenue" (rows R).
Proof.
  destruct top_table_structure as (_ & g & Hg & HR & Hrow).
  by eapply keyed_table_sorted.
Qed.

Lemma top_table_length :
  0 ≤ n →
  nrows R = (Z.to_nat n `min` nunique (map (λ r, cell r col) (rows S)))%nat.
Proof.
  destruct top_table_structure as (_ & g & Hg & HR & Hrow). intros Hn.
  rewrite (keyed_table_length _ _ _ _ _ _ Hg HR Hn).
  by rewrite group_keys_single_length.
Qed.

Lemma top_table_top s :
  s ∈ rows S → isna (cell s col) = false →
  (∃ r, r ∈ rows R ∧ value_eqb (cell r col) (cell s col) = true)
  ∨ (∀ r, r ∈ rows R →
       ∃ q, cell r "Revenue" = VNum q
            ∧ (column_total "LineTotal" (rows_with col (cell s col) S) <= q)%Q).
Proof.
  destruct top_table_structure as (_ & g & Hg & HR & Hrow). intros Hs Hna.
  assert (key_present [col] s = true) as Hp by (by rewrite single_key_present, Hna).
  destruct (keyed_table_top _ _ _ _ _ _ _ Hg HR Hrow s Hs Hp) as [(r & Hr & Heq)|Hle].
  - left. exists r. split; [done|].
    unfold key_of in Heq. cbn [map] in Heq. by rewrite single_keys_eqb in Heq.
  - right. intros r Hr. destruct (Hle r Hr) as (q & Hq & Hle').
    exists q. split; [done|]. unfold key_of in Hle'. cbn [map] in Hle'.
    by rewrite group_rows_single in Hle'.
Qed.
End top_table.

Lemma top_methods_body self n col m :
  In (col, m) (top_methods self n) →
  m = top_by_revenue self col n ∧ col ≠ "LineTotal" ∧ col ≠ "Revenue".
Proof.
  intros [[= <- <-]|[[= <- <-]|[[= <- <-]|[]]]]; repeat split; discriminate.
Qed.

(** ** A table of all the groups *)

Lemma take_all_head {A} (n : Z) (l : list A) :
  Z.of_nat (length l) ≤ n → head n l = l.
Proof.
  intros Hn. unfold head. rewrite (proj2 (Z.leb_le 0 n)) by lia.
  apply take_ge. lia.
Qed.

(** Every group is among the sorted groups. *)
Lemma sorted_groups_all keys col (S : DataFrame) (g : KeyedSeries) r :
  groupby_sum keys col S = Ok g →
  In r (rows S) → key_present keys r = true →
  ∃ kv, In kv (sort_by (λ a b : list value * value, value_leb b.2 a.2) g)
        ∧ keys_eqb kv.1 (key_of keys r) = true.
Proof.
  intros Hg Hr Hp.
  pose proof (key_count_group_keys keys S r Hr Hp) as Hcount.
  rewrite <-(sorted_groups_keys_count keys col S g Hg) in Hcount.
  unfold key_count in Hcount.
  destruct (List.filter (keys_eqb (key_of keys r)) _) as [|k0 ?] eqn:E; [done|].
  assert (In k0 (List.filter (keys_eqb (key_of keys r))
                   (map fst (sort_by (λ a b : list value * value,
                                        value_leb b.2 a.2) g)))) as Hk0
    by (rewrite E; by left).
  apply filter_In in Hk0 as [Hk0 Heq].
  apply in_map_iff in Hk0 as (kv & <- & Hkv).
  exists kv. split; [done|]. by rewrite keys_eqb_sym.
Qed.

Lemma rows_with_proper col v v' S :
  value_eqb v v' = true → rows_with col v S = rows_with col v' S.
Proof.
  intros Heq. unfold rows_with. apply filter_ext. intros s.
  destruct (value_eqb (cell s col) v) eqn:E1, (value_eqb (cell s col) v') eqn:E2;
    try done.
  - by rewrite (value_eqb_trans _ _ _ E1 Heq) in E2.
  - rewrite value_eqb_sym in Heq. by rewrite (value_eqb_trans _ _ _ E2 Heq) in E1.
Qed.

(** With [n] at least the number of groups, each value of the grouping
    column that is not missing has its row, and only one. *)
Lemma top_table_all self col n (h : heap) S R s :
  col ≠ "LineTotal" → col ≠ "Revenue" →
  h !! sales_df self = Some S →
  returned (top_by_revenue self col n h) = Ok R →
  Z.of_nat (nunique (map (λ r, cell r col) (rows S))) ≤ n →
  s ∈ rows S → isna (cell s col) = false →
  ∃ r, List.filter (λ r, value_eqb (cell r col) (cell s col)) (rows R) = [r]
       ∧ cell r "Revenue"
         = VNum (column_total "LineTotal" (rows_with col (cell s col) S)).
Proof.
  intros Hcol Hrev HS Hret Hn Hs Hna.
  destruct (top_table_structure _ _ _ _ _ _ Hcol Hrev HS Hret)
    as (_ & g & Hg & HR & Hrow).
  rewrite (keyed_sort_desc_totals _ (groups_totals _ _ _ _ Hg)) in HR.
  rewrite take_all_head in HR.
  2:{ rewrite (sorted_groups_length _ _ _ _ Hg), group_keys_single_length. done. }
  assert (key_present [col] s = true) as Hp by (by rewrite single_key_present, Hna).
  apply list_elem_of_In in Hs.
  destruct (sorted_groups_all _ _ _ _ _ Hg Hs Hp) as (kv & Hkv & Heq).
  assert (top_row col "Revenue" kv ∈ rows R) as Hr.
  { rewrite HR. by apply list_elem_of_In, in_map. }
  destruct (Hrow kv) as [Hkey _].
  { by apply (sorted_groups_In _ _ _ _ Hg) in Hkv as [? _]. }
  rewrite <-Hkey in Heq. unfold key_of in Heq. cbn [map] in Heq.
  rewrite single_keys_eqb in Heq.
  exists (top_row col "Revenue" kv). split.
  - apply list_elem_of_lookup_1 in Hr as [i Hi].
    apply (filter_unique _ _ i); [done..|].
    intros j y Hji Hj.
    pose proof (top_table_distinct _ _ _ _ _ _ Hcol Hrev HS Hret j i y _ Hji Hj Hi)
      as Hne.
    destruct (value_eqb (cell y col) (cell s col)) eqn:E; [|done].
    rewrite value_eqb_sym in Heq.
    by rewrite (value_eqb_trans _ _ _ E Heq) in Hne.
  - destruct (top_table_row _ _ _ _ _ _ Hcol Hrev HS Hret _ Hr)
      as (s' & _ & _ & Hc & ->).
    rewrite Hc in Heq. by rewrite (rows_with_proper _ _ _ _ Heq).
Qed.

(** X10: [top_countries_by_revenue], [top_genres_by_revenue] and
    [top_artists_by_revenue] return a table of two columns, the grouping
    column and [Revenue], with one row for a value of the grouping column
    that is not missing: no value comes twice, and the [Revenue] of a row is
    the sum of [LineTotal] over the sales rows with that value. *)
Theorem top_by_revenue_groups self n col m (h : heap) S R :
  In (col, m) (top_methods self n) →
  h !! sales_df self = Some S →
  returned (m h) = Ok R →
  columns R = [col; "Revenue"]
  ∧ (∀ r, r ∈ rows R →
       ∃ s, s ∈ rows S ∧ isna (cell s col) = false
            ∧ cell r col = cell s col
            ∧ cell r "Revenue"
              = VNum (column_total "LineTotal" (rows_with col (cell s col) S)))
  ∧ (∀ i j a b, i ≠ j → rows R !! i = Some a → rows R !! j = Some b →
       value_eqb (cell a col) (cell b col) = false).
Proof.
  intros (-> & Hcol & Hrev)%top_methods_body HS Hret. split; [|split].
  - by destruct (top_table_structure _ _ _ _ _ _ Hcol Hrev HS Hret) as [Hc _].
  - intros r Hr. by eapply top_table_row.
  - intros i j a b. by eapply top_table_distinct.
Qed.

Lemma top_by_revenue_groups_witness :
  match returned (top_genres_by_revenue ex_sales_analyzer 10 [ex_sales]) with
  | Ok R =>
      columns R = ["Name_genre"; "Revenue"]
      ∧ ∀ i j a b, i ≠ j → rows R !! i = Some a → rows R !! j = Some b →
          value_eqb (cell a "Name_genre") (cell b "Name_genre") = false
  | Raise _ => False
  end.
Proof.
  destruct (returned (top_genres_by_revenue ex_sales_analyzer 10 [ex_sales]))
    as [R|e] eqn:E.
  - destruct (top_by_revenue_groups ex_sales_analyzer 10 "Name_genre"
                (top_genres_by_revenue ex_sales_analyzer 10) [ex_sales] ex_sales R)
      as (Hc & _ & Hd); [right; left; reflexivity | reflexivity | exact E |].
    by split.
  - vm_compute in E. discriminate E.
Defined.

(** X11: The rows the three top-N methods return are the [n] groups of greatest
    revenue, greatest first: the rows come in non-increasing order of
    [Revenue], for [n >= 0] there are [n] of them or as many as there are
    distinct values, and a value of the grouping column that has no row in the
    result has a total that is at most every [Revenue] returned. *)
Theorem top_by_revenue_greatest self n col m (h : heap) S R :
  In (col, m) (top_methods self n) →
  h !! sales_df self = Some S →
  returned (m h) = Ok R →
  sorted_descending "Revenue" (rows R)
  ∧ (0 ≤ n →
     nrows R = (Z.to_nat n `min` nunique (map (λ r, cell r col) (rows S)))%nat)
  ∧ (∀ s, s ∈ rows S → isna (cell s col) = false →
       (∃ r, r ∈ rows R ∧ value_eqb (cell r col) (cell s col) = true)
       ∨ (∀ r, r ∈ rows R →
            ∃ q, cell r "Revenue" = VNum q
                 ∧ (column_total "LineTotal" (rows_with col (cell s col) S) <= q)%Q)).
Proof.
  intros (-> & Hcol & Hrev)%top_methods_body HS Hret. split; [|split].
  - by eapply top_table_sorted.
  - by eapply top_table_length.
  - intros s. by eapply top_table_top.
Qed.

Lemma top_by_revenue_greatest_witness :
  match returned (top_countries_by_revenue ex_sales_analyzer 1 [ex_sales]) with
  | Ok R => sorted_descending "Revenue" (rows R) ∧ nrows R = 1%nat
  | Raise _ => False
  end.
Proof.
  destruct (returned (top_countries_by_revenue ex_sales_analyzer 1 [ex_sales]))
    as [R|e] eqn:E.
  - destruct (top_by_revenue_greatest ex_sales_analyzer 1 "Country"
                (top_countries_by_revenue ex_sales_analyzer 1) [ex_sales] ex_sales R)
      as (Hs & Hn & _); [left; reflexivity | reflexivity | exact E |].
    split; [exact Hs|]. rewrite Hn by lia. vm_compute. reflexivity.
  - vm_compute in E. discriminate E.
Defined.

(** X12: when [n] is at least the number of distinct values of the grouping
    column, nothing is cut off: the table of [top_countries_by_revenue],
    [top_genres_by_revenue] or [top_artists_by_revenue] has one row for each
    distinct value, a sales row whose grouping value is not missing is
    counted in exactly one returned row, that of its value, whose [Revenue]
    is the sum of [LineTotal] over the sales rows with that value, and a
    sales row whose grouping value is missing is counted in no row. *)
Theorem top_by_revenue_counts_each_row_once self n col m (h : heap) S R :
  In (col, m) (top_methods self n) →
  h !! sales_df self = Some S →
  returned (m h) = Ok R →
  Z.of_nat (nunique (map (λ r, cell r col) (rows S))) ≤ n →
  nrows R = nunique (map (λ r, cell r col) (rows S))
  ∧ ∀ s, s ∈ rows S →
      if isna (cell s col)
      then List.filter (λ r, value_eqb (cell r col) (cell s col)) (rows R) = []
      else ∃ r,
        List.filter (λ r, value_eqb (cell r col) (cell s col)) (rows R) = [r]
        ∧ cell r "Revenue"
          = VNum (column_total "LineTotal" (rows_with col (cell s col) S)).
Proof.
  intros (-> & Hcol & Hrev)%top_methods_body HS Hret Hn. split.
  - rewrite (top_table_length _ _ _ _ _ _ Hcol Hrev HS Hret) by lia. lia.
  - intros s Hs. destruct (isna (cell s col)) eqn:Hna.
    + apply filter_none, Forall_forall. intros r Hr.
      destruct (top_table_row _ _ _ _ _ _ Hcol Hrev HS Hret r Hr)
        as (s' & _ & Hna' & -> & _).
      by destruct (cell s' col), (cell s col).
    + by eapply top_table_all.
Qed.

Lemma top_by_revenue_counts_each_row_once_witness :
  match returned (top_artists_by_revenue ex_sales_analyzer 10 [ex_sales]) with
  | Ok R =>
      nrows R = 1%nat
      ∧ (∃ r, List.filter (λ r, value_eqb (cell r "Name_artist") (VStr "Helios"))
                          (rows R) = [r])
      ∧ List.filter (λ r, value_eqb (cell r "Name_artist") VNull) (rows R) = []
  | Raise _ => False
  end.
Proof.
  destruct (returned (top_artists_by_revenue ex_sales_analyzer 10 [ex_sales]))
    as [R|e] eqn:E.
  - destruct (top_by_revenue_counts_each_row_once ex_sales_analyzer 10 "Name_artist"
                (top_artists_by_revenue ex_sales_analyzer 10) [ex_sales] ex_sales R)
      as [Hn Hall];
      [ right; right; left; reflexivity | reflexivity | exact E
      | apply Z.leb_le; vm_compute; reflexivity | ].
    split; [rewrite Hn; vm_compute; reflexivity|]. split.
    + destruct (Hall (nth 0 (rows ex_sales) ∅)) as (r & Hr & _);
        [apply (list_elem_of_lookup_2 _ 0%nat); reflexivity|].
      by exists r.
    + apply (Hall (nth 2 (rows ex_sales) ∅)).
      apply (list_elem_of_lookup_2 _ 2%nat). reflexivity.
  - vm_compute in E. discriminate E.
Defined.

(** ** customer_lifetime_value *)

Lemma clv_row_cells a b c v :
  key_of clv_keys (clv_row ([a; b; c], v)) = [a; b; c]
  ∧ cell (clv_row ([a; b; c], v)) "TotalRevenue" = v.
Proof.
  unfold clv_row, clv_keys, key_of.
  cbn [map zip zip_with fst snd app list_to_map foldr uncurry
       String.eqb Ascii.eqb Bool.eqb].
  repeat (first [rewrite cell_insert | rewrite cell_insert_ne by done]).
  done.
Qed.

Lemma clv_key_present s : key_present clv_keys s = named_customer s.
Proof.
  unfold key_present, key_of, named_customer, clv_keys. simpl.
  by rewrite andb_true_r, andb_assoc.
Qed.

Lemma clv_keys_eqb a b :
  keys_eqb (key_of clv_keys a) (key_of clv_keys b) = same_customer a b.
Proof.
  unfold key_of, same_customer, clv_keys. simpl.
  by rewrite andb_true_r, andb_assoc.
Qed.

Lemma clv_group_rows S s :
  group_rows clv_keys S (key_of clv_keys s) = customer_lines S s.
Proof.
  unfold group_rows, customer_lines. apply filter_ext. intros s'.
  by rewrite clv_key_present, clv_keys_eqb.
Qed.

Lemma clv_table_rows s :
  rows (df_rename "LineTotal" "TotalRevenue" (reset_index clv_keys "LineTotal" s))
  = map clv_row s.
Proof. unfold df_rename, reset_index. cbn [rows columns]. by rewrite map_map. Qed.

Lemma customer_lifetime_value_run self n h S R :
  h !! sales_df self = Some S →
  returned (customer_lifetime_value self n h) = Ok R →
  ∃ g, groupby_sum clv_keys "LineTotal" S = Ok g
       ∧ R = df_rename "LineTotal" "TotalRevenue"
               (reset_index clv_keys "LineTotal" (head n (keyed_sort_desc g))).
Proof.
  intros HS Hret.
  eapply (returned_wp _ _ _ (λ R, ∃ g, _ ∧ R = _)); [exact Hret|].
  clear Hret. unfold customer_lifetime_value.
  repeat wp_step h. returned_owned.
  eexists. split; [eassumption|reflexivity].
Qed.

Lemma clv_table_structure self n (h : heap) S R :
  h !! sales_df self = Some S →
  returned (customer_lifetime_value self n h) = Ok R →
  columns R = ["CustomerId"; "FirstName"; "LastName"; "TotalRevenue"]
  ∧ ∃ g, groupby_sum clv_keys "LineTotal" S = Ok g
         ∧ rows R = map clv_row (head n (keyed_sort_desc g))
         ∧ ∀ kv, In kv.1 (group_keys clv_keys S) →
                 key_of clv_keys (clv_row kv) = kv.1
                 ∧ cell (clv_row kv) "TotalRevenue" = kv.2.
Proof.
  intros HS Hret.
  destruct (customer_lifetime_value_run _ _ _ _ _ HS Hret) as (g & Hg & ->).
  split; [reflexivity|].
  exists g. split; [done|]. split; [by rewrite clv_table_rows|].
  intros [kk v] (s & _ & _ & Hk)%group_keys_In. cbn [fst snd] in *. subst kk.
  apply (clv_row_cells (cell s "CustomerId") (cell s "FirstName") (cell s "LastName")).
Qed.

(** X13: [customer_lifetime_value] groups the sales rows that have a customer id,
    a first name and a last name (a row that misses one of the three is in no
    group) and returns the [n] customers of greatest total, greatest first:
    each row carries the three cells of a customer and, as [TotalRevenue], the
    sum of [LineTotal] over that customer's rows; the rows come in
    non-increasing order of [TotalRevenue], at most [n] of them for [n >= 0];
    a customer with no row in the result has a total that is at most every
    [TotalRevenue] returned. *)
Theorem customer_lifetime_value_greatest self n (h : heap) S R :
  h !! sales_df self = Some S →
  returned (customer_lifetime_value self n h) = Ok R →
  columns R = ["CustomerId"; "FirstName"; "LastName"; "TotalRevenue"]
  ∧ (∀ r, r ∈ rows R →
       ∃ s, s ∈ rows S ∧ named_customer s = true
            ∧ (cell r "CustomerId" = cell s "CustomerId"
               ∧ cell r "FirstName" = cell s "FirstName"
               ∧ cell r "LastName" = cell s "LastName")
            ∧ cell r "TotalRevenue"
              = VNum (column_total "LineTotal" (customer_lines S s)))
  ∧ sorted_descending "TotalRevenue" (rows R)
  ∧ (0 ≤ n → (nrows R ≤ Z.to_nat n)%nat)
  ∧ (∀ s, s ∈ rows S → named_customer s = true →
       (∃ r, r ∈ rows R ∧ same_customer r s = true)
       ∨ (∀ r, r ∈ rows R →
            ∃ q, cell r "TotalRevenue" = VNum q
                 ∧ (column_total "LineTotal" (customer_lines S s) <= q)%Q)).
Proof.
  intros HS Hret.
  destruct (clv_table_structure _ _ _ _ _ HS Hret) as (Hcols & g & Hg & HR & Hrow).
  split; [exact Hcols|]. split; [|split; [|split]].
  - intros r Hr.
    destruct (keyed_table_row _ _ _ _ _ _ _ Hg HR Hrow r Hr) as (s & Hs & Hp & Hk & Hv).
    exists s. split; [done|]. split; [by rewrite <-clv_key_present|]. split.
    + unfold key_of, clv_keys in Hk. cbn [map] in Hk. by injection Hk.
    + rewrite Hv. unfold group_total. by rewrite clv_group_rows.
  - by eapply keyed_table_sorted.
  - intros Hn. rewrite (keyed_table_length _ _ _ _ _ _ Hg HR Hn). lia.
  - intros s Hs Hp. rewrite <-clv_key_present in Hp.
    destruct (keyed_table_top _ _ _ _ _ _ _ Hg HR Hrow s Hs Hp) as [(r & Hr & Heq)|Hle].
    + left. exists r. split; [done|]. by rewrite <-clv_keys_eqb.
    + right. intros r Hr. destruct (Hle r Hr) as (q & Hq & Hle').
      exists q. split; [done|]. by rewrite <-clv_group_rows.
Qed.

Lemma customer_lifetime_value_greatest_witness :
  match returned (customer_lifetime_value ex_sales_analyzer 10 [ex_sales]) with
  | Ok R =>
      columns R = ["CustomerId"; "FirstName"; "LastName"; "TotalRevenue"]
      ∧ sorted_descending "TotalRevenue" (rows R)
  | Raise _ => False
  end.
Proof.
  destruct (returned (customer_lifetime_value ex_sales_analyzer 10 [ex_sales]))
    as [R|e] eqn:E.
  - destruct (customer_lifetime_value_greatest ex_sales_analyzer 10 [ex_sales]
                ex_sales R eq_refl E) as (Hc & _ & Hs & _).
    by split.
  - vm_compute in E. discriminate E.
Defined.

(** * analytics.py: the words of the titles *)

Lemma str_forall_of_list p l :
  str_forall p (string_of_list_ascii l) = forallb p l.
Proof. induction l as [|c l IH]; simpl; [done|]. by rewrite IH. Qed.

Lemma forallb_rev {A} (p : A → bool) l : forallb p (rev l) = forallb p l.
Proof.
  induction l as [|x l IH]; simpl; [done|].
  rewrite forallb_app, IH. simpl. rewrite andb_true_r. apply andb_comm.
Qed.

Lemma string_of_rev_nonempty c l : string_of_list_ascii (rev (c :: l)) ≠ "".
Proof. simpl. by destruct (rev l). Qed.

(** The words [split_ws] returns are not empty and are made of the characters
    read, none of them white space. *)
Lemma split_ws_words p cur s w :
  forallb p cur = true →
  str_forall (λ c, p c || is_space c) s = true →
  In w (split_ws cur s) →
  w ≠ "" ∧ str_forall p w = true.
Proof.
  revert cur. induction s as [|c s IH]; intros cur Hp Hs Hw.
  - simpl in Hw. destruct cur as [|c0 cur]; [done|].
    destruct Hw as [<-|[]]. split; [apply string_of_rev_nonempty|].
    by rewrite str_forall_of_list, forallb_rev.
  - cbn [str_forall] in Hs. apply andb_prop in Hs as [Hc Hs]. cbn [split_ws] in Hw.
    destruct (is_space c) eqn:Ec.
    + destruct cur as [|c0 cur]; [by apply (IH [])|].
      destruct Hw as [<-|Hw]; [|by apply (IH [])].
      split; [apply string_of_rev_nonempty|].
      by rewrite str_forall_of_list, forallb_rev.
    + apply (IH (c :: cur)); [|done..].
      simpl. rewrite Hp, andb_true_r. by rewrite orb_false_r in Hc.
Qed.

Lemma str_filter_forall p s : str_forall p (str_filter p s) = true.
Proof.
  induction s as [|c s IH]; simpl; [done|].
  destruct (p c) eqn:E; simpl; [by rewrite E|done].
Qed.

(** The words of a title are not empty and hold lower-case letters only. *)
Lemma title_words_clean (str_of_value : value → string) v w :
  In w (title_words str_of_value v) →
  w ≠ "" ∧ str_forall is_lower_letter w = true.
Proof.
  unfold title_words. apply split_ws_words; [done|]. apply str_filter_forall.
Qed.

(** ** Counting the words *)

Lemma word_row_cells w c :
  cell (word_row (w, c)) "Word" = VStr w
  ∧ cell (word_row (w, c)) "Frequency" = num (Z.of_nat c).
Proof.
  unfold word_row. cbn [map zip zip_with fst snd app list_to_map foldr uncurry].
  repeat (first [rewrite cell_insert | rewrite cell_insert_ne by done]). done.
Qed.

Lemma dedup_by_In {A} (eqb : A → A → bool) l x : In x (dedup_by eqb l) → In x l.
Proof.
  induction l as [|y l IH]; simpl; [done|].
  intros [->|[Hin _]%filter_In]; auto.
Qed.

Lemma dedup_by_string_NoDup (l : list string) : NoDup (dedup_by String.eqb l).
Proof.
  induction l as [|x l IH]; simpl; constructor.
  - intros Hin%list_elem_of_In%filter_In. destruct Hin as [_ Hx].
    by rewrite String.eqb_refl in Hx.
  - clear -IH. induction IH as [|y l' Hy _ IH']; simpl; [constructor|].
    destruct (negb (x =? y)%string); [|done]. constructor; [|done].
    intros Hin%list_elem_of_In%filter_In. apply Hy, list_elem_of_In. by destruct Hin.
Qed.

Lemma dedup_by_string_complete (l : list string) x : In x l → In x (dedup_by String.eqb l).
Proof.
  induction l as [|y l IH]; simpl; [done|].
  intros [->|Hin]; [by left|].
  destruct (String.eqb_spec y x) as [->|Hne]; [by left|]. right.
  apply filter_In. split; [by apply IH|].
  apply negb_true_iff. by apply String.eqb_neq.
Qed.

Lemma Sorted_weaken {A} (R R' : A → A → Prop) l :
  (∀ a b, R a b → R' a b) → Sorted R l → Sorted R' l.
Proof.
  intros HR. induction 1 as [|x l _ IH Hd]; constructor; [done|].
  destruct Hd; constructor. by apply HR.
Qed.

Section counts.
Context (words : list string).

Let counted := sort_by (λ a b : string * nat, (b.2 <=? a.2)%nat)
                       (map (λ w, (w, occurrences w words)) (dedup_by String.eqb words)).

Lemma value_counts_eq : value_counts words = counted.
Proof. reflexivity. Qed.

Lemma counted_In wc :
  In wc counted ↔ In wc.1 words ∧ wc.2 = occurrences wc.1 words.
Proof.
  unfold counted. split.
  - intros Hin. apply (Permutation_in _ (sort_by_Permutation _ _)) in Hin.
    apply in_map_iff in Hin as (w & <- & Hw). split; [|done].
    by apply dedup_by_In in Hw.
  - intros [Hw Hc]. apply (Permutation_in _ (symmetry (sort_by_Permutation _ _))).
    apply in_map_iff. exists wc.1. split; [by destruct wc; simpl in *; subst|].
    by apply dedup_by_string_complete.
Qed.

Lemma counted_NoDup : NoDup (map fst counted).
Proof.
  unfold counted. rewrite (sort_by_Permutation _ _), map_map. simpl.
  rewrite map_id. apply dedup_by_string_NoDup.
Qed.

Lemma counted_StronglySorted :
  StronglySorted (λ a b : string * nat, (b.2 ≤ a.2)%nat) counted.
Proof.
  apply Sorted_members_StronglySorted; [intros; lia|].
  eapply Sorted_weaken;
    [|apply (sort_by_Sorted (λ a b : string * nat, (b.2 <=? a.2)%nat))].
  - intros a b Hab. by apply Nat.leb_le.
  - intros x y Hxy. apply Nat.leb_le. apply Nat.leb_gt in Hxy. lia.
Qed.
End counts.

(** ** The table of top_words_in_track_titles *)

Lemma top_words_table (str_of_value : value → string) self n stopwords (h : heap) c C R :
  catalog_df self = Some c → h !! c = Some C →
  returned (top_words_in_track_titles str_of_value self n stopwords h) = Ok R →
  columns R = ["Word"; "Frequency"]
  ∧ rows R = map word_row
                 (head n (value_counts (counted_words str_of_value stopwords C))).
Proof.
  intros Hc HC. rewrite (top_words_returned _ _ _ _ _ _ _ Hc HC).
  destruct (has_column "Name" C); [|done].
  unfold df_set_columns, word_counts, reset_index. cbn [columns rows app length].
  rewrite bool_decide_eq_true_2 by done. intros [= <-]. cbn [columns rows].
  split; [done|]. by rewrite !map_map.
Qed.

Lemma occurrences_filter (p : string → bool) ws w :
  p w = true → occurrences w (List.filter p ws) = occurrences w ws.
Proof.
  intros Hw. unfold occurrences. induction ws as [|x ws IH]; simpl; [done|].
  destruct (String.eqb_spec w x) as [<-|Hne].
  - rewrite Hw. simpl. rewrite String.eqb_refl. simpl. by rewrite IH.
  - destruct (p x); simpl; [|done].
    rewrite (proj2 (String.eqb_neq w x) Hne). done.
Qed.

Lemma occurrences_pos w ws : In w ws → (1 ≤ occurrences w ws)%nat.
Proof.
  unfold occurrences. induction ws as [|x ws IH]; simpl; [done|].
  intros [->|Hin].
  - rewrite String.eqb_refl. simpl. lia.
  - specialize (IH Hin). destruct (w =? x)%string; simpl; lia.
Qed.

Section top_words.
Context (str_of_value : value → string) (self : ChinookAnalyzer) (n : Z).
Context (stopwords : option (gset string)) (h : heap) (c : loc) (C R : DataFrame).
Context (Hc : catalog_df self = Some c) (HC : h !! c = Some C).
Context (Hret : returned (top_words_in_track_titles str_of_value self n stopwords h)
                = Ok R).

Lemma top_words_rows :
  ∃ k, rows R = map word_row
                    (take k (value_counts (counted_words str_of_value stopwords C)))
       ∧ (0 ≤ n → k = Z.to_nat n).
Proof.
  destruct (top_words_table _ _ _ _ _ _ _ _ Hc HC Hret) as [_ ->].
  destruct (head_take n (value_counts (counted_words str_of_value stopwords C)))
    as (k & -> & Hk).
  by exists k.
Qed.

Lemma top_words_row r :
  r ∈ rows R →
  ∃ wc, r = word_row wc
        ∧ In wc.1 (title_tokens str_of_value C)
        ∧ (wc.1 ∉ default default_stopwords stopwords)
        ∧ wc.2 = occurrences wc.1 (title_tokens str_of_value C).
Proof.
  destruct top_words_rows as (k & -> & _).
  intros (wc & <- & Hwc)%list_elem_of_In%in_map_iff.
  apply list_elem_of_In, elem_of_take in Hwc as (i & Hwc & _).
  apply list_elem_of_lookup_2, list_elem_of_In, counted_In in Hwc as [Hw Hk].
  unfold counted_words in Hw. apply filter_In in Hw as [Hw Hstop].
  exists wc. split; [done|]. split; [done|].
  apply bool_decide_eq_true in Hstop. split; [done|].
  rewrite Hk. unfold counted_words. apply occurrences_filter.
  by apply bool_decide_eq_true.
Qed.
End top_words.

(** X14: The words [top_words_in_track_titles] returns are words of the titles:
    each is not empty, holds lower-case letters only, is no stop word, and
    comes with the number of times it occurs in the titles of the catalog,
    which is at least one; the table has the columns [Word] and
    [Frequency]. *)
Theorem top_words_are_title_words (str_of_value : value → string) self n stopwords
    (h : heap) c C R :
  catalog_df self = Some c → h !! c = Some C →
  returned (top_words_in_track_titles str_of_value self n stopwords h) = Ok R →
  columns R = ["Word"; "Frequency"]
  ∧ ∀ r, r ∈ rows R →
      ∃ w k, cell r "Word" = VStr w
             ∧ cell r "Frequency" = num (Z.of_nat k)
             ∧ w ≠ "" ∧ str_forall is_lower_letter w = true
             ∧ (w ∉ default default_stopwords stopwords)
             ∧ k = occurrences w (title_tokens str_of_value C)
             ∧ (1 ≤ k)%nat.
Proof.
  intros Hc HC Hret. split.
  - by destruct (top_words_table _ _ _ _ _ _ _ _ Hc HC Hret) as [-> _].
  - intros r Hr.
    destruct (top_words_row _ _ _ _ _ _ _ _ Hc HC Hret r Hr)
      as ([w k] & -> & Hw & Hstop & Hk).
    cbn [fst snd] in *. exists w, k.
    destruct (word_row_cells w k) as [-> ->]. split; [done|]. split; [done|].
    assert (w ≠ "" ∧ str_forall is_lower_letter w = true) as [? ?].
    { unfold title_tokens in Hw. apply in_concat in Hw as (ws & Hws & Hw).
      apply in_map_iff in Hws as (v & <- & _). by eapply title_words_clean. }
    split; [done|]. split; [done|]. split; [done|]. split; [done|].
    rewrite Hk. by apply occurrences_pos.
Qed.

Lemma top_words_are_title_words_witness :
  match returned (top_words_in_track_titles ex_str ex_titles_analyzer 20 None
                    [ex_sales_gap; ex_titles]) with
  | Ok R =>
      ∀ r, r ∈ rows R →
        ∃ w k, cell r "Word" = VStr w ∧ cell r "Frequency" = num (Z.of_nat k)
               ∧ k = occurrences w (title_tokens ex_str ex_titles)
  | Raise _ => False
  end.
Proof.
  destruct (returned (top_words_in_track_titles ex_str ex_titles_analyzer 20 None
                        [ex_sales_gap; ex_titles])) as [R|e] eqn:E.
  - intros r Hr.
    destruct (proj2 (top_words_are_title_words ex_str ex_titles_analyzer 20 None
                       [ex_sales_gap; ex_titles] 1%nat ex_titles R
                       eq_refl eq_refl E) r Hr)
      as (w & k & Hw & Hk & _ & _ & _ & Hocc & _).
    by exists w, k.
  - vm_compute in E. discriminate E.
Defined.

(** X15: [top_words_in_track_titles] returns the [n] most frequent words, most
    frequent first: the rows come in non-increasing order of [Frequency], at
    most [n] of them for [n >= 0], no word comes twice, and a word of the
    titles that is no stop word and has no row in the result occurs at most
    as often as every word returned. *)
Theorem top_words_most_frequent (str_of_value : value → string) self n stopwords
    (h : heap) c C R :
  catalog_df self = Some c → h !! c = Some C →
  returned (top_words_in_track_titles str_of_value self n stopwords h) = Ok R →
  sorted_descending "Frequency" (rows R)
  ∧ (0 ≤ n → (nrows R ≤ Z.to_nat n)%nat)
  ∧ (∀ i j a b, i ≠ j → rows R !! i = Some a → rows R !! j = Some b →
       cell a "Word" ≠ cell b "Word")
  ∧ (∀ w, In w (title_tokens str_of_value C) →
       w ∉ default default_stopwords stopwords →
       (∃ r, r ∈ rows R ∧ cell r "Word" = VStr w)
       ∨ (∀ r, r ∈ rows R →
            ∃ k, cell r "Frequency" = num (Z.of_nat k)
                 ∧ (occurrences w (title_tokens str_of_value C) ≤ k)%nat)).
Proof.
  intros Hc HC Hret.
  destruct (top_words_rows _ _ _ _ _ _ _ _ Hc HC Hret) as (k & HR & Hk).
  set (ws := counted_words str_of_value stopwords C) in *.
  assert (∀ i wc, take k (value_counts ws) !! i = Some wc →
                  value_counts ws !! i = Some wc) as Htake.
  { intros i wc Hi. by apply lookup_take_Some in Hi as [? _]. }
  split; [|split; [|split]].
  - intros i j a b Hij Hi Hj. rewrite HR, list_lookup_fmap in Hi, Hj.
    destruct (take k _ !! i) as [[wa ka]|] eqn:Ea; [|done].
    destruct (take k _ !! j) as [[wb kb]|] eqn:Eb; [|done].
    injection Hi as <-. injection Hj as <-.
    destruct (word_row_cells wa ka) as [_ ->]. destruct (word_row_cells wb kb) as [_ ->].
    apply Htake in Ea, Eb. unfold num. cbn [value_leb].
    apply Qle_bool_iff. rewrite <-Zle_Qle. apply Nat2Z.inj_le.
    destruct (decide (i = j)) as [->|Hne]; [rewrite Ea in Eb; by injection Eb as _ <-|].
    exact (StronglySorted_lookup _ _ i j _ _ (counted_StronglySorted ws)
             ltac:(lia) Ea Eb).
  - intros Hn. unfold nrows. rewrite HR, length_map, length_take, (Hk Hn). lia.
  - intros i j a b Hij Hi Hj. rewrite HR, list_lookup_fmap in Hi, Hj.
    destruct (take k _ !! i) as [[wa ka]|] eqn:Ea; [|done].
    destruct (take k _ !! j) as [[wb kb]|] eqn:Eb; [|done].
    injection Hi as <-. injection Hj as <-.
    destruct (word_row_cells wa ka) as [-> _]. destruct (word_row_cells wb kb) as [-> _].
    apply Htake in Ea, Eb. intros [= ->]. apply Hij.
    eapply (NoDup_lookup (map fst (value_counts ws))); [apply counted_NoDup|..].
    + by rewrite list_lookup_fmap, Ea.
    + by rewrite list_lookup_fmap, Eb.
  - intros w Hw Hstop.
    assert (In (w, occurrences w ws) (value_counts ws)) as Hin.
    { apply counted_In. split; [|done]. unfold ws, counted_words.
      apply filter_In. split; [done|]. by apply bool_decide_eq_true. }
    assert (occurrences w ws = occurrences w (title_tokens str_of_value C)) as Hocc.
    { unfold ws, counted_words. apply occurrences_filter. by apply bool_decide_eq_true. }
    rewrite <-(take_drop k (value_counts ws)) in Hin.
    apply in_app_or in Hin as [Hin|Hin].
    + left. exists (word_row (w, occurrences w ws)). split.
      * rewrite HR. by apply list_elem_of_In, in_map.
      * by destruct (word_row_cells w (occurrences w ws)) as [-> _].
    + right. intros r Hr. rewrite HR in Hr.
      apply list_elem_of_In, in_map_iff in Hr as ([w' k'] & <- & Hwk).
      exists k'. destruct (word_row_cells w' k') as [_ ->]. split; [done|].
      rewrite <-Hocc.
      exact (StronglySorted_take_drop _ _ k _ _ (counted_StronglySorted ws) Hwk Hin).
Qed.

Lemma top_words_most_frequent_witness :
  match returned (top_words_in_track_titles ex_str ex_titles_analyzer 1 None
                    [ex_sales_gap; ex_titles]) with
  | Ok R => sorted_descending "Frequency" (rows R) ∧ (nrows R ≤ 1)%nat
  | Raise _ => False
  end.
Proof.
  destruct (returned (top_words_in_track_titles ex_str ex_titles_analyzer 1 None
                        [ex_sales_gap; ex_titles])) as [R|e] eqn:E.
  - destruct (top_words_most_frequent ex_str ex_titles_analyzer 1 None
                [ex_sales_gap; ex_titles] 1%nat ex_titles R eq_refl eq_refl E)
      as (Hs & Hn & _).
    split; [exact Hs|]. apply Hn. lia.
  - vm_compute in E. discriminate E.
Defined.

(** * analytics.py: the months of revenue_by_month *)

(** [sort_values(c)] on a column without missing values returns the rows in
    non-decreasing order of [c]. *)
Lemma df_sort_values_asc_Sorted c df W :
  Forall (λ r, isna (cell r c) = false) (rows df) →
  df_sort_values c true df = Ok W →
  Sorted (λ a b, value_leb (cell a c) (cell b c) = true) (rows W).
Proof.
  intros Hall. unfold df_sort_values. case_match; [done|]. intros [= <-]. cbn [rows].
  rewrite (filter_none (λ r, isna (cell r c))) by done. rewrite app_nil_r.
  apply (sort_by_Sorted (λ a b, value_leb (cell a c) (cell b c))).
  intros x y. apply value_leb_total.
Qed.

Lemma revenue_by_month_sorted_run self (h : heap) S R :
  h !! sales_df self = Some S →
  returned (revenue_by_month self h) = Ok R →
  columns R = ["Month"; "Revenue"]
  ∧ ∃ W g,
      rows W = map (λ r, <["Month" := month_cell (cell r "InvoiceDate")]> r) (rows S)
      ∧ groupby_sum ["Month"] "LineTotal" W = Ok g
      ∧ df_sort_values "Month" true
          (df_rename "LineTotal" "Revenue" (reset_index ["Month"] "LineTotal" g))
        = Ok R.
Proof.
  intros HS Hret.
  eapply (returned_wp _ _ _ (λ R, columns R = _ ∧ ∃ W g, _ ∧ _ ∧ _ = Ok R));
    [exact Hret|].
  clear Hret. unfold revenue_by_month.
  repeat wp_step h. returned_owned.
  match goal with
  | Hd : df_getitem "InvoiceDate" _ = Ok _, Hm : dt _ _ = Ok _,
    Hs : df_setitem "Month" _ _ = Ok ?W, Hg : groupby_sum _ _ _ = Ok ?g,
    Hsort : df_sort_values _ _ _ = Ok _ |- _ =>
      destruct (with_month_rows _ _ _ _ Hd Hm Hs) as [Hrows _];
      split;
      [ revert Hsort; unfold df_sort_values; case_match; [done|];
        by intros [= <-]
      | exists W, g; split; [exact Hrows|]; split; [exact Hg|exact Hsort] ]
  end.
Qed.

Section months.
Context (S W R : DataFrame) (g : KeyedSeries).
Context (HW : rows W = map (λ r, <["Month" := month_cell (cell r "InvoiceDate")]> r)
                            (rows S)).
Context (Hg : groupby_sum ["Month"] "LineTotal" W = Ok g).
Context (HR : df_sort_values "Month" true
                (df_rename "LineTotal" "Revenue" (reset_index ["Month"] "LineTotal" g))
              = Ok R).

Lemma month_keys k :
  In k (group_keys ["Month"] W) →
  ∃ s t, In s (rows S) ∧ cell s "InvoiceDate" = VTime t
         ∧ k = [VTime (month_start t)].
Proof.
  intros (w & Hw & Hp & ->)%group_keys_In. rewrite HW in Hw.
  apply in_map_iff in Hw as (s & <- & Hs).
  rewrite single_key_present, cell_insert in Hp. unfold key_of. cbn [map].
  rewrite cell_insert. destruct (cell s "InvoiceDate") as [| | |t] eqn:E; try done.
  by exists s, t.
Qed.

Lemma month_rows :
  rows R ≡ₚ map (λ k, revenue_row (k, group_total ["Month"] "LineTotal" W k))
                (group_keys ["Month"] W).
Proof.
  rewrite (df_sort_values_Permutation _ _ _ _ HR), rename_reset_rows.
  by rewrite (groupby_sum_Ok _ _ _ _ Hg), map_map.
Qed.

Lemma month_row r :
  r ∈ rows R →
  ∃ s t, In s (rows S) ∧ cell s "InvoiceDate" = VTime t
         ∧ In [VTime (month_start t)] (group_keys ["Month"] W)
         ∧ cell r "Month" = VTime (month_start t).
Proof.
  intros Hr. rewrite month_rows in Hr.
  apply list_elem_of_In, in_map_iff in Hr as (k & <- & Hk).
  destruct (month_keys k Hk) as (s & t & Hs & Ht & ->).
  exists s, t. split; [done|]. split; [done|]. split; [done|].
  apply revenue_row_Month.
Qed.

Lemma month_of_sale s t :
  In s (rows S) → cell s "InvoiceDate" = VTime t →
  ∃ r, r ∈ rows R ∧ cell r "Month" = VTime (month_start t).
Proof.
  intros Hs Ht.
  set (w := <["Month" := month_cell (cell s "InvoiceDate")]> s).
  assert (In w (rows W)) as Hw.
  { rewrite HW. apply in_map_iff. by exists s. }
  assert (key_present ["Month"] w = true) as Hp.
  { rewrite single_key_present. unfold w. by rewrite cell_insert, Ht. }
  assert (key_of ["Month"] w = [VTime (month_start t)]) as Hkey.
  { unfold key_of, w. cbn [map]. by rewrite cell_insert, Ht. }
  pose proof (key_count_group_keys ["Month"] W w Hw Hp) as Hcount.
  rewrite Hkey in Hcount. unfold key_count in Hcount.
  destruct (List.filter _ _) as [|k ?] eqn:E; [done|].
  assert (In k (List.filter (keys_eqb [VTime (month_start t)])
                  (group_keys ["Month"] W))) as Hk by (rewrite E; by left).
  apply filter_In in Hk as [Hk Heq].
  destruct (month_keys k Hk) as (s' & t' & _ & _ & ->).
  rewrite single_keys_eqb in Heq. simpl in Heq. apply Z.eqb_eq in Heq.
  exists (revenue_row ([VTime (month_start t')],
                       group_total ["Month"] "LineTotal" W [VTime (month_start t')])).
  split.
  - rewrite month_rows. apply list_elem_of_In, in_map_iff. by eexists.
  - rewrite revenue_row_Month. by rewrite Heq.
Qed.

Lemma months_distinct i j a b :
  i ≠ j → rows R !! i = Some a → rows R !! j = Some b →
  cell a "Month" ≠ cell b "Month".
Proof.
  intros Hij Hi Hj Heq.
  destruct (month_row a) as (s & t & Hs & Ht & Hk & Ha);
    [by eapply list_elem_of_lookup_2|].
  rewrite Ha in Heq.
  set (P := λ r : gmap string value, value_eqb (VTime (month_start t)) (cell r "Month")).
  pose proof (filter_length_two P (rows R) i j a b Hij Hi Hj) as Htwo.
  unfold P in Htwo at 1 2. rewrite <-Heq, Ha in Htwo.
  specialize (Htwo (value_eqb_refl _) (value_eqb_refl _)).
  rewrite (Permutation_length (filter_Permutation P _ _ month_rows)) in Htwo.
  rewrite (filter_map_keys P _ [VTime (month_start t)]) in Htwo.
  - rewrite length_map in Htwo.
    destruct (group_keys_In _ _ _ Hk) as (w & Hw & Hp & Hkey).
    pose proof (key_count_group_keys ["Month"] W w Hw Hp) as Hcount.
    rewrite <-Hkey in Hcount. unfold key_count in Hcount. lia.
  - intros k (s' & t' & _ & _ & ->)%month_keys. unfold P.
    by rewrite revenue_row_Month, single_keys_eqb.
Qed.

Lemma months_ascending i j a b :
  (i < j)%nat → rows R !! i = Some a → rows R !! j = Some b →
  ∃ m m', cell a "Month" = VTime m ∧ cell b "Month" = VTime m' ∧ m < m'.
Proof.
  intros Hij Hi Hj.
  assert (∀ r, In r (rows R) → ∃ m, cell r "Month" = VTime m) as Htime.
  { intros r Hr%list_elem_of_In. destruct (month_row r Hr) as (_ & t & _ & _ & _ & ->).
    by eexists. }
  assert (Sorted (λ a b, value_leb (cell a "Month") (cell b "Month") = true) (rows R))
    as Hsorted.
  { eapply df_sort_values_asc_Sorted; [|exact HR]. rewrite rename_reset_rows.
    apply Forall_map, Forall_forall. intros [k v] Hkv. cbv beta.
    rewrite (groupby_sum_Ok _ _ _ _ Hg) in Hkv.
    apply list_elem_of_In, in_map_iff in Hkv as (k' & [= <- <-] & Hk).
    destruct (month_keys _ Hk) as (_ & t & _ & _ & ->). by rewrite revenue_row_Month. }
  apply Sorted_members_StronglySorted in Hsorted.
  2:{ intros x y z [mx Hx]%Htime [my Hy]%Htime [mz Hz]%Htime.
      rewrite Hx, Hy, Hz. cbn [value_leb]. rewrite !Z.leb_le. lia. }
  pose proof (StronglySorted_lookup _ _ i j a b Hsorted Hij Hi Hj) as Hle.
  destruct (Htime a) as [m Hm]; [apply list_elem_of_In; by eapply list_elem_of_lookup_2|].
  destruct (Htime b) as [m' Hm']; [apply list_elem_of_In; by eapply list_elem_of_lookup_2|].
  exists m, m'. split; [done|]. split; [done|].
  cbv beta in Hle. rewrite Hm, Hm' in Hle. cbn [value_leb] in Hle.
  apply Z.leb_le in Hle.
  assert (i ≠ j) as Hne by lia.
  pose proof (months_distinct i j a b Hne Hi Hj) as Hd. rewrite Hm, Hm' in Hd.
  assert (m ≠ m') by congruence. lia.
Qed.
End months.

(** X16: [revenue_by_month] returns a table of the columns [Month] and [Revenue]
    with one row for every month in which the Analyzer's sales table has a
    row: the [Month] of a row is the first day of the month of some sale, the
    month of every sale with a timestamp has a row, and the rows come in
    strictly increasing order of [Month], so that no month comes twice. *)
Theorem revenue_by_month_one_row_per_month self (h : heap) S R :
  h !! sales_df self = Some S →
  returned (revenue_by_month self h) = Ok R →
  columns R = ["Month"; "Revenue"]
  ∧ (∀ r, r ∈ rows R →
       ∃ s t, s ∈ rows S ∧ cell s "InvoiceDate" = VTime t
              ∧ cell r "Month" = VTime (month_start t))
  ∧ (∀ s t, s ∈ rows S → cell s "InvoiceDate" = VTime t →
       ∃ r, r ∈ rows R ∧ cell r "Month" = VTime (month_start t))
  ∧ (∀ i j a b, (i < j)%nat → rows R !! i = Some a → rows R !! j = Some b →
       ∃ m m', cell a "Month" = VTime m ∧ cell b "Month" = VTime m' ∧ m < m').
Proof.
  intros HS Hret.
  destruct (revenue_by_month_sorted_run _ _ _ _ HS Hret)
    as (Hcols & W & g & HW & Hg & HR).
  split; [exact Hcols|]. split; [|split].
  - intros r Hr. destruct (month_row _ _ _ _ HW Hg HR r Hr) as (s & t & Hs & Ht & _ & Hm).
    exists s, t. split; [by apply list_elem_of_In|done].
  - intros s t Hs%list_elem_of_In Ht. by eapply month_of_sale.
  - intros i j a b. by eapply months_ascending.
Qed.

Lemma revenue_by_month_one_row_per_month_witness :
  match returned (revenue_by_month ex_rfm_analyzer [ex_sales_rfm]) with
  | Ok R =>
      columns R = ["Month"; "Revenue"]
      ∧ ∃ r, r ∈ rows R ∧ cell r "Month" = day 2009 4 1
  | Raise _ => False
  end.
Proof.
  destruct (returned (revenue_by_month ex_rfm_analyzer [ex_sales_rfm]))
    as [R|e] eqn:E.
  - destruct (revenue_by_month_one_row_per_month ex_rfm_analyzer [ex_sales_rfm]
                ex_sales_rfm R eq_refl E) as (Hc & _ & Hall & _).
    split; [exact Hc|].
    apply (Hall {[ "InvoiceId" := num 7; "InvoiceDate" := day 2009 4 10;
                   "CustomerId" := VStr "B"; "LineTotal" := VNum 40 ]}
                (days_from_civil 2009 4 10 * ns_per_day));
      [unfold ex_sales_rfm; cbn [rows]; elem_of_list | reflexivity].
  - vm_compute in E. discriminate E.
Defined.

(** ** Each dated row is counted once *)






(** * analytics.py: the scores of rfm_analysis *)

(** What [safe_qcut] returns for five bins, with the edges it used. *)
Lemma safe_qcut_bins s rev scores :
  safe_qcut s 5 rev = Ok scores →
  ∃ bins top,
    qcut s 5 DupDrop = Ok (map (λ v, bin_label bins (num_opt v)) s)
    ∧ (∀ v, In v s → ∃ l, bin_label bins (num_opt v) = num l ∧ 0 ≤ l ≤ 4)
    ∧ scores = map (λ v, num (qcut_score bins top rev v)) s.
Proof.
  unfold safe_qcut.
  pose proof (qcut_drop_Ok s 5 _ eq_refl) as Hq.
  destruct (qcut s 5 DupDrop) as [labels|e]; cycle 1.
  { destruct e; simpl; try done. by destruct (Hq msg). }
  destruct Hq as (bins & Hlen & ->). cbn [try_except_ValueError mbind result_bind].
  unfold qcut_score.
  set (L := λ v, bin_label bins (num_opt v)).
  assert (∀ v, L v = VNull ∨ ∃ l, L v = num l ∧ 0 ≤ l ≤ 4) as HL.
  { intros v. destruct (bin_label_range bins (num_opt v)) as [?|(l & ? & ?)];
      [by left|right]. exists l. split; [done|lia]. }
  rewrite mapR_map.
  destruct (mapR _ s) as [bins1|] eqn:E1; [|done]. cbn [mbind result_bind].
  apply mapR_Forall2 in E1.
  destruct rev.
  - destruct (value_add (num_max bins1) (num 1)) as [m|] eqn:Em; [|done].
    cbn [mbind result_bind].
    destruct (mapR (value_sub m) bins1) as [bins2|] eqn:E2; [|done].
    cbn [mbind result_bind]. intros E3.
    apply mapR_Forall2 in E2. apply mapR_Forall2 in E3.
    destruct (num_max_spec bins1) as [[Hmax _]|(qmax & Hmax & Hin & Hle)].
    + rewrite Hmax in Em. injection Em as <-. exists bins, 0.
      destruct E1 as [|v b1 s' bs1 Hv _].
      * inversion E2; subst. inversion E3; subst. done.
      * exfalso. inversion E2 as [|? b2 ? ? Hb2]; subst.
        inversion E3 as [|? sc ? ? Hsc]; subst.
        destruct b1; simpl in Hb2; simplify_eq; simpl in Hsc; done.
    + rewrite Hmax in Em. injection Em as <-.
      assert (∃ l0, 0 ≤ l0 ≤ 4 ∧ (qmax == inject_Z (l0 + 1))%Q) as (l0 & Hl0 & Hq0).
      { clear E2 E3 Hle Hmax. induction E1 as [|v b1 s' bs1 Hv _ IH]; [done|].
        destruct Hin as [->|Hin]; [|by apply IH].
        destruct (HL v) as [Hn|(l & Hl & ?)]; rewrite ?Hn, ?Hl in Hv.
        - done.
        - injection Hv as <-. exists l. split; [done|]. apply label_plus_one. }
      set (zm := l0 + 1 + 1). exists bins, zm.
      assert (Forall2 (λ v sc, ∃ l, L v = num l ∧ 0 ≤ l ≤ 4
                               ∧ sc = num (zm - (l + 1))) s scores) as Hall.
      { clear Hmax Hin. revert bins2 scores E2 E3 Hle.
        induction E1 as [|v b1 s' bs1 Hv _ IH]; intros bins2 scores E2 E3 Hle.
        - inversion E2; subst. inversion E3; subst. constructor.
        - inversion E2 as [|? b2 ? bs2 Hb2 E2']; subst.
          inversion E3 as [|? sc ? scs Hsc E3']; subst.
          assert (∀ q', In (VNum q') bs1 → (q' <= qmax)%Q) as Hle'
            by (intros; apply Hle; by right).
          destruct (HL v) as [Hn|(l & Hl & Hr)]; rewrite ?Hn, ?Hl in Hv.
          + injection Hv as <-. simpl in Hb2. injection Hb2 as <-. done.
          + injection Hv as <-. cbn [value_sub] in Hb2. injection Hb2 as <-.
            rewrite (int_of_value_VNum _ (zm - (l + 1))) in Hsc.
            2:{ rewrite label_plus_one, Hq0. unfold zm, Qminus.
                rewrite <-!inject_Z_plus, <-inject_Z_opp, <-inject_Z_plus.
                apply inject_Z_injective. lia. }
            injection Hsc as <-.
            constructor; [by exists l|by eapply IH]. }
      split; [done|]. split.
      * clear -Hall. induction Hall as [|v sc s' scs (l & ? & ? & _) _ IH];
          intros w; [done|]. intros [<-|Hw]; [by exists l|by apply IH].
      * apply Forall2_map_eq. eapply Forall2_impl; [exact Hall|].
        intros v sc (l & Hl & _ & ->). cbv beta. unfold L in Hl. by rewrite Hl.
  - intros E3. apply mapR_Forall2 in E3. exists bins, 0.
    assert (Forall2 (λ v sc, ∃ l, L v = num l ∧ 0 ≤ l ≤ 4 ∧ sc = num (l + 1))
                    s scores) as Hall.
    { revert scores E3. induction E1 as [|v b1 s' bs1 Hv _ IH]; intros scores E3.
      - inversion E3; subst. constructor.
      - inversion E3 as [|? sc ? scs Hsc E3']; subst.
        destruct (HL v) as [Hn|(l & Hl & Hr)]; rewrite ?Hn, ?Hl in Hv.
        + by injection Hv as <-.
        + injection Hv as <-.
          rewrite (int_of_value_VNum _ (l + 1)) in Hsc by apply label_plus_one.
          injection Hsc as <-. constructor; [by exists l|by apply IH]. }
    split; [done|]. split.
    + clear -Hall. induction Hall as [|v sc s' scs (l & ? & ? & _) _ IH];
        intros w; [done|]. intros [<-|Hw]; [by exists l|by apply IH].
    + apply Forall2_map_eq. eapply Forall2_impl; [exact Hall|].
      intros v sc (l & Hl & _ & ->). cbv beta. unfold L in Hl. by rewrite Hl.
Qed.

(** ** Greater values fall in later bins *)

Lemma searchsorted_left_mono bins x y :
  (x <= y)%Q → (searchsorted_left bins x ≤ searchsorted_left bins y)%nat.
Proof.
  intros Hxy. induction bins as [|b bins IH]; simpl; [done|].
  unfold Qltb. destruct (Qle_bool x b) eqn:Ex; simpl; [lia|].
  destruct (Qle_bool y b) eqn:Ey; simpl; [|lia].
  apply Qle_bool_iff in Ey. assert (x <= b)%Q as Hxb by (by eapply Qle_trans).
  apply Qle_bool_iff in Hxb. congruence.
Qed.

Lemma searchsorted_left_pos b0 bins y :
  (b0 < y)%Q → (1 ≤ searchsorted_left (b0 :: bins) y)%nat.
Proof.
  intros Hlt. simpl. unfold Qltb.
  destruct (Qle_bool y b0) eqn:E; simpl; [|lia].
  apply Qle_bool_iff in E. by apply Qle_not_lt in E.
Qed.

Lemma bin_label_mono bins x y l1 l2 :
  (x <= y)%Q →
  bin_label bins (Some x) = num l1 → bin_label bins (Some y) = num l2 →
  l1 ≤ l2.
Proof.
  intros Hxy. unfold bin_label. destruct bins as [|b0 bins]; [done|].
  set (idx := if Qeq_bool x b0 then 1%nat else searchsorted_left (b0 :: bins) x).
  set (idy := if Qeq_bool y b0 then 1%nat else searchsorted_left (b0 :: bins) y).
  assert (idx ≠ 0%nat → idx ≤ idy)%nat as Hle.
  { unfold idx, idy. destruct (Qeq_bool x b0) eqn:Ex, (Qeq_bool y b0) eqn:Ey.
    - done.
    - intros _. apply Qeq_bool_iff in Ex. apply searchsorted_left_pos.
      apply Qle_lt_or_eq in Hxy as [Hlt|Heq].
      + by rewrite <-Ex.
      + rewrite <-Heq, Ex in Ey. by rewrite (proj2 (Qeq_bool_iff b0 b0)) in Ey.
    - intros Hne. exfalso. apply Hne. apply Qeq_bool_iff in Ey.
      simpl. unfold Qltb.
      assert (Qle_bool x b0 = true) as ->; [|done].
      apply Qle_bool_iff. by rewrite <-Ey.
    - intros _. by apply searchsorted_left_mono. }
  destruct (_ || _) eqn:E1; [done|]. destruct (_ || _) eqn:E2 in |- *; [done|].
  intros [= H1]%(f_equal (λ v, match v with VNum q => VNum q | _ => v end)).
  intros [= H2]%(f_equal (λ v, match v with VNum q => VNum q | _ => v end)).
  apply orb_false_elim in E1 as [E1%Nat.eqb_neq _].
  specialize (Hle E1). lia.
Qed.

(** A greater value gets a score that is not smaller, and, reversed, not
    greater. *)
Lemma qcut_score_mono bins top rev x y :
  (x <= y)%Q →
  (∃ l, bin_label bins (Some x) = num l) →
  (∃ l, bin_label bins (Some y) = num l) →
  if rev : bool
  then qcut_score bins top rev (VNum y) ≤ qcut_score bins top rev (VNum x)
  else qcut_score bins top rev (VNum x) ≤ qcut_score bins top rev (VNum y).
Proof.
  intros Hxy [l1 H1] [l2 H2]. pose proof (bin_label_mono _ _ _ _ _ Hxy H1 H2).
  unfold qcut_score. cbn [num_opt]. rewrite H1, H2. unfold num. cbn [Qnum inject_Z].
  destruct rev; lia.
Qed.

(** ** A column of one value has no bins *)

Lemma sort_by_Forall {A} (leb : A → A → bool) (P : A → Prop) l :
  Forall P l → Forall P (sort_by leb l).
Proof. intros H. by rewrite (sort_by_Permutation leb l). Qed.

Lemma quantile_constant q (sorted : list Q) x k :
  sorted ≠ [] → (k ≤ q)%nat → (0 < q)%nat →
  Forall (λ y, y == x)%Q sorted →
  (quantile q sorted k == x)%Q.
Proof.
  intros Hne Hk Hq Hall. unfold quantile.
  assert (0 < length sorted)%nat as Hlen by (destruct sorted; [done|simpl; lia]).
  assert (∀ i, (i < length sorted)%nat → (nth i sorted 0 == x)%Q) as Hnth.
  { intros i Hi. rewrite List.Forall_forall in Hall. apply Hall. by apply nth_In. }
  rewrite (Hnth ((length sorted - 1) * k / q)%nat).
  2:{ apply Nat.Div0.div_lt_upper_bound. nia. }
  rewrite (Hnth (Nat.min _ _)) by lia. ring.
Qed.

Lemma dedup_by_constant (x : Q) l :
  l ≠ [] → Forall (λ y, y == x)%Q l → length (dedup_by Qeq_bool l) = 1%nat.
Proof.
  intros Hne Hall. destruct Hall as [|y l Hy Hall]; [done|]. simpl. f_equal.
  apply length_zero_iff_nil. apply filter_none.
  assert (Forall (λ z, z == x)%Q (dedup_by Qeq_bool l)) as Hd.
  { apply Forall_forall. intros z Hz%list_elem_of_In%dedup_by_In.
    rewrite List.Forall_forall in Hall. by apply Hall. }
  eapply Forall_impl; [exact Hd|]. intros z Hz. cbv beta.
  apply negb_false_iff, Qeq_bool_iff. by rewrite Hy, Hz.
Qed.

(** [qcut] in five bins gives no label to a column in which all values are
    equal: the six edges collapse to one. *)
Lemma qcut_constant s labels :
  (∀ v w, In v s → In w s → value_eqb v w = true) →
  qcut s 5 DupDrop = Ok labels →
  Forall (λ l, l = VNull) labels.
Proof.
  intros Heq. unfold qcut.
  destruct (numbers s) as [xs|] eqn:Exs; [|done]. cbn [mbind result_bind].
  apply numbers_Ok in Exs as ->.
  destruct (sort_by Qle_bool (omap id (map num_opt s))) as [|x0 sorted'] eqn:Es.
  { intros [= <-]. apply Forall_map, Forall_forall. done. }
  assert (In x0 (omap id (map num_opt s))) as Hx0.
  { apply (Permutation_in _ (sort_by_Permutation Qle_bool _)). rewrite Es. by left. }
  apply list_elem_of_In, list_elem_of_omap in Hx0 as (o & Ho & Hox). simpl in Hox.
  subst o. apply list_elem_of_In, in_map_iff in Ho as (v0 & Hv0 & Hin0).
  assert (∀ w, In w s → ∃ y, w = VNum y ∧ (y == x0)%Q) as Hall.
  { intros w Hw. specialize (Heq v0 w Hin0 Hw).
    destruct v0 as [|x| |]; try done. injection Hv0 as ->.
    destruct w as [|y| |]; try done. exists y. split; [done|].
    symmetry. by apply Qeq_bool_iff. }
  assert (Forall (λ y, y == x0)%Q (x0 :: sorted')) as Hsorted.
  { rewrite <-Es. apply sort_by_Forall, Forall_forall.
    intros y (o & Ho & Hoy)%list_elem_of_omap. simpl in Hoy. subst o.
    apply list_elem_of_In, in_map_iff in Ho as (w & Hw & Hin).
    destruct (Hall w Hin) as (y' & -> & Hy'). by injection Hw as <-. }
  set (edges := map (quantile 5 (x0 :: sorted')) (seq 0 (5 + 1))).
  assert (Forall (λ y, y == x0)%Q edges) as Hedges.
  { apply Forall_map, Forall_forall. intros k Hk%list_elem_of_In%in_seq. cbv beta.
    apply quantile_constant; [done|lia|lia|done]. }
  assert (length edges = 6%nat) as Hlen by (unfold edges; by rewrite length_map, length_seq).
  assert (length (dedup_by Qeq_bool edges) = 1%nat) as Hone.
  { eapply dedup_by_constant; [|exact Hedges]. by destruct edges. }
  clearbody edges.
  destruct (dedup_by Qeq_bool edges) as [|e0 [|??]] eqn:Ed; try done.
  assert (e0 == x0)%Q as He0.
  { assert (In e0 (dedup_by Qeq_bool edges)) as Hin by (rewrite Ed; by left).
    apply dedup_by_In in Hin. rewrite List.Forall_forall in Hedges. by apply Hedges. }
  rewrite Hlen. cbn [length]. rewrite bool_decide_eq_true_2 by lia.
  cbn [andb negb Nat.eqb].
  intros [= <-]. rewrite map_map. apply Forall_map, Forall_forall.
  intros w Hw%list_elem_of_In. cbv beta. destruct (Hall w Hw) as (y & -> & Hy).
  cbn [num_opt].
  unfold bin_label. rewrite (proj2 (Qeq_bool_iff y e0)); [done|]. by rewrite Hy, He0.
Qed.

(** ** The scored table, with the edges of its three columns *)

Lemma setitem_scored_bins c c' V s scores W rev :
  df_getitem c V = Ok s →
  safe_qcut s 5 rev = Ok scores →
  df_setitem c' scores V = Ok W →
  ∃ bins top,
    binned bins c (rows V)
    ∧ rows W = map (λ r, <[c' := num (qcut_score bins top rev (cell r c))]> r) (rows V).
Proof.
  intros [_ ->]%df_getitem_Ok (bins & top & Hq & Hl & ->)%safe_qcut_bins
         [-> _]%df_setitem_Ok.
  exists bins, top. split; [split|].
  - by rewrite Hq, map_map.
  - intros r Hr. apply Hl. by apply (in_map (λ r, cell r c)).
  - rewrite map_map. by rewrite zip_with_map_r.
Qed.

Lemma binned_ext bins c (rs rs' : list (gmap string value)) (f : gmap string value → gmap string value) :
  rs' = map f rs → (∀ r, cell (f r) c = cell r c) →
  binned bins c rs' → binned bins c rs.
Proof.
  intros -> Hf [Hq Hl]. rewrite !map_map in Hq. split.
  - rewrite (map_ext _ (λ r, cell (f r) c)) by done. rewrite Hq.
    f_equal. apply map_ext. intros r. by rewrite Hf.
  - intros r Hr. destruct (Hl (f r)) as (l & Hl' & ?); [by apply in_map|].
    exists l. by rewrite <-Hf.
Qed.

Lemma rfm_scores_rows_bins T r rs W1 f fs W2 m ms W3 rs' fs' ms' rf total W4 :
  df_getitem "Recency" T = Ok r → safe_qcut r 5 true = Ok rs →
  df_setitem "R_Score" rs T = Ok W1 →
  df_getitem "Frequency" W1 = Ok f → safe_qcut f 5 false = Ok fs →
  df_setitem "F_Score" fs W1 = Ok W2 →
  df_getitem "Monetary" W2 = Ok m → safe_qcut m 5 false = Ok ms →
  df_setitem "M_Score" ms W2 = Ok W3 →
  df_getitem "R_Score" W3 = Ok rs' → df_getitem "F_Score" W3 = Ok fs' →
  df_getitem "M_Score" W3 = Ok ms' →
  series_zip value_add rs' fs' = Ok rf → series_zip value_add rf ms' = Ok total →
  df_setitem "RFM_Score" total W3 = Ok W4 →
  ∃ bR tR bF tF bM tM,
    binned bR "Recency" (rows T)
    ∧ binned bF "Frequency" (rows T)
    ∧ binned bM "Monetary" (rows T)
    ∧ rows W4 = map (scored_row (qcut_score bR tR true) (qcut_score bF tF false)
                                (qcut_score bM tM false)) (rows T).
Proof.
  intros Hr Hrs H1 Hf Hfs H2 Hm Hms H3 Hrs' Hfs' Hms' Hrf Htotal H4.
  destruct (setitem_scored_bins _ _ _ _ _ _ _ Hr Hrs H1) as (bR & tR & HbR & HW1).
  destruct (setitem_scored_bins _ _ _ _ _ _ _ Hf Hfs H2) as (bF & tF & HbF & HW2).
  destruct (setitem_scored_bins _ _ _ _ _ _ _ Hm Hms H3) as (bM & tM & HbM & HW3).
  exists bR, tR, bF, tF, bM, tM.
  split; [done|]. split; [|split].
  - eapply binned_ext; [exact HW1| |exact HbF]. intros r0. cbv beta. by rewrite cell_insert_ne.
  - rewrite HW1, map_map in HW2.
    eapply binned_ext; [exact HW2| |exact HbM]. intros r0. cbv beta. by rewrite !cell_insert_ne.
  - rewrite HW1 in HW2. rewrite HW2 in HW3. rewrite !map_map in HW3.
    apply df_getitem_Ok in Hrs' as [_ ->]. apply df_getitem_Ok in Hfs' as [_ ->].
    apply df_getitem_Ok in Hms' as [_ ->]. apply df_setitem_Ok in H4 as [-> _].
    assert (Forall (λ r, (∃ x, cell r "R_Score" = VNum x)
                         ∧ (∃ y, cell r "F_Score" = VNum y)
                         ∧ ∃ z, cell r "M_Score" = VNum z) (rows W3)) as Hnum.
    { rewrite HW3. apply Forall_map, Forall_forall. intros r0 _. cbv beta.
      repeat (first [rewrite cell_insert | rewrite cell_insert_ne by done]).
      unfold num. repeat split; eexists; reflexivity. }
    apply series_zip_add_rows in Hrf;
      [|eapply Forall_impl; [exact Hnum|]; intros ? (? & ? & ?); by split].
    subst rf.
    apply (series_zip_add_total _ (λ r, (numv (cell r "R_Score") + numv (cell r "F_Score"))%Q))
      in Htotal; [|eapply Forall_impl; [exact Hnum|]; by intros ? (? & ? & ?)].
    subst total. rewrite zip_with_map_r, HW3, map_map. apply map_ext. intros r0.
    reflexivity.
Qed.

Lemma rfm_analysis_bins self (h : heap) S R :
  h !! sales_df self = Some S →
  returned (rfm_analysis self h) = Ok R →
  ∃ dates today T bR tR bF tF bM tM,
    (df_getitem "InvoiceDate" S = Ok dates
     ∧ next_day dates = Ok today
     ∧ groupby_agg_rfm today S = Ok T)
    ∧ binned bR "Recency" (rows T)
    ∧ binned bF "Frequency" (rows T)
    ∧ binned bM "Monetary" (rows T)
    ∧ rows R ≡ₚ map (scored_row (qcut_score bR tR true) (qcut_score bF tF false)
                                (qcut_score bM tM false)) (rows T).
Proof.
  intros HS Hret.
  eapply (returned_wp _ _ _ (λ R, ∃ dates today T bR tR bF tF bM tM,
            (_ ∧ _ ∧ _) ∧ _ ∧ _ ∧ _ ∧ rows R ≡ₚ _)); [exact Hret|].
  clear Hret. unfold rfm_analysis.
  repeat wp_step h. returned_owned.
  match goal with
  | Hd : df_getitem "InvoiceDate" S = Ok ?dates, Hn : next_day _ = Ok ?today,
    Ht : groupby_agg_rfm _ _ = Ok ?T,
    Hr : df_getitem "Recency" _ = Ok _, Hrs : safe_qcut _ 5 true = Ok _,
    H1 : df_setitem "R_Score" _ _ = Ok _,
    Hf : df_getitem "Frequency" _ = Ok _, Hfs : safe_qcut ?f 5 false = Ok _,
    H2 : df_setitem "F_Score" _ _ = Ok _,
    Hm : df_getitem "Monetary" _ = Ok _, Hms : safe_qcut _ 5 false = Ok _,
    H3 : df_setitem "M_Score" _ _ = Ok _,
    Hrs' : df_getitem "R_Score" _ = Ok _, Hfs' : df_getitem "F_Score" _ = Ok _,
    Hms' : df_getitem "M_Score" _ = Ok _,
    Hrf : series_zip value_add _ _ = Ok ?rf, Htot : series_zip value_add ?rf _ = Ok _,
    H4 : df_setitem "RFM_Score" _ _ = Ok _,
    Hsort : df_sort_values "RFM_Score" false _ = Ok _ |- _ =>
      destruct (rfm_scores_rows_bins _ _ _ _ _ _ _ _ _ _ _ _ _ _ _ _
                  Hr Hrs H1 Hf Hfs H2 Hm Hms H3 Hrs' Hfs' Hms' Hrf Htot H4)
        as (bR & tR & bF & tF & bM & tM & HbR & HbF & HbM & Hrows);
      exists dates, today, T, bR, tR, bF, tF, bM, tM;
      split; [by repeat split|];
      split; [exact HbR|]; split; [exact HbF|]; split; [exact HbM|];
      rewrite (df_sort_values_Permutation _ _ _ _ Hsort); by rewrite Hrows
  end.
Qed.

(** ** The latest timestamp of a column, and the recency of a customer *)

Lemma time_max_cases (s : Series) :
  time_max s = VNull ∨ ∃ t, time_max s = VTime t.
Proof.
  induction s as [|v s IH]; [by left|].
  cbn [time_max foldr]. fold (time_max s).
  destruct v; try exact IH.
  destruct IH as [->|[u ->]]; right; eauto.
Qed.

Lemma time_max_In (s : Series) m : time_max s = VTime m → In (VTime m) s.
Proof.
  revert m. induction s as [|v s IH]; intros m; [done|].
  cbn [time_max foldr]. fold (time_max s).
  destruct v as [| | |t]; try (intros H; right; by apply IH).
  destruct (time_max_cases s) as [->|[u Hu]].
  - intros [= <-]. by left.
  - rewrite Hu. intros [= <-].
    destruct (Z.max_spec t u) as [[_ ->]|[_ ->]]; [right; by apply IH|by left].
Qed.

Lemma time_max_ge (s : Series) m :
  In (VTime m) s → ∃ t, time_max s = VTime t ∧ m ≤ t.
Proof.
  induction s as [|v s IH]; [done|].
  cbn [time_max foldr]. fold (time_max s). intros [->|Hin].
  - destruct (time_max_cases s) as [->|[u ->]]; eexists; split; try reflexivity; lia.
  - destruct (IH Hin) as (t & -> & Hle).
    destruct v; eexists; split; try reflexivity; lia.
Qed.

(** The recency of a part of the dates, counted from the day after the
    latest of them all, is at least one day when there is one. *)
Lemma recency_positive today (dates x : Series) :
  next_day dates = Ok today →
  (∀ v, In v x → In v dates) →
  recency today x = VNull ∨ ∃ d, recency today x = num d ∧ 1 ≤ d.
Proof.
  unfold next_day, recency. destruct (is_datetime64_any_dtype dates); [|done].
  intros [= <-] Hsub.
  destruct (time_max_cases x) as [->|[m Hm]].
  { left. by destruct (time_max dates). }
  rewrite Hm. apply time_max_In, Hsub, time_max_ge in Hm as (t & -> & Hle).
  right. eexists. split; [reflexivity|].
  apply Z.div_le_lower_bound; unfold ns_per_day; lia.
Qed.

Lemma bin_label_missing bins : bin_label bins None = VNull.
Proof. done. Qed.

Lemma rfm_recency_days self (h : heap) S R :
  h !! sales_df self = Some S →
  returned (rfm_analysis self h) = Ok R →
  ∀ r, r ∈ rows R → ∃ d, cell r "Recency" = num d ∧ 1 ≤ d.
Proof.
  intros HS Hret r Hr.
  destruct (rfm_analysis_bins _ _ _ _ HS Hret)
    as (dates & today & T & bR & tR & bF & tF & bM & tM
        & (Hdates & Htoday & HT) & [_ HbR] & _ & _ & Hperm).
  apply list_elem_of_In, (Permutation_in _ Hperm), in_map_iff in Hr
    as (r0 & <- & Hr0).
  destruct (scored_row_cells (qcut_score bR tR true) (qcut_score bF tF false)
              (qcut_score bM tM false) r0) as ((_ & -> & _ & _) & _).
  destruct (HbR r0 Hr0) as (l & Hl & _).
  rewrite (groupby_agg_rfm_Ok _ _ _ HT) in Hr0.
  apply in_map_iff in Hr0 as (k & <- & Hk).
  apply group_keys_In in Hk as (s & Hs & Hkey & ->).
  destruct (rfm_row_cells today S s Hkey) as (_ & Hrec & _).
  cbv zeta in Hrec. rewrite Hrec in Hl |- *.
  apply df_getitem_Ok in Hdates as [_ ->].
  destruct (recency_positive today (map (λ r, cell r "InvoiceDate") (rows S))
              (map (λ r, cell r "InvoiceDate")
                   (customer_rows S (cell s "CustomerId"))) Htoday) as [Hnull|Hd].
  - intros v (r1 & <- & Hr1)%in_map_iff.
    apply (in_map (λ r, cell r "InvoiceDate")).
    unfold customer_rows in Hr1. by apply filter_In in Hr1 as [? _].
  - rewrite Hnull in Hl. by rewrite bin_label_missing in Hl.
  - exact Hd.
Qed.

Lemma forallb_false_In {A} (f : A → bool) l :
  forallb f l = false → ∃ x, In x l ∧ f x = false.
Proof.
  induction l as [|x l IH]; simpl; [done|].
  destruct (f x) eqn:E; simpl.
  - intros (y & Hy & Hf)%IH. exists y. auto.
  - intros _. exists x. auto.
Qed.

Section rfm_bins.
Context (self : ChinookAnalyzer) (h : heap) (S R : DataFrame).
Context (HS : h !! sales_df self = Some S).
Context (Hret : returned (rfm_analysis self h) = Ok R).

(** A metric of a returned row and its score, through the edges of the
    metric. *)
Lemma rfm_metric_scores metric score rev :
  In (metric, score, rev) rfm_metrics →
  ∃ T bins top,
    binned bins metric (rows T)
    ∧ (∀ r, r ∈ rows R →
         (∃ r0, In r0 (rows T) ∧ cell r metric = cell r0 metric)
         ∧ cell r score = num (qcut_score bins top rev (cell r metric)))
    ∧ (∀ r0, In r0 (rows T) → ∃ r, r ∈ rows R ∧ cell r metric = cell r0 metric).
Proof.
  intros Hin.
  destruct (rfm_analysis_bins _ _ _ _ HS Hret)
    as (dates & today & T & bR & tR & bF & tF & bM & tM & _ & HbR & HbF & HbM & Hperm).
  set (F := scored_row (qcut_score bR tR true) (qcut_score bF tF false)
                       (qcut_score bM tM false)) in *.
  assert (∀ r, r ∈ rows R → ∃ r0, In r0 (rows T) ∧ r = F r0) as Hrow.
  { intros r Hr%list_elem_of_In. apply (Permutation_in _ Hperm) in Hr.
    apply in_map_iff in Hr as (r0 & <- & Hr0). eauto. }
  assert (∀ r0, In r0 (rows T) → F r0 ∈ rows R) as Hrow'.
  { intros r0 Hr0. apply list_elem_of_In.
    apply (Permutation_in _ (symmetry Hperm)). by apply in_map. }
  pose proof (λ r0, scored_row_cells (qcut_score bR tR true) (qcut_score bF tF false)
                      (qcut_score bM tM false) r0) as Hcells.
  cbv zeta in Hcells. fold F in Hcells.
  destruct Hin as [[= <- <- <-]|[[= <- <- <-]|[[= <- <- <-]|[]]]].
  - exists T, bR, tR. split; [done|]. split.
    + intros r (r0 & Hr0 & ->)%Hrow.
      destruct (Hcells r0) as ((_ & -> & _ & _) & -> & _). eauto.
    + intros r0 Hr0. exists (F r0). split; [by apply Hrow'|].
      by destruct (Hcells r0) as ((_ & -> & _ & _) & _).
  - exists T, bF, tF. split; [done|]. split.
    + intros r (r0 & Hr0 & ->)%Hrow.
      destruct (Hcells r0) as ((_ & _ & -> & _) & _ & -> & _). eauto.
    + intros r0 Hr0. exists (F r0). split; [by apply Hrow'|].
      by destruct (Hcells r0) as ((_ & _ & -> & _) & _).
  - exists T, bM, tM. split; [done|]. split.
    + intros r (r0 & Hr0 & ->)%Hrow.
      destruct (Hcells r0) as ((_ & _ & _ & ->) & _ & _ & -> & _). eauto.
    + intros r0 Hr0. exists (F r0). split; [by apply Hrow'|].
      by destruct (Hcells r0) as ((_ & _ & _ & ->) & _).
Qed.
End rfm_bins.

(** X17: The scores of [rfm_analysis] follow the order of the metrics: of two
    returned rows, the one with the greater [Frequency] has an [F_Score] that
    is not smaller, the one with the greater [Monetary] an [M_Score] that is
    not smaller, and the one with the greater [Recency] an [R_Score] that is
    not greater. *)
Theorem rfm_scores_follow_metrics self (h : heap) S R metric score rev a b x y :
  h !! sales_df self = Some S →
  returned (rfm_analysis self h) = Ok R →
  In (metric, score, rev) rfm_metrics →
  a ∈ rows R → b ∈ rows R →
  cell a metric = VNum x → cell b metric = VNum y → (x <= y)%Q →
  ∃ p q, cell a score = num p ∧ cell b score = num q
         ∧ if rev : bool then q ≤ p else p ≤ q.
Proof.
  intros HS Hret Hin Ha Hb Hx Hy Hxy.
  destruct (rfm_metric_scores _ _ _ _ HS Hret _ _ _ Hin)
    as (T & bins & top & [_ Hl] & Hrows & _).
  destruct (Hrows a Ha) as [(a0 & Ha0 & Ea) ->].
  destruct (Hrows b Hb) as [(b0 & Hb0 & Eb) ->].
  eexists _, _. split; [reflexivity|]. split; [reflexivity|].
  rewrite Hx, Hy.
  apply qcut_score_mono; [done|..].
  - destruct (Hl a0 Ha0) as (l & Hl' & _). rewrite <-Ea, Hx in Hl'. by exists l.
  - destruct (Hl b0 Hb0) as (l & Hl' & _). rewrite <-Eb, Hy in Hl'. by exists l.
Qed.

Lemma rfm_scores_follow_metrics_witness :
  ∃ p q, cell (nth 1 (rows ex_rfm_table) ∅) "M_Score" = num p
         ∧ cell (nth 0 (rows ex_rfm_table) ∅) "M_Score" = num q
         ∧ p ≤ q.
Proof.
  apply (rfm_scores_follow_metrics ex_rfm_analyzer [ex_sales_rfm] ex_sales_rfm
           ex_rfm_table "Monetary" "M_Score" false
           (nth 1 (rows ex_rfm_table) ∅) (nth 0 (rows ex_rfm_table) ∅) 100 500);
    [ reflexivity | vm_compute; reflexivity | right; right; left; reflexivity
    | apply (list_elem_of_lookup_2 _ 1%nat); reflexivity
    | apply (list_elem_of_lookup_2 _ 0%nat); reflexivity
    | vm_compute; reflexivity | vm_compute; reflexivity
    | apply Qle_bool_imp_le; reflexivity ].
Defined.

(** X18: [rfm_analysis] returns rows only when each metric takes two values: in a
    table it returns that is not empty, two rows differ in [Recency], two in
    [Frequency] and two in [Monetary].  With one customer, or with a metric
    that is the same for all customers, the five quantile bins collapse, no
    customer gets a score, and the conversion of the scores to integers
    raises. *)
Theorem rfm_analysis_needs_two_values self (h : heap) S R metric score rev :
  h !! sales_df self = Some S →
  returned (rfm_analysis self h) = Ok R →
  In (metric, score, rev) rfm_metrics →
  rows R ≠ [] →
  ∃ a b, a ∈ rows R ∧ b ∈ rows R ∧ value_eqb (cell a metric) (cell b metric) = false.
Proof.
  intros HS Hret Hin Hne.
  destruct (rfm_metric_scores _ _ _ _ HS Hret _ _ _ Hin)
    as (T & bins & top & [Hq Hl] & Hrows & Hrows').
  set (s := map (λ r, cell r metric) (rows T)) in *.
  destruct (forallb (λ v, forallb (value_eqb v) s) s) eqn:Eall.
  - exfalso. rewrite forallb_forall in Eall.
    assert (∀ v w, In v s → In w s → value_eqb v w = true) as Heq.
    { intros v w Hv Hw. specialize (Eall v Hv). rewrite forallb_forall in Eall.
      by apply Eall. }
    pose proof (qcut_constant s _ Heq Hq) as Hnull.
    destruct (rows R) as [|r rs] eqn:ER; [done|].
    destruct (Hrows r) as [(r0 & Hr0 & _) _]; [by left|].
    destruct (Hl r0 Hr0) as (l & Hl' & _).
    rewrite List.Forall_forall in Hnull.
    rewrite (Hnull (bin_label bins (num_opt (cell r0 metric)))) in Hl'; [done|].
    by apply (in_map (λ r, bin_label bins (num_opt (cell r metric)))).
  - apply forallb_false_In in Eall as (v & Hv & Ev).
    apply forallb_false_In in Ev as (w & Hw & Evw).
    apply in_map_iff in Hv as (a0 & <- & Ha0).
    apply in_map_iff in Hw as (b0 & <- & Hb0).
    destruct (Hrows' a0 Ha0) as (a & Ha & Ea).
    destruct (Hrows' b0 Hb0) as (b & Hb & Eb).
    exists a, b. split; [done|]. split; [done|]. by rewrite Ea, Eb.
Qed.

Lemma rfm_analysis_needs_two_values_witness :
  ∃ a b, a ∈ rows ex_rfm_table ∧ b ∈ rows ex_rfm_table
         ∧ value_eqb (cell a "Recency") (cell b "Recency") = false.
Proof.
  apply (rfm_analysis_needs_two_values ex_rfm_analyzer [ex_sales_rfm] ex_sales_rfm
           ex_rfm_table "Recency" "R_Score" true);
    [ reflexivity | vm_compute; reflexivity | left; reflexivity | discriminate ].
Defined.

(** X19: Every row [rfm_analysis] returns has a [Recency] of at least one day:
    the days are counted from the day after the latest invoice date of the
    whole table. *)
Theorem rfm_recency_at_least_one_day self (h : heap) S R r :
  h !! sales_df self = Some S →
  returned (rfm_analysis self h) = Ok R →
  r ∈ rows R →
  ∃ d, cell r "Recency" = num d ∧ 1 ≤ d.
Proof. intros HS Hret. by apply (rfm_recency_days self h S R). Qed.

Lemma rfm_recency_at_least_one_day_witness :
  ∃ d, cell (nth 0 (rows ex_rfm_table) ∅) "Recency" = num d ∧ 1 ≤ d.
Proof.
  apply (rfm_recency_at_least_one_day ex_rfm_analyzer [ex_sales_rfm] ex_sales_rfm
           ex_rfm_table);
    [ reflexivity | vm_compute; reflexivity
    | apply (list_elem_of_lookup_2 _ 0%nat); reflexivity ].
Defined.

(** * analytics.py: the guards of the methods *)

Lemma check_column_fails {A} (k : unit → M A) (h : heap) l V c :
  h !! l = Some V → has_column c V = false →
  (_check_column c l ≫= k) h = (Raise (missing_column c), h).
Proof.
  intros Hl Hc. by rewrite bind_run, (check_column_run _ _ _ _ Hl), Hc.
Qed.

Lemma check_column_passes {A} (k : unit → M A) (h : heap) l V c :
  h !! l = Some V → has_column c V = true →
  (_check_column c l ≫= k) h = k tt h.
Proof.
  intros Hl Hc. by rewrite bind_run, (check_column_run _ _ _ _ Hl), Hc.
Qed.

(** X20: A method of the Analyzer that groups the sales table raises the
    [KeyError] of [_check_column] when the column it checks is not in the
    table, and leaves the heap as it is: the three top-N methods check their
    grouping column, [customer_lifetime_value] and [rfm_analysis] check
    [CustomerId].  [customer_lifetime_value] checks no other column: without
    [FirstName] it raises the [KeyError] of the [groupby], which names that
    column only. *)
Theorem sales_guards self n (h : heap) S :
  h !! sales_df self = Some S →
  (∀ col m, In (col, m) (top_methods self n) → has_column col S = false →
     m h = (Raise (missing_column col), h))
  ∧ (has_column "CustomerId" S = false →
     customer_lifetime_value self n h = (Raise (missing_column "CustomerId"), h)
     ∧ rfm_analysis self h = (Raise (missing_column "CustomerId"), h))
  ∧ (has_column "CustomerId" S = true → has_column "FirstName" S = false →
     customer_lifetime_value self n h = (Raise (KeyError "FirstName"), h)).
Proof.
  intros HS. split; [|split].
  - intros col m (-> & _)%top_methods_body Hcol.
    unfold top_by_revenue. by apply (check_column_fails _ _ _ S).
  - intros Hcol. split.
    + unfold customer_lifetime_value. by apply (check_column_fails _ _ _ S).
    + unfold rfm_analysis. by apply (check_column_fails _ _ _ S).
  - intros Hid Hfirst. unfold customer_lifetime_value.
    rewrite (check_column_passes _ _ _ S) by done.
    rewrite bind_run, (deref_run _ _ _ HS), bind_run.
    unfold lift, groupby_sum, groupby. cbn [List.filter].
    rewrite Hid, Hfirst. cbn [negb]. reflexivity.
Qed.

Lemma sales_guards_witness :
  top_countries_by_revenue ex_rfm_analyzer 5 [ex_sales_gap]
  = (Raise (missing_column "Country"), [ex_sales_gap])
  ∧ customer_lifetime_value ex_rfm_analyzer 5 [ex_sales_gap]
    = (Raise (KeyError "FirstName"), [ex_sales_gap]).
Proof.
  destruct (sales_guards ex_rfm_analyzer 5 [ex_sales_gap] ex_sales_gap eq_refl)
    as (Htop & _ & Hclv).
  split.
  - apply (Htop "Country"); [left; reflexivity | reflexivity].
  - apply Hclv; reflexivity.
Defined.

(** X21: The two methods on the catalog raise [ValueError] when the Analyzer was
    built without a catalog, and the [KeyError] of [_check_column] when the
    catalog lacks the column they read ([Name] for the words, [DurationMin]
    for the statistics); the heap is left as it is.  With its column,
    [duration_stats] returns [describe()] of that column. *)
Theorem catalog_guards (str_of_value : value → string)
    (describe : Series → list (string * value)) self n stopwords (h : heap) :
  (catalog_df self = None →
     top_words_in_track_titles str_of_value self n stopwords h
     = (Raise (ValueError "catalog_df is required for text analysis."), h)
     ∧ duration_stats describe self h
       = (Raise (ValueError "catalog_df is required for duration analysis."), h))
  ∧ (∀ c C, catalog_df self = Some c → h !! c = Some C →
       (has_column "Name" C = false →
        top_words_in_track_titles str_of_value self n stopwords h
        = (Raise (missing_column "Name"), h))
       ∧ (has_column "DurationMin" C = false →
          duration_stats describe self h = (Raise (missing_column "DurationMin"), h))
       ∧ (has_column "DurationMin" C = true →
          duration_stats describe self h
          = (Ok (describe (map (λ r, cell r "DurationMin") (rows C))), h))).
Proof.
  split.
  - intros Hnone. unfold top_words_in_track_titles, duration_stats.
    by rewrite Hnone.
  - intros c C Hc HC. unfold top_words_in_track_titles, duration_stats. rewrite Hc.
    split; [|split]; intros Hcol.
    + by apply (check_column_fails _ _ _ C).
    + by apply (check_column_fails _ _ _ C).
    + rewrite (check_column_passes _ _ _ C) by done.
      rewrite bind_run, (getitem_run _ _ _ _ HC). unfold df_getitem.
      by rewrite Hcol.
Qed.

Lemma catalog_guards_witness :
  top_words_in_track_titles ex_str ex_rfm_analyzer 20 None [ex_sales_gap]
  = (Raise (ValueError "catalog_df is required for text analysis."), [ex_sales_gap])
  ∧ duration_stats ex_describe ex_titles_analyzer [ex_sales_gap; ex_titles]
    = (Raise (missing_column "DurationMin"), [ex_sales_gap; ex_titles]).
Proof.
  split.
  - apply (proj1 (catalog_guards ex_str ex_describe ex_rfm_analyzer 20 None
                    [ex_sales_gap])). reflexivity.
  - apply (proj2 (catalog_guards ex_str ex_describe ex_titles_analyzer 20 None
                    [ex_sales_gap; ex_titles]) 1%nat ex_titles eq_refl eq_refl).
    reflexivity.
Defined.
